(** * RepoBrief: ingestion, commit pulling and retrieval

    A shallow embedding of the repository loader, the Gemini client, the
    two ingestion paths, the commit puller and the question-answering route,
    together with the properties their specification states about them,
    and of the cost of a repository, the credits of [createProject] and the
    keyword route, with further properties read off the code.

    Conventions of the embedding.
    - JavaScript strings are Rocq strings: sequences of code units below 256
      (the Latin-1 fragment, in which no surrogate pair occurs).
    - JavaScript numbers are idealised as real numbers in the vectors the
      ingestion produces and stores and in the handler of the route, and as
      rationals for the keyword score, whose values are small multiples of
      one half; 32-bit integer operations are written out on [Z].  The
      ranking of the semantic mode, which depends on rounding, on NaN and on
      the comparison function handed to [sort], is written a second time
      over IEEE 754 binary64 numbers ([SemanticMode]), and what is proved
      of that ranking is proved there.
    - Asynchronous calls to remote services are calls to an oracle of the
      environment, indexed by the number of earlier calls of the same kind,
      so that a service may fail on one attempt and answer on the next.
      Every call, delay and database write is recorded in a trace. *)

From Stdlib Require Import Floats.
From Stdlib Require Import List String Ascii Bool Arith ZArith Lia.
From Stdlib Require Import QArith Reals Psatz Permutation Sorted DecimalString.
Import ListNotations.

Set Implicit Arguments.

Local Open Scope string_scope.
Local Open Scope list_scope.

(* ================================================================== *)
(** ** JavaScript strings *)
(* ================================================================== *)

Module JsString.

Definition LF : string := String (ascii_of_nat 10) EmptyString.

Definition charCode (c : ascii) : Z := Z.of_nat (nat_of_ascii c).

(** [String.prototype.toLowerCase] on the Latin-1 fragment. *)
Definition lowerChar (c : ascii) : ascii :=
  let n := nat_of_ascii c in
  if ((65 <=? n) && (n <=? 90))%nat then ascii_of_nat (n + 32)
  else if ((192 <=? n) && (n <=? 222) && negb (n =? 215))%nat
       then ascii_of_nat (n + 32)
       else c.

Fixpoint toLowerCase (s : string) : string :=
  match s with
  | EmptyString => EmptyString
  | String c s' => String (lowerChar c) (toLowerCase s')
  end.

(** [s.includes(sub)]: [sub] occurs in [s] as a contiguous substring. *)
Fixpoint includes (s sub : string) : bool :=
  match s with
  | EmptyString => String.prefix sub EmptyString
  | String _ s' => String.prefix sub s || includes s' sub
  end.

(** The class [\s] of regular expressions, below code unit 256. *)
Definition isSpace (c : ascii) : bool :=
  let n := nat_of_ascii c in
  (((9 <=? n) && (n <=? 13)) || (n =? 32) || (n =? 160))%nat.

(** [s.split(/\s+/)]: the pieces between maximal runs of white space; a
    leading or trailing run leaves an empty piece at that end. *)
Fixpoint splitSpacesFrom (s cur : string) (inRun : bool) : list string :=
  match s with
  | EmptyString => [cur]
  | String c s' =>
      if isSpace c then
        if inRun then splitSpacesFrom s' cur true
        else cur :: splitSpacesFrom s' EmptyString true
      else splitSpacesFrom s' (cur ++ String c EmptyString) false
  end.

Definition splitSpaces (s : string) : list string :=
  splitSpacesFrom s EmptyString false.

(** [s.split(sep)] for a one-character separator. *)
Fixpoint splitOnFrom (sep : ascii) (s cur : string) : list string :=
  match s with
  | EmptyString => [cur]
  | String c s' =>
      if Ascii.eqb c sep then cur :: splitOnFrom sep s' EmptyString
      else splitOnFrom sep s' (cur ++ String c EmptyString)
  end.

Definition splitOn (sep : ascii) (s : string) : list string :=
  splitOnFrom sep s EmptyString.

(** [s.slice(0, n)]. *)
Fixpoint sliceTo (n : nat) (s : string) : string :=
  match n, s with
  | O, _ => EmptyString
  | _, EmptyString => EmptyString
  | S n', String c s' => String c (sliceTo n' s')
  end.

(** A string is truthy when it is not empty. *)
Definition truthy (s : string) : bool :=
  match s with EmptyString => false | _ => true end.

(** [s || d]. *)
Definition orElse (s d : string) : string := if truthy s then s else d.

End JsString.

(* ================================================================== *)
(** ** 32-bit integers *)
(* ================================================================== *)

Module Int32.

(** [ToInt32]: wrap an integer into the signed 32-bit range. *)
Definition wrap (z : Z) : Z := ((z + 2 ^ 31) mod 2 ^ 32 - 2 ^ 31)%Z.

(** [a << n]. *)
Definition shl (a : Z) (n : Z) : Z := wrap (Z.shiftl (wrap a) n).

(** [a & b]. *)
Definition and (a b : Z) : Z := wrap (Z.land (wrap a) (wrap b)).

(** [Math.imul(a, b)]. *)
Definition imul (a b : Z) : Z := wrap (wrap a * wrap b).

(** [a | 0]. *)
Definition or0 (a : Z) : Z := wrap a.

End Int32.

(* ================================================================== *)
(** ** Arrays: [Array.prototype.sort] *)
(* ================================================================== *)

(** [sort] is stable.  With a comparison function that is consistent, the
    stable sorted arrangement of an array is unique ([stable_sort_unique]
    below), so the algorithm written here (insertion from the right) stands
    for whichever stable algorithm the engine runs.  [after a b] says that
    the comparison function returns a positive number on [(a, b)]: [a] has
    to be placed after [b]. *)

Module JsArray.

Section Sort.

Variable A : Type.
Variable after : A -> A -> bool.

Fixpoint insert (x : A) (l : list A) : list A :=
  match l with
  | [] => [x]
  | y :: l' => if after x y then y :: insert x l' else x :: l
  end.

Definition sort (l : list A) : list A := fold_right insert [] l.

(** [notAfter a b]: the order allows [a] to stand before [b]. *)
Definition notAfter (a b : A) : Prop := after a b = false.

(** [tied a b]: the comparison function puts neither before the other. *)
Definition tied (a b : A) : bool := negb (after a b) && negb (after b a).

End Sort.

End JsArray.

(* ================================================================== *)
(** ** Data model *)
(* ================================================================== *)

(** An embedding vector: [number[]]. *)
Definition Vector : Type := list R.

(** A loaded document: [{ pageContent, metadata: { source } }]; the source
    is [None] when [metadata] or its key [source] is missing.  A key that
    is present holds a string, as the type of the loader's documents
    declares. *)
Record Doc : Type := mkDoc {
  pageContent : string;
  source : option string
}.

(** The options handed to [GithubRepoLoader]. *)
Record LoaderConfig : Type := mkLoaderConfig {
  cfg_repoUrl : string;
  cfg_branch : string;
  cfg_recursive : bool;
  cfg_unknown : string;
  cfg_accessToken : option string;
  cfg_maxConcurrency : nat;
  cfg_ignoreFiles : list string
}.

(** The argument of [embeddingModel.embedContent]: one content with a role
    and its parts. *)
Record EmbedRequest : Type := mkEmbedRequest {
  req_role : string;
  req_parts : list string
}.

(** What [embedContent] may answer: a rejection, a result without
    [embedding], an embedding without [values], or the values. *)
Inductive EmbedResponse : Type :=
| EmbedRejected (msg : string)
| EmbedNoEmbedding
| EmbedNoValues
| EmbedValues (values : Vector).

(** A row of [SourceCodeEmbedding]. *)
Record FileRecord : Type := mkFileRecord {
  file_id : nat;
  fileName : string;
  summary : string;
  sourceCode : option string;
  file_projectId : string;
  embedding : option Vector
}.

(** A row of [Commit]. *)
Record CommitRecord : Type := mkCommitRecord {
  commit_id : nat;
  commit_projectId : string;
  commitHash : string;
  message : string;
  authorName : string;
  authorAvatar : string;
  committedAt : Z;
  commit_summary : string
}.

(** A commit as [getCommitHashes] returns it; the date is kept as the
    instant [new Date(date)] denotes. *)
Record GhCommit : Type := mkGhCommit {
  hash : string;
  gh_message : string;
  author : string;
  date : Z;
  gh_authorAvatar : option string
}.

Record Project : Type := mkProject {
  project_id : string;
  githuburl : option string
}.

(** The outcome of [axios.get]: the body, an error carrying a response
    (its status and, when the response has a [retry-after] header that
    gives a number of seconds, that number; a header that holds no number
    is not represented), or an error without a response. *)
Inductive AxiosResult : Type :=
| AxiosData (body : string)
| AxiosStatus (status : Z) (retryAfter : option Z)
| AxiosNoResponse (msg : string).

(* ================================================================== *)
(** ** The world: remote services, the database and the trace *)
(* ================================================================== *)

(** A computation either returns a value or throws. *)
Inductive Outcome (A : Type) : Type :=
| Ok (a : A)
| Thrown (msg : string).

Arguments Ok {A} a.
Arguments Thrown {A} msg.

Inductive Event : Type :=
| EvGenerate (prompt : string)
| EvEmbed (req : EmbedRequest)
| EvSleep (ms : Z)
| EvLoad (cfg : LoaderConfig)
| EvHttpGet (url : string)
| EvListCommits (owner repo : string)
| EvRandom
| EvDbWrite
| EvProcessing (position total : nat) (name : string).

(** The services.  The first argument of an oracle is the number of calls
    of that kind made before.  [urlParse] is [new URL(url)]: the host name
    and the path name, when [url] parses. *)
Record Env : Type := mkEnv {
  generateContent : nat -> string -> Outcome string;
  embedContent : nat -> EmbedRequest -> EmbedResponse;
  loaderLoad : nat -> LoaderConfig -> Outcome (list Doc);
  axiosGet : nat -> string -> AxiosResult;
  listCommits : nat -> string -> string -> Outcome (list GhCommit);
  mathRandom : nat -> R;
  dbWriteFails : nat -> bool;
  urlParse : string -> option (string * string)
}.

Record World : Type := mkWorld {
  trace : list Event;
  files : list FileRecord;
  commits : list CommitRecord;
  projects : list Project;
  nextId : nat
}.

Definition isGenerate (e : Event) : bool :=
  match e with EvGenerate _ => true | _ => false end.
Definition isEmbed (e : Event) : bool :=
  match e with EvEmbed _ => true | _ => false end.
Definition isLoad (e : Event) : bool :=
  match e with EvLoad _ => true | _ => false end.
Definition isHttpGet (e : Event) : bool :=
  match e with EvHttpGet _ => true | _ => false end.
Definition isListCommits (e : Event) : bool :=
  match e with EvListCommits _ _ => true | _ => false end.
Definition isRandom (e : Event) : bool :=
  match e with EvRandom => true | _ => false end.
Definition isDbWrite (e : Event) : bool :=
  match e with EvDbWrite => true | _ => false end.

Definition count (p : Event -> bool) (w : World) : nat :=
  List.length (filter p (trace w)).

Definition record (e : Event) (w : World) : World :=
  mkWorld (trace w ++ [e]) (files w) (commits w) (projects w) (nextId w).

Definition setFiles (fs : list FileRecord) (w : World) : World :=
  mkWorld (trace w) fs (commits w) (projects w) (nextId w).

Definition setCommits (cs : list CommitRecord) (w : World) : World :=
  mkWorld (trace w) (files w) cs (projects w) (nextId w).

Definition bumpId (w : World) : World :=
  mkWorld (trace w) (files w) (commits w) (projects w) (S (nextId w)).

(** The delays awaited, the embedding requests sent and the files announced
    as being processed, in order. *)
Definition sleepsOf (t : list Event) : list Z :=
  flat_map (fun e => match e with EvSleep ms => [ms] | _ => [] end) t.

Definition embedRequestsOf (t : list Event) : list EmbedRequest :=
  flat_map (fun e => match e with EvEmbed r => [r] | _ => [] end) t.

Definition generatePromptsOf (t : list Event) : list string :=
  flat_map (fun e => match e with EvGenerate p => [p] | _ => [] end) t.

Definition httpGetsOf (t : list Event) : list string :=
  flat_map (fun e => match e with EvHttpGet u => [u] | _ => [] end) t.

Definition processedOf (t : list Event) : list string :=
  flat_map (fun e => match e with EvProcessing _ _ n => [n] | _ => [] end) t.

(** *** The monad of asynchronous code *)

Definition M (A : Type) : Type := Env -> World -> Outcome A * World.

Definition ret {A} (a : A) : M A := fun _ w => (Ok a, w).

Definition bind {A B} (m : M A) (k : A -> M B) : M B :=
  fun env w =>
    match m env w with
    | (Ok a, w') => k a env w'
    | (Thrown msg, w') => (Thrown msg, w')
    end.

Definition throw {A} (msg : string) : M A := fun _ w => (Thrown msg, w).

(** [try { m } catch (err) { handler(err.message) }]. *)
Definition tryCatch {A} (m : M A) (handler : string -> M A) : M A :=
  fun env w =>
    match m env w with
    | (Ok a, w') => (Ok a, w')
    | (Thrown msg, w') => handler msg env w'
    end.

Declare Scope js_scope.
Delimit Scope js_scope with js.
Notation "x <- m ;; k" := (bind m (fun x => k))
  (at level 61, m at next level, right associativity) : js_scope.
Notation "m ;; k" := (bind m (fun _ => k))
  (at level 61, right associativity) : js_scope.
Local Open Scope js_scope.

(** [await new Promise(resolve => setTimeout(resolve, ms))]. *)
Definition sleep (ms : Z) : M unit := fun _ w => (Ok tt, record (EvSleep ms) w).

(** [for (let i = start; i < xs.length; i++) body(i, xs[i])], and
    [for (const x of xs)] with the position of [x] at hand. *)
Fixpoint forEachFrom {A} (i : nat) (xs : list A) (body : nat -> A -> M unit)
  : M unit :=
  match xs with
  | [] => ret tt
  | x :: xs' => body i x ;; forEachFrom (S i) xs' body
  end.

(** A computation that cannot throw, whatever the services do. *)
Definition neverThrows {A} (m : M A) : Prop :=
  forall env w, exists a w', m env w = (Ok a, w').

(* ================================================================== *)
(** ** The Gemini client: [summarizeCommit] and [generateEmbedding] *)
(* ================================================================== *)

Module Gemini.

Import JsString.

Definition MAX_RETRIES : nat := 3.

(** [model.generateContent(prompt)] followed by [response.text()]. *)
Definition callGenerateContent (prompt : string) : M string :=
  fun env w =>
    (generateContent env (count isGenerate w) prompt,
     record (EvGenerate prompt) w).

Definition summarizePrompt (diff : string) : string :=
  LF ++ "You are an expert programmer. Summarize the following git diff in clear, concise language for a changelog or PR reviewer."
     ++ LF ++ "The diff is in standard unified format."
     ++ LF ++ LF ++ diff ++ LF.

Definition summaryFallback : string :=
  "Updated code with various improvements and fixes.".

Definition summaryAfterLoop : string :=
  "Code changes made to the repository.".

(** [Math.pow(2, retries) * 1000]. *)
Definition backoff (retries : nat) : Z := (2 ^ Z.of_nat retries * 1000)%Z.

(** The [while (retries < MAX_RETRIES)] loop of [summarizeCommit], entered
    with the current value of [retries]; [fuel] bounds the iterations. *)
Fixpoint summarizeCommitFrom (fuel retries : nat) (prompt : string)
  : M string :=
  match fuel with
  | O => ret summaryAfterLoop
  | S fuel' =>
      if (retries <? MAX_RETRIES)%nat then
        tryCatch (callGenerateContent prompt)
          (fun _ =>
             let retries' := S retries in
             if (retries' <? MAX_RETRIES)%nat then
               sleep (backoff retries') ;;
               summarizeCommitFrom fuel' retries' prompt
             else ret summaryFallback)
      else ret summaryAfterLoop
  end.

Definition summarizeCommit (diff : string) : M string :=
  summarizeCommitFrom MAX_RETRIES 0 (summarizePrompt diff).

(** The request [generateEmbedding] sends: one part, which is the text or,
    for the empty text, a placeholder. *)
Definition embedRequest (text : string) : EmbedRequest :=
  mkEmbedRequest "user" [orElse text "empty text"].

(** The check made on the result of the call:
    [!result.embedding || !result.embedding.values
     || result.embedding.values.length === 0] throws. *)
Definition checkEmbedding (r : EmbedResponse) : Outcome Vector :=
  match r with
  | EmbedRejected msg => Thrown msg
  | EmbedNoEmbedding | EmbedNoValues =>
      Thrown "Empty embedding returned from Gemini API"
  | EmbedValues values =>
      if (List.length values =? 0)%nat
      then Thrown "Empty embedding returned from Gemini API"
      else Ok values
  end.

(** The body of the [try] block: the call, then the check of the result. *)
Definition callEmbedContent (text : string) : M Vector :=
  fun env w =>
    let req := embedRequest text in
    (checkEmbedding (embedContent env (count isEmbed w) req),
     record (EvEmbed req) w).

(** All three attempts to embed [text] fail, starting from the world [w]. *)
Definition embedExhausted (env : Env) (w : World) (text : string) : Prop :=
  forall k, (k < MAX_RETRIES)%nat ->
    exists msg,
      checkEmbedding (embedContent env (count isEmbed w + k) (embedRequest text))
      = Thrown msg.

(** The hash of the text seeded with the position:
    [Array.from(text || "fallback").reduce((h, c) =>
       Math.imul(31, h) + c.charCodeAt(0) | 0, i + 1)]. *)
Definition fallbackHash (text : string) (i : nat) : Z :=
  fold_left (fun h c => Int32.or0 (Int32.imul 31 h + charCode c))
            (list_ascii_of_string (orElse text "fallback"))
            (Z.of_nat i + 1)%Z.

(** [new Array(768).fill(0).map((_, i) => (hash % 200) / 100 - 1)]. *)
Definition fallbackEmbedding (text : string) : Vector :=
  map (fun i => (IZR (Z.rem (fallbackHash text i) 200) / 100 - 1)%R)
      (seq 0 768).

Fixpoint generateEmbeddingFrom (fuel retries : nat) (text : string)
  : M Vector :=
  match fuel with
  | O => ret (repeat 0%R 768)
  | S fuel' =>
      if (retries <? MAX_RETRIES)%nat then
        tryCatch (callEmbedContent text)
          (fun _ =>
             let retries' := S retries in
             if (retries' <? MAX_RETRIES)%nat then
               sleep (backoff retries') ;;
               generateEmbeddingFrom fuel' retries' text
             else ret (fallbackEmbedding text))
      else ret (repeat 0%R 768)
  end.

Definition generateEmbedding (text : string) : M Vector :=
  generateEmbeddingFrom MAX_RETRIES 0 text.

End Gemini.

(* ================================================================== *)
(** ** The repository loader: [loadGitHubRepository] *)
(* ================================================================== *)

Module GithubLoader.

Import JsString.

Definition ignoreFiles : list string :=
  [ "**/*.jpg"; "**/*.jpeg"; "**/*.png"; "**/*.gif"; "**/*.svg";
    "**/*.ico"; "**/*.mp4"; "**/*.mp3"; "**/*.wav"; "**/*.ogg";
    "**/*.pdf"; "**/*.zip"; "**/*.tar.gz" ].

(** The options of both attempts; only the branch differs. *)
Definition loaderOptions (repoUrl branch : string)
           (accessToken : option string) (recursive : option bool)
  : LoaderConfig :=
  mkLoaderConfig repoUrl branch
                 (match recursive with Some r => r | None => false end)
                 "warn" accessToken 5 ignoreFiles.

(** [new GithubRepoLoader(repoUrl, options)] and [loader.load()]. *)
Definition load (cfg : LoaderConfig) : M (list Doc) :=
  fun env w => (loaderLoad env (count isLoad w) cfg, record (EvLoad cfg) w).

(** [repoUrl.split('/').pop()]. *)
Definition lastSegment (repoUrl : string) : string :=
  List.last (splitOn "/" repoUrl) EmptyString.

Definition sampleReadme (repoUrl : string) : Doc :=
  mkDoc ("# " ++ lastSegment repoUrl ++ LF ++ LF
         ++ "This repository appears to be empty or inaccessible. Please add some files to this repository.")
        (Some "README.md").

Definition loadGitHubRepository (repoUrl : string)
           (accessToken : option string) (recursive : option bool)
  : M (list Doc) :=
  tryCatch (load (loaderOptions repoUrl "main" accessToken recursive))
    (fun _ =>
       tryCatch (load (loaderOptions repoUrl "master" accessToken recursive))
         (fun _ => ret [sampleReadme repoUrl])).

End GithubLoader.

(* ================================================================== *)
(** ** The database *)
(* ================================================================== *)

Module Db.

(** Every write may be refused by the database. *)
Definition write : M unit :=
  fun env w =>
    let w' := record EvDbWrite w in
    if dbWriteFails env (count isDbWrite w)
    then (Thrown "database error", w')
    else (Ok tt, w').

(** [sourceCodeEmbedding.create({ data })]: the row is stored without a
    vector. *)
Definition createFile (name summ code projectId : string) : M FileRecord :=
  write ;;
  (fun _ w =>
     let row := mkFileRecord (nextId w) name summ (Some code) projectId None in
     (Ok row, bumpId (setFiles (files w ++ [row]) w))).

Definition withEmbedding (v : Vector) (r : FileRecord) : FileRecord :=
  mkFileRecord (file_id r) (fileName r) (summary r) (sourceCode r)
               (file_projectId r) (Some v).

(** [UPDATE "SourceCodeEmbedding" SET embedding = $1 WHERE id = $2]. *)
Definition setEmbedding (v : Vector) (id : nat) : M unit :=
  write ;;
  (fun _ w =>
     (Ok tt,
      setFiles (map (fun r => if (file_id r =? id)%nat
                              then withEmbedding v r else r) (files w)) w)).

(** [sourceCodeEmbedding.findMany({ where: { projectId }, take })]: the
    rows of the project in the order the database returns them, which is
    the order of the table here. *)
Definition findFiles (projectId : string) (take : option nat)
  : M (list FileRecord) :=
  fun _ w =>
    let rows := filter (fun r => String.eqb (file_projectId r) projectId)
                       (files w) in
    (Ok (match take with Some n => firstn n rows | None => rows end), w).

(** [project.findUnique({ where: { id } })]. *)
Definition findProject (projectId : string) : M (option Project) :=
  fun _ w =>
    (Ok (find (fun p => String.eqb (project_id p) projectId) (projects w)),
     w).

(** [commit.findMany({ where: { projectId, commitHash: { in } } })]. *)
Definition findCommitsIn (projectId : string) (hashes : list string)
  : M (list CommitRecord) :=
  fun _ w =>
    (Ok (filter (fun c => String.eqb (commit_projectId c) projectId
                          && existsb (String.eqb (commitHash c)) hashes)
                (commits w)), w).

Definition updated (c : GhCommit) (summ : string) (r : CommitRecord)
  : CommitRecord :=
  mkCommitRecord (commit_id r) (commit_projectId r) (commitHash r)
                 (gh_message c) (author c)
                 (match gh_authorAvatar c with
                  | Some a => a | None => EmptyString end)
                 (date c) summ.

Definition created (id : nat) (projectId : string) (c : GhCommit)
           (summ : string) : CommitRecord :=
  mkCommitRecord id projectId (hash c) (gh_message c) (author c)
                 (match gh_authorAvatar c with
                  | Some a => a | None => EmptyString end)
                 (date c) summ.

Definition hasHash (h : string) (r : CommitRecord) : bool :=
  String.eqb (commitHash r) h.

(** The table after [commit.upsert({ where: { commitHash }, update,
    create })]: the row with this hash, whichever project owns it, is
    updated (its project is left as it is); a row is created, with the
    identifier [id], only when no row has the hash. *)
Definition upsertRows (id : nat) (projectId : string) (c : GhCommit)
           (summ : string) (rows : list CommitRecord) : list CommitRecord :=
  if existsb (hasHash (hash c)) rows then
    map (fun r => if hasHash (hash c) r then updated c summ r else r) rows
  else rows ++ [created id projectId c summ].

Definition upsertCommit (projectId : string) (c : GhCommit) (summ : string)
  : M unit :=
  write ;;
  (fun _ w =>
     let rows := upsertRows (nextId w) projectId c summ (commits w) in
     if existsb (hasHash (hash c)) (commits w)
     then (Ok tt, setCommits rows w)
     else (Ok tt, bumpId (setCommits rows w))).

(** Every row whose hash is the hash of one of the commits [cs] belongs to
    the project: no other project stores one of these commits. *)
Definition onlyOwner (projectId : string) (cs : list GhCommit)
           (rows : list CommitRecord) : Prop :=
  forall r c, In r rows -> In c cs -> commitHash r = hash c ->
              commit_projectId r = projectId.

(** The project has a row for the hash. *)
Definition ownsHash (projectId h : string) (rows : list CommitRecord) : bool :=
  existsb (fun r => String.eqb (commit_projectId r) projectId && hasHash h r)
          rows.

Definition commitsOfProject (projectId : string) (cs : list CommitRecord)
  : list CommitRecord :=
  filter (fun c => String.eqb (commit_projectId c) projectId) cs.

(** [commit.findMany({ where: { projectId },
                       orderBy: { committedAt: 'desc' } })]. *)
Definition findCommitsByDate (projectId : string) : M (list CommitRecord) :=
  fun _ w =>
    (Ok (JsArray.sort (fun a b => (committedAt a <? committedAt b)%Z)
                      (commitsOfProject projectId (commits w))), w).

End Db.

(* ================================================================== *)
(** ** The embedding pipeline: [indexGitHubRepo] and its helpers *)
(* ================================================================== *)

Module EmbeddingPipeline.

Import JsString.

(** The string hash of [createFallbackEmbedding]:
    [hash = ((hash << 5) - hash) + char; hash = hash & hash]. *)
Definition hashStep (h : Z) (c : ascii) : Z :=
  let h1 := (Int32.shl h 5 - h + charCode c)%Z in
  Int32.and h1 h1.

Definition hash (str : string) : Z :=
  fold_left hashStep (list_ascii_of_string str) 0%Z.

(** [Math.floor]. *)
Definition floor (x : R) : R := IZR (Int_part x).

(** [const x = Math.sin(seed) * 10000; return x - Math.floor(x)]. *)
Definition seededRandom (seed : Z) : R :=
  let x := (sin (IZR seed) * 10000)%R in (x - floor x)%R.

Definition createFallbackEmbedding (text : string) : Vector :=
  let textHash := hash text in
  map (fun i => seededRandom (textHash + Z.of_nat i)) (seq 0 768).

Definition summarizeCodePrompt (code : string) : string :=
  "You are an intelligent senior software engineer specializing in onboarding people. Explain the purpose of the following code in no more than 100 words."
    ++ LF ++ LF ++ sliceTo (Z.to_nat 10000) code.

Definition summarizeCode (code : string) : M string :=
  tryCatch (Gemini.summarizeCommit (summarizeCodePrompt code))
           (fun _ => ret EmptyString).

(** [generateEmbedding], over the client function it imports. *)
Definition generateEmbeddingVia (geminiGenerateEmbedding : string -> M Vector)
           (text : string) : M Vector :=
  tryCatch (geminiGenerateEmbedding text)
           (fun _ => ret (createFallbackEmbedding text)).

Definition generateEmbedding : string -> M Vector :=
  generateEmbeddingVia Gemini.generateEmbedding.

Definition announce (position total : nat) (name : string) : M unit :=
  fun _ w => (Ok tt, record (EvProcessing position total name) w).

(** [doc.metadata.source], after the default given when the documents are
    copied. *)
Definition documentName (doc : Doc) : string :=
  match source doc with Some s => s | None => EmptyString end.

(** The end of the loop body of [indexGitHubRepo]: a vector that does not
    have 768 components makes the loop [continue]; otherwise the row is
    created and its vector written. *)
Definition storeIndexed (projectId name summ code : string) (v : Vector)
  : M unit :=
  if negb (List.length v =? 768)%nat then ret tt
  else
    tryCatch (inserted <- Db.createFile name summ code projectId ;;
              Db.setEmbedding v (file_id inserted))
             (fun _ => ret tt).

(** The body of the loop of [indexGitHubRepo] for one document. *)
Definition indexDocument (projectId : string) (total idx : nat) (doc : Doc)
  : M unit :=
  let name := documentName doc in
  let code := pageContent doc in
  announce (idx + 1) total name ;;
  summ <- tryCatch (summarizeCode code) (fun _ => ret EmptyString) ;;
  v <- tryCatch (generateEmbedding summ)
                (fun _ => ret (createFallbackEmbedding summ)) ;;
  storeIndexed projectId name summ code v.

Definition indexGitHubRepo (projectId repoUrl : string)
           (githubToken : option string) : M unit :=
  docs <- GithubLoader.loadGitHubRepository repoUrl githubToken None ;;
  forEachFrom 0 docs (indexDocument projectId (List.length docs)).

End EmbeddingPipeline.

(* ================================================================== *)
(** ** The commit puller: [pullCommit] and its helpers *)
(* ================================================================== *)

Module Github.

Import JsString.

(** [s.replace(/^\//, "")]. *)
Definition dropLeadingSlash (s : string) : string :=
  match s with
  | String c s' => if Ascii.eqb c "/" then s' else s
  | EmptyString => s
  end.

(** [s.replace(/\.git$/, "")]. *)
Fixpoint dropGitSuffix (s : string) : string :=
  match s with
  | EmptyString => EmptyString
  | String c s' =>
      if String.eqb s ".git" then EmptyString
      else String c (dropGitSuffix s')
  end.

(** The owner and the repository named by a URL, or the error thrown. *)
Definition ownerAndRepo (env : Env) (url : string) : Outcome (string * string) :=
  match urlParse env url with
  | None => Thrown "Invalid GitHub URL"
  | Some (hostname, pathname) =>
      if negb (String.eqb hostname "github.com")
      then Thrown "Invalid GitHub URL"
      else
        match splitOn "/" (dropGitSuffix (dropLeadingSlash pathname)) with
        | owner :: repo :: _ => Ok (owner, repo)
        | _ => Thrown "Invalid GitHub URL"
        end
  end.

Definition parseGitHubUrl (url : string) : M (string * string) :=
  fun env w => (ownerAndRepo env url, w).

(** [octokit.request('GET /repos/{owner}/{repo}/commits', ...)], mapped to
    the fields kept. *)
Definition requestCommits (owner repo : string) : M (list GhCommit) :=
  fun env w =>
    (listCommits env (count isListCommits w) owner repo,
     record (EvListCommits owner repo) w).

Definition getCommitHashes (githubUrl : string) : M (list GhCommit) :=
  ownerRepo <- parseGitHubUrl githubUrl ;;
  requestCommits (fst ownerRepo) (snd ownerRepo).

Definition MAX_RETRIES : nat := 3.

Definition axiosGetDiff (url : string) : M AxiosResult :=
  fun env w =>
    (Ok (axiosGet env (count isHttpGet w) url), record (EvHttpGet url) w).

Definition diffUrl (repoUrl commitHash : string) : string :=
  repoUrl ++ "/commit/" ++ commitHash ++ ".diff".

Definition forbiddenSummary : string :=
  "Updated code in repository. (Note: Detailed summary unavailable due to GitHub access restrictions)".

Definition notFoundSummary : string :=
  "New commit added to repository. (Note: Detailed summary unavailable as commit details could not be found)".

Fixpoint aiSummarizeCommitFrom (fuel retries : nat) (repoUrl commitHash : string)
  : M string :=
  match fuel with
  | O => ret EmptyString
  | S fuel' =>
      if (retries <? MAX_RETRIES)%nat then
        r <- axiosGetDiff (diffUrl repoUrl commitHash) ;;
        match r with
        | AxiosData diff =>
            tryCatch (Gemini.summarizeCommit diff) (fun _ => ret EmptyString)
        | AxiosStatus status retryAfter =>
            if (status =? 403)%Z then ret forbiddenSummary
            else if (status =? 404)%Z then ret notFoundSummary
            else if (status =? 429)%Z then
              let retries' := S retries in
              let waitTime := match retryAfter with
                              | Some seconds => (seconds * 1000)%Z
                              | None => Gemini.backoff retries'
                              end in
              sleep waitTime ;;
              aiSummarizeCommitFrom fuel' retries' repoUrl commitHash
            else ret EmptyString
        | AxiosNoResponse _ => ret EmptyString
        end
      else ret EmptyString
  end.

Definition aiSummarizeCommit (repoUrl commitHash : string) : M string :=
  aiSummarizeCommitFrom MAX_RETRIES 0 repoUrl commitHash.

Definition fetchProjectGithubUrl (projectId : string) : M string :=
  p <- Db.findProject projectId ;;
  match p with
  | Some (mkProject _ (Some url)) =>
      if truthy url then ret url
      else throw "Project or GitHub URL not found"
  | _ => throw "Project or GitHub URL not found"
  end.

(** The hashes among [commitHashes] that the project has no row for. *)
Definition filterOutUnprocessedCommits (projectId : string)
           (commitHashes : list string) : M (list string) :=
  processed <- Db.findCommitsIn projectId commitHashes ;;
  let processedHashes := map commitHash processed in
  ret (filter (fun h => negb (existsb (String.eqb h) processedHashes))
              commitHashes).

(** The body of the loop of [pullCommit] for the commit at [position]. *)
Definition saveCommit (projectId githubUrl : string) (position : nat)
           (commit : GhCommit) : M unit :=
  summ <- tryCatch
            ((if (0 <? position)%nat then sleep 2000 else ret tt) ;;
             aiSummarizeCommit githubUrl (hash commit))
            (fun _ => ret "[AI summary failed]") ;;
  tryCatch (Db.upsertCommit projectId commit summ)
           (fun msg => throw ("Could not save commit " ++ hash commit
                              ++ " to database: " ++ msg)).

Definition pullCommit (projectId : string) : M (list CommitRecord) :=
  tryCatch
    (githubUrl <- fetchProjectGithubUrl projectId ;;
     fetched <- getCommitHashes githubUrl ;;
     newHashes <- filterOutUnprocessedCommits projectId (map hash fetched) ;;
     let newCommits :=
       filter (fun c => existsb (String.eqb (hash c)) newHashes) fetched in
     forEachFrom 0 newCommits (saveCommit projectId githubUrl) ;;
     Db.findCommitsByDate projectId)
    (fun msg => throw ("Could not pull commits: " ++ msg)).

End Github.

(* ================================================================== *)
(** ** The project router: the ingestion started by [createProject] *)
(* ================================================================== *)

Module ProjectRouter.

Import JsString.

Definition MAX_RETRIES : nat := 3.

(** [a.metadata?.source || '']. *)
Definition sourceOrEmpty (d : Doc) : string :=
  match source d with Some s => s | None => EmptyString end.

Definition isReadme (file : string) : bool :=
  includes (toLowerCase file) "readme".
Definition isPackageJson (file : string) : bool :=
  includes file "package.json".
Definition isUnderSrc (file : string) : bool :=
  includes file "/src/".

(** The comparison function handed to [docs.sort]. *)
Definition comparePriority (a b : Doc) : Z :=
  let fileA := sourceOrEmpty a in
  let fileB := sourceOrEmpty b in
  if isReadme fileA && negb (isReadme fileB) then (-1)%Z
  else if negb (isReadme fileA) && isReadme fileB then 1%Z
  else if isPackageJson fileA && negb (isPackageJson fileB) then (-1)%Z
  else if negb (isPackageJson fileA) && isPackageJson fileB then 1%Z
  else if isUnderSrc fileA && negb (isUnderSrc fileB) then (-1)%Z
  else if negb (isUnderSrc fileA) && isUnderSrc fileB then 1%Z
  else 0%Z.

Definition priorityAfter (a b : Doc) : bool := (0 <? comparePriority a b)%Z.

(** The rank the comparison gives a document: README-like names, then
    package.json-like names, then names under a [/src/] directory, then
    everything else. *)
Definition priorityClass (d : Doc) : nat :=
  let file := sourceOrEmpty d in
  if isReadme file then 0
  else if isPackageJson file then 1
  else if isUnderSrc file then 2
  else 3.

(** The documents on which the three tests of the comparison give the
    answers [r], [p] and [s]; the comparison ties exactly such documents. *)
Definition hasFlags (r p s : bool) (d : Doc) : bool :=
  let file := sourceOrEmpty d in
  Bool.eqb (isReadme file) r && Bool.eqb (isPackageJson file) p
  && Bool.eqb (isUnderSrc file) s.

Definition prioritize (docs : list Doc) : list Doc :=
  JsArray.sort priorityAfter docs.

(** The place of a document in the order of the comparison: the three
    tests read as the digits of a number, the first test weighing most and
    a passed test counting as 0. *)
Definition priorityRank (d : Doc) : nat :=
  let file := sourceOrEmpty d in
  (if isReadme file then 0 else 4) + (if isPackageJson file then 0 else 2)
  + (if isUnderSrc file then 0 else 1).

(** The answers to the three tests, from the documents placed first to
    those placed last. *)
Definition flagOrder : list (bool * bool * bool) :=
  [ (true, true, true); (true, true, false); (true, false, true);
    (true, false, false); (false, true, true); (false, true, false);
    (false, false, true); (false, false, false) ].

(** The documents taken test by test: for each triple of answers in turn,
    the documents that give these answers, in the order of [docs]. *)
Definition byPriority (docs : list Doc) : list Doc :=
  flat_map (fun f => filter (hasFlags (fst (fst f)) (snd (fst f)) (snd f)) docs)
           flagOrder.

(** A file of a [src] directory at the root of the repository: its path
    starts with "src/". *)
Definition inRootSrc (d : Doc) : bool :=
  String.prefix "src/" (sourceOrEmpty d).

(** The loop that loads the repository until it yields documents:
    [while (retries < MAX_RETRIES && docs.length === 0)]. *)
Fixpoint loadDocsFrom (fuel retries : nat) (docs : list Doc)
         (url : string) (token : option string) : M (list Doc) :=
  match fuel with
  | O => ret docs
  | S fuel' =>
      if (retries <? MAX_RETRIES)%nat && (List.length docs =? 0)%nat then
        st <- tryCatch
                (loaded <- GithubLoader.loadGitHubRepository url token
                                                              (Some true) ;;
                 if (List.length loaded =? 0)%nat then
                   sleep (3000 * Z.of_nat (S retries)) ;;
                   ret (loaded, S retries)
                 else ret (loaded, retries))
                (fun _ =>
                   sleep (3000 * Z.of_nat (S retries)) ;;
                   ret (docs, S retries)) ;;
        loadDocsFrom fuel' (snd st) (fst st) url token
      else ret docs
  end.

Definition random : M R :=
  fun env w => (Ok (mathRandom env (count isRandom w)), record EvRandom w).

(** [Array(768).fill(0).map(() => Math.random())]. *)
Fixpoint randomVector (n : nat) : M Vector :=
  match n with
  | O => ret []
  | S n' => x <- random ;; xs <- randomVector n' ;; ret (x :: xs)
  end.

Definition unknownFile (i : nat) : string :=
  "unknown-file-" ++ NilEmpty.string_of_uint (Nat.to_uint i).

(** [doc.metadata?.source || `unknown-file-${i}`]. *)
Definition documentName (i : nat) (doc : Doc) : string :=
  orElse (sourceOrEmpty doc) (unknownFile i).

(** The end of the loop body: the row is created, and its vector written
    when it has 768 components. *)
Definition storeProcessed (projectId name summ code : string) (v : Vector)
  : M unit :=
  tryCatch (inserted <- Db.createFile name summ code projectId ;;
            if (List.length v =? 768)%nat
            then Db.setEmbedding v (file_id inserted)
            else ret tt)
           (fun _ => ret tt).

(** The body of the loop over [filesToProcess] for the document at [i]. *)
Definition processDocument (projectId : string) (total i : nat) (doc : Doc)
  : M unit :=
  let name := documentName i doc in
  let code := pageContent doc in
  EmbeddingPipeline.announce (i + 1) total name ;;
  summ <- tryCatch (EmbeddingPipeline.summarizeCode code)
                   (fun _ => ret ("Summary unavailable for " ++ name)%string) ;;
  v <- tryCatch (EmbeddingPipeline.generateEmbedding summ)
                (fun _ => randomVector 768) ;;
  storeProcessed projectId name summ code v.

(** [input.githubtoken || undefined]. *)
Definition tokenOrUndefined (githubtoken : option string) : option string :=
  match githubtoken with
  | Some t => if truthy t then Some t else None
  | None => None
  end.

(** The asynchronous block of [createProject], started once the project
    row exists. *)
Definition embeddingProcess (projectId githuburl : string)
           (githubtoken : option string) : M unit :=
  tryCatch
    (docs <- loadDocsFrom MAX_RETRIES 0 [] githuburl
                          (tokenOrUndefined githubtoken) ;;
     if (List.length docs =? 0)%nat then ret tt
     else
       let filesToProcess := prioritize docs in
       forEachFrom 0 filesToProcess
                   (processDocument projectId (List.length filesToProcess)) ;;
       tryCatch (Github.pullCommit projectId ;; ret tt) (fun _ => ret tt))
    (fun _ => ret tt).

End ProjectRouter.

(* ================================================================== *)
(** ** The question-answering route: [POST /api/qa] *)
(* ================================================================== *)

Module QaRoute.

Import JsString.

(** *** Keyword mode *)

(** [lowerQuestion.split(/\s+/).filter(w => w.length > 3)]. *)
Definition questionWords (lowerQuestion : string) : list string :=
  filter (fun w => (3 <? String.length w)%nat) (splitSpaces lowerQuestion).

Definition bump (hit : bool) (weight score : Q) : Q :=
  if hit then (score + weight)%Q else score.

(** The relevance score of one file. *)
Definition keywordScoreWith (words : list string) (lowerQuestion : string)
           (file : FileRecord) : Q :=
  let lowerFileName := toLowerCase (fileName file) in
  let lowerSummary := toLowerCase (summary file) in
  let lowerSourceCode :=
    toLowerCase (match sourceCode file with
                 | Some c => c | None => EmptyString end) in
  let score := 0%Q in
  let score := bump (includes lowerFileName lowerQuestion) 5 score in
  let score := bump (includes lowerSummary lowerQuestion) 3 score in
  let score := bump (includes lowerSourceCode lowerQuestion) 2 score in
  fold_left
    (fun score word =>
       let score := bump (includes lowerFileName word) 2 score in
       let score := bump (includes lowerSummary word) 1 score in
       bump (includes lowerSourceCode word) (1 # 2) score)
    words score.

Definition keywordScore (question : string) (file : FileRecord) : Q :=
  let lowerQuestion := toLowerCase question in
  keywordScoreWith (questionWords lowerQuestion) lowerQuestion file.

(** [(a, b) => b.score - a.score] is positive. *)
Definition scoreAfter (a b : FileRecord * Q) : bool :=
  negb (Qle_bool (snd b - snd a) 0).

Definition keywordTopFiles (question : string) (files : list FileRecord)
  : list FileRecord :=
  map fst (firstn 5 (JsArray.sort scoreAfter
                       (map (fun f => (f, keywordScore question f)) files))).

(** *** Semantic mode *)

(** The numbers are the ideal ones here; the same block over binary64
    numbers is [SemanticMode] below, where the ranking is studied. *)

(** A number is truthy when it is not zero. *)
Definition truthyR (x : R) : bool := if Req_dec_T x 0 then false else true.

(** [xs.reduce((sum, v, i) => f(sum, v, i), init)]. *)
Fixpoint reduceFrom (f : R -> R -> nat -> R) (i : nat) (xs : list R)
         (acc : R) : R :=
  match xs with
  | [] => acc
  | v :: xs' => reduceFrom f (S i) xs' (f acc v i)
  end.

Definition dotProduct (a b : Vector) : R :=
  reduceFrom (fun sum v i => (sum + v * nth i b 0)%R) 0 a 0%R.

(** [Math.sqrt(v.reduce((sum, x) => sum + x * x, 0)) || 0]. *)
Definition norm (v : Vector) : R :=
  let n := sqrt (reduceFrom (fun sum x _ => (sum + x * x)%R) 0 v 0%R) in
  if truthyR n then n else 0%R.

Definition similarity (questionEmbedding : Vector) (file : FileRecord) : R :=
  match embedding file with
  | None => (-1)%R
  | Some fileEmbedding =>
      if negb (List.length fileEmbedding =? List.length questionEmbedding)%nat
      then (-1)%R
      else
        let dot := dotProduct fileEmbedding questionEmbedding in
        let normA := norm fileEmbedding in
        let normB := norm questionEmbedding in
        if truthyR normA && truthyR normB
        then (dot / (normA * normB))%R
        else (-1)%R
  end.

(** A file whose stored vector can be compared with the question's. *)
Definition hasValidVector (questionEmbedding : Vector) (file : FileRecord)
  : bool :=
  match embedding file with
  | None => false
  | Some e => (List.length e =? List.length questionEmbedding)%nat
  end.

(** [(a, b) => b.similarity - a.similarity] is positive. *)
Definition similarityAfter (a b : FileRecord * R) : bool :=
  if Rlt_dec 0 (snd b - snd a) then true else false.

Definition semanticRanking (questionEmbedding : Vector)
           (files : list FileRecord) : list (FileRecord * R) :=
  JsArray.sort similarityAfter
               (map (fun f => (f, similarity questionEmbedding f)) files).

Definition semanticTopFiles (questionEmbedding : Vector)
           (files : list FileRecord) : list FileRecord :=
  map fst (firstn 5 (semanticRanking questionEmbedding files)).

(** *** The handler *)

(** The rows fetched for the question: ten in keyword mode, all of them in
    semantic mode. *)
Definition fetchFiles (projectId : string) (semanticMode : bool)
  : M (list FileRecord) :=
  Db.findFiles projectId (if semanticMode then None else Some 10%nat).

Definition selectTopFiles (question : string) (semanticMode : bool)
           (files : list FileRecord) : M (list FileRecord) :=
  if semanticMode then
    tryCatch (questionEmbedding <- EmbeddingPipeline.generateEmbedding question ;;
              ret (semanticTopFiles questionEmbedding files))
             (fun _ => ret (firstn 5 files))
  else ret (keywordTopFiles question files).

Record Reference : Type := mkReference {
  ref_fileName : string;
  ref_summary : string;
  ref_sourceCode : string
}.

Inductive Response : Type :=
| BadRequest (error : string)
| Answered (answer : string) (referencedFiles : list Reference)
| ServerError (error msg answer : string).

Definition sourceOrEmpty (f : FileRecord) : string :=
  match sourceCode f with Some c => c | None => EmptyString end.

Definition contextOf (topFiles : list FileRecord) : string :=
  fold_left
    (fun context file =>
       (context ++ "File: " ++ fileName file ++ LF
                ++ "Summary: " ++ summary file ++ LF
                ++ "Source Code:" ++ LF ++ sourceOrEmpty file ++ LF
                ++ "---" ++ LF)%string)
    topFiles EmptyString.

Definition promptOf (context question : string) : string :=
  ("You are an AI code assistant. Use the following context from the user's codebase to answer the question."
    ++ LF ++ LF ++ "Context:" ++ LF ++ context ++ LF ++ LF
    ++ "Question: " ++ question ++ LF ++ LF
    ++ "Answer the question with detailed explanations. Format your response using markdown:" ++ LF
    ++ "- Use proper headings (##) for sections" ++ LF
    ++ "- Format code snippets with triple backticks and the appropriate language" ++ LF
    ++ "- Use **bold** for important terms" ++ LF
    ++ "- Use inline code formatting with backticks for variable names, function names, and short code references" ++ LF
    ++ "- If referencing specific lines or sections of code, clearly indicate the file and line numbers" ++ LF
    ++ "- Highlight the most relevant parts of the code that answer the question" ++ LF
    ++ LF ++ "Answer:")%string.

Definition apology : string :=
  "Sorry, there was an error generating the answer. Please try again later.".

Definition reference (f : FileRecord) : Reference :=
  mkReference (fileName f) (summary f) (sourceOrEmpty f).

Definition POST (question projectId : string) (semanticMode : bool)
  : M Response :=
  tryCatch
    (if negb (truthy question) || negb (truthy projectId) then
       ret (BadRequest "Missing required fields: question and projectId")
     else
       files <- fetchFiles projectId semanticMode ;;
       if (List.length files =? 0)%nat then
         ret (Answered
                "Sorry, no files were found for this project. Please add some files first."
                [])
       else
         topFiles <- selectTopFiles question semanticMode files ;;
         let context :=
           orElse (contextOf topFiles)
                  "No specific code context available for this project." in
         answer <- tryCatch (Gemini.callGenerateContent
                               (promptOf context question))
                            (fun _ => ret apology) ;;
         ret (Answered answer (map reference topFiles)))
    (fun msg => ret (ServerError "Error generating answer" msg apology)).

End QaRoute.

(* ================================================================== *)
(** ** The keyword route: the keywords of [POST /api/simple-qa] *)
(* ================================================================== *)

Module SimpleQa.

Import JsString.

Definition stopwords : list string :=
  [ "what"; "where"; "when"; "which"; "about"; "does"; "this"; "that";
    "have"; "from"; "with"; "file"; "code"; "function"; "page"; "button";
    "component" ].

(** [questionLower.split(/\s+/).filter(word =>
       word.length > 3 && !stopwords.includes(word))]. *)
Definition questionKeywords (question : string) : list string :=
  filter (fun word => (3 <? String.length word)%nat
                      && negb (existsb (String.eqb word) stopwords))
         (splitSpaces (toLowerCase question)).

End SimpleQa.

(* ================================================================== *)
(** ** The keyword selection, read two ways *)
(* ================================================================== *)

Module KeywordSpec.

Import JsString.

Definition weight (hit : bool) (w : Q) : Q := if hit then w else 0%Q.

Definition lowerSource (f : FileRecord) : string :=
  toLowerCase (match sourceCode f with Some c => c | None => EmptyString end).

(** What the presence of the whole question contributes: 5, 3 and 2. *)
Definition phraseScore (lowerQuestion : string) (f : FileRecord) : Q :=
  (weight (includes (toLowerCase (fileName f)) lowerQuestion) 5
   + weight (includes (toLowerCase (summary f)) lowerQuestion) 3
   + weight (includes (lowerSource f) lowerQuestion) 2)%Q.

(** What the presence of one word contributes: 2, 1 and one half. *)
Definition wordScore (f : FileRecord) (word : string) : Q :=
  (weight (includes (toLowerCase (fileName f)) word) 2
   + weight (includes (toLowerCase (summary f)) word) 1
   + weight (includes (lowerSource f) word) (1 # 2))%Q.

Definition sumQ (l : list Q) : Q := fold_right Qplus 0%Q l.

(** The keyword mode as the specification words it, for comparison with
    the code: the words of the question are taken "excluding a stopword
    list"; the list is the one the keyword route applies. *)
Definition specKeywordScore (question : string) (file : FileRecord) : Q :=
  QaRoute.keywordScoreWith (SimpleQa.questionKeywords question)
                           (toLowerCase question) file.

Definition specKeywordTopFiles (question : string) (files : list FileRecord)
  : list FileRecord :=
  map fst (firstn 5 (JsArray.sort QaRoute.scoreAfter
                       (map (fun f => (f, specKeywordScore question f))
                            files))).

(** Two stored files: notes fetched first, then a file named after a
    stopword. *)
Definition notesFile : FileRecord :=
  mkFileRecord 0 "notes.md" "Meeting notes." (Some "nothing here") "p1" None.

Definition whatFile : FileRecord :=
  mkFileRecord 1 "what.ts" "Helpers." (Some "export {}") "p1" None.

End KeywordSpec.

(* ================================================================== *)
(** ** A sample vector and file for the semantic mode *)
(* ================================================================== *)

Module SemanticSamples.

(** A question vector of 768 components and a file without a vector. *)
Definition questionVector : Vector := 1%R :: repeat 0%R 767.

Definition noVectorFile : FileRecord :=
  mkFileRecord 0 "a.ts" "A." (Some "a") "p1" None.

End SemanticSamples.

(* ================================================================== *)
(** ** Binary64 numbers *)
(* ================================================================== *)

Module Binary64.

(** A number that is not zero and has the sign [s], as the specification
    of binary64 arithmetic represents it: a finite number or an infinity
    whose sign bit is [s]. *)
Definition signed (s : bool) (x : spec_float) : Prop :=
  match x with
  | S754_finite s' _ _ | S754_infinity s' => s' = s
  | _ => False
  end.

End Binary64.

(* ================================================================== *)
(** ** The semantic mode in binary64 *)
(* ================================================================== *)

(** The block of [POST /api/qa] that scores the fetched files against the
    vector of the question, sorts them and keeps five, with the numbers of
    the engine: Rocq's primitive floats are the binary64 numbers, rounded
    to nearest with ties to even, with their zeros, infinities and NaN. *)

Module SemanticMode.

(** A row of [SourceCodeEmbedding] as the route reads it; its vector is an
    array of numbers, or is missing. *)
Record File : Type := mkFile {
  file_id : nat;
  fileName : string;
  summary : string;
  sourceCode : option string;
  embedding : option (list float)
}.

(** A number is truthy unless it is 0, -0 or NaN. *)
Definition truthy (x : float) : bool :=
  negb (PrimFloat.is_zero x || PrimFloat.is_nan x).

(** [xs.reduce((sum, v, i) => f(sum, v, i), init)]. *)
Fixpoint reduceFrom (f : float -> float -> nat -> float) (i : nat)
         (xs : list float) (acc : float) : float :=
  match xs with
  | [] => acc
  | v :: xs' => reduceFrom f (S i) xs' (f acc v i)
  end.

(** [embedding.reduce((sum, v, i) => sum + v * qEmbedding[i], 0)]; reading
    past the end of an array gives [undefined], which a product turns
    into NaN. *)
Definition dotProduct (a b : list float) : float :=
  reduceFrom (fun sum v i => (sum + v * nth i b PrimFloat.nan)%float)
             0 a 0%float.

(** [Math.sqrt(v.reduce((sum, x) => sum + x * x, 0)) || 0]. *)
Definition norm (v : list float) : float :=
  let n := PrimFloat.sqrt
             (reduceFrom (fun sum x _ => (sum + x * x)%float) 0 v 0%float) in
  if truthy n then n else 0%float.

Definition similarity (questionEmbedding : list float) (file : File) : float :=
  match embedding file with
  | None => (-1)%float
  | Some fileEmbedding =>
      if negb (List.length fileEmbedding =? List.length questionEmbedding)%nat
      then (-1)%float
      else
        let dot := dotProduct fileEmbedding questionEmbedding in
        let normA := norm fileEmbedding in
        let normB := norm questionEmbedding in
        if truthy normA && truthy normB
        then (dot / (normA * normB))%float
        else (-1)%float
  end.

(** A file whose stored vector can be compared with the question's. *)
Definition hasValidVector (questionEmbedding : list float) (file : File)
  : bool :=
  match embedding file with
  | None => false
  | Some e => (List.length e =? List.length questionEmbedding)%nat
  end.

(** [(a, b) => b.similarity - a.similarity] is positive: [a] has to go
    after [b].  A difference that is NaN is not positive. *)
Definition similarityAfter (a b : File * float) : bool :=
  (0 <? snd b - snd a)%float.

(** [scoredFiles.sort(...)]. *)
Definition semanticRanking (questionEmbedding : list float)
           (files : list File) : list (File * float) :=
  JsArray.sort similarityAfter
               (map (fun f => (f, similarity questionEmbedding f)) files).

(** [.slice(0, 5).map(item => item.file)]. *)
Definition semanticTopFiles (questionEmbedding : list float)
           (files : list File) : list File :=
  map fst (firstn 5 (semanticRanking questionEmbedding files)).

(** The scored files whose similarity equals the number [s]. *)
Definition hasSimilarity (s : float) (x : File * float) : bool :=
  (snd x =? s)%float.

(** Every file is given a finite similarity: none is NaN or infinite.  The
    comparison function is then a consistent one, and the order of the
    sorted array is the one the language defines. *)
Definition finiteSimilarities (questionEmbedding : list float)
           (files : list File) : Prop :=
  forall f, In f files ->
            PrimFloat.is_finite (similarity questionEmbedding f) = true.

(** A question vector of 768 components, a file without a vector, a file
    whose vector is zero everywhere, and a file whose vector is the vector
    of the question. *)
Definition questionVector : list float := 1%float :: repeat 0%float 767.

Definition noVectorFile : File := mkFile 0 "a.ts" "A." (Some "a") None.

Definition zeroVectorFile : File :=
  mkFile 1 "b.ts" "B." (Some "b") (Some (repeat 0%float 768)).

Definition sameVectorFile : File :=
  mkFile 2 "c.ts" "C." (Some "c") (Some questionVector).

End SemanticMode.

(* ================================================================== *)
(** ** A project of eleven stored files *)
(* ================================================================== *)

Module ElevenFiles.

Definition plain (id : nat) : FileRecord :=
  mkFileRecord id "util.ts" "Helpers." (Some "export {}") "p1" None.

(** Ten files that do not mention billing, then the billing module. *)
Definition billingFile : FileRecord :=
  mkFileRecord 10 "billing.ts" "The billing module."
               (Some "export function billing() {}") "p1" None.

Definition world : World :=
  mkWorld [] (map plain (seq 0 10) ++ [billingFile]) [] [] 11.

End ElevenFiles.

(* ================================================================== *)
(** ** Reading a run *)
(* ================================================================== *)

(** The world after the events [t] have been added to the trace. *)
Definition extend (t : list Event) (w : World) : World :=
  mkWorld (trace w ++ t) (files w) (commits w) (projects w) (nextId w).

(** The names [body] is applied to, with their positions, from position [i]
    on. *)
Fixpoint namesFrom {A} (name : nat -> A -> string) (i : nat) (xs : list A)
  : list string :=
  match xs with
  | [] => []
  | x :: xs' => name i x :: namesFrom name (S i) xs'
  end.

(** A computation that announces no file: it leaves the list of processed
    files as it found it. *)
Definition quiet {A} (m : M A) : Prop :=
  forall env w, processedOf (trace (snd (m env w))) = processedOf (trace w).

(** A computation that neither throws nor announces a file. *)
Definition calm {A} (m : M A) : Prop := neverThrows m /\ quiet m.

(** A computation that changes nothing of the world but the trace, to which
    it adds events among the [allowed] ones. *)
Definition emits {A} (allowed : Event -> Prop) (m : M A) : Prop :=
  forall env w, exists r t, m env w = (r, extend t w) /\ Forall allowed t.

(** The events of the summarization of the commit [h] of the repository at
    [url]: delays, calls of the model, and requests for the diff of [h]. *)
Definition summarizes (url h : string) (e : Event) : Prop :=
  match e with
  | EvHttpGet u => u = Github.diffUrl url h
  | EvSleep _ | EvGenerate _ => True
  | _ => False
  end.

(** The delays between the attempts of a call that is retried. *)
Definition retryDelays : list Z := [2000; 4000]%Z.

(** The delays as the specification lists them, for comparison with the
    code: "exponential backoff (2s, 4s, 8s)". *)
Definition specRetryDelays : list Z := [2000; 4000; 8000]%Z.

(** A service that rejects every call, one that answers every call, and a
    world with an empty database and an empty trace. *)
Definition failingEnv : Env :=
  mkEnv (fun _ _ => Thrown "503 Service Unavailable")
        (fun _ _ => EmbedRejected "503 Service Unavailable")
        (fun _ _ => Thrown "404 Not Found")
        (fun _ _ => AxiosNoResponse "ECONNRESET")
        (fun _ _ _ => Thrown "503 Service Unavailable")
        (fun _ => 0%R)
        (fun _ => false)
        (fun _ => None).

Definition emptyWorld : World := mkWorld [] [] [] [] 0.


(** A repository of one source file, read at the first attempt, with a
    summarizer that answers and an embedding service that answers with three
    numbers. *)
Definition oneFileShortVectorEnv : Env :=
  mkEnv (fun _ _ => Ok "Exports a constant.")
        (fun _ _ => EmbedValues [1; 2; 3]%R)
        (fun _ _ => Ok [mkDoc "export const x = 1;" (Some "src/index.ts")])
        (fun _ _ => AxiosNoResponse "ECONNRESET")
        (fun _ _ _ => Thrown "503 Service Unavailable")
        (fun _ => 0%R)
        (fun _ => false)
        (fun _ => None).

(** The repository of three files of the end-to-end scenario, and a loader
    that returns them source file first. *)
Definition exampleRepo : list Doc :=
  [ mkDoc "# App" (Some "README.md");
    mkDoc "{ }" (Some "package.json");
    mkDoc "export const x = 1;" (Some "src/index.ts") ].

Definition exampleRepoEnv : Env :=
  mkEnv (fun _ _ => Ok "A summary.")
        (fun _ _ => EmbedRejected "429 Too Many Requests")
        (fun _ _ => Ok (rev exampleRepo))
        (fun _ _ => AxiosNoResponse "ECONNRESET")
        (fun _ _ _ => Thrown "503 Service Unavailable")
        (fun _ => 0%R)
        (fun _ => false)
        (fun _ => None).

(** A project whose repository has two commits, with a hosting service and
    a model that answer; the summary the model gives depends on the number
    of the call. *)
Definition twoCommits : list GhCommit :=
  [ mkGhCommit "b2c3" "Add billing" "Ada" 1700000200 None;
    mkGhCommit "a1b2" "Initial commit" "Ada" 1700000100
               (Some "https://avatars.example/ada.png") ].

Definition commitsEnv : Env :=
  mkEnv (fun n _ => Ok (if (n =? 0)%nat then "First summary."
                        else if (n =? 1)%nat then "Second summary."
                        else "Another summary."))
        (fun _ _ => EmbedRejected "429 Too Many Requests")
        (fun _ _ => Thrown "404 Not Found")
        (fun _ _ => AxiosData "diff --git a/x b/x")
        (fun _ _ _ => Ok twoCommits)
        (fun _ => 0%R)
        (fun _ => false)
        (fun url => if String.eqb url "https://github.com/acme/app"
                    then Some ("github.com", "/acme/app") else None).

Definition commitsWorld : World :=
  mkWorld [] [] [] [mkProject "p1" (Some "https://github.com/acme/app")] 0.

(** The same project, when another project, a fork of the repository,
    already stores the older commit. *)
Definition forkedWorld : World :=
  mkWorld [] []
          [mkCommitRecord 0 "p0" "a1b2" "Initial commit" "Ada" "" 1700000100
                          "The summary of the fork."]
          [mkProject "p0" (Some "https://github.com/fork/app");
           mkProject "p1" (Some "https://github.com/acme/app")] 1.

Definition noEmbeddingEnv : Env :=
  mkEnv (fun _ _ => Ok "A summary.")
        (fun _ _ => EmbedNoEmbedding)
        (fun _ _ => Thrown "404 Not Found")
        (fun _ _ => AxiosNoResponse "ECONNRESET")
        (fun _ _ _ => Thrown "503 Service Unavailable")
        (fun n => INR n)
        (fun _ => false)
        (fun _ => None).

Definition busyWorld : World :=
  mkWorld [EvEmbed (mkEmbedRequest "user" ["earlier text"]); EvSleep 2000;
           EvRandom] [] [] [] 7.

(* ================================================================== *)
(** ** What a run changes *)
(* ================================================================== *)

(** [evolves R m]: every run of [m], whatever the services answer, takes
    the world to one that [R] relates to it. *)
Definition evolves {A} (R : World -> World -> Prop) (m : M A) : Prop :=
  forall env w, R w (snd (m env w)).

(** What identifies a row of [Commit]: its identifier, the project it
    belongs to and its hash. *)
Definition commitKey (r : CommitRecord) : nat * string * string :=
  (commit_id r, commit_projectId r, commitHash r).

(** No row of [Commit] was removed or handed to another project; the rows
    added come after the rows that were there. *)
Definition commitsKept (w w' : World) : Prop :=
  exists added,
    map commitKey (commits w') = map commitKey (commits w) ++ added.

(** No two rows of [Commit] have the same hash. *)
Definition uniqueHashes (w : World) : Prop :=
  NoDup (map commitHash (commits w)).

(** The identifiers of the rows of [SourceCodeEmbedding] were given out
    before the next one. *)
Definition freshFileIds (w : World) : Prop :=
  forall r, In r (files w) -> (file_id r < nextId w)%nat.

(** The rows of [SourceCodeEmbedding] that were there are untouched, and
    the rows added after them belong to the project. *)
Definition filesAppended (projectId : string) (w w' : World) : Prop :=
  exists added,
    files w' = files w ++ added
    /\ Forall (fun r => file_projectId r = projectId) added.

(** A hosting service that answers every request for a diff with status
    429 and no [retry-after] header. *)
Definition rateLimitedEnv : Env :=
  mkEnv (fun _ _ => Ok "A summary.")
        (fun _ _ => EmbedRejected "429 Too Many Requests")
        (fun _ _ => Thrown "404 Not Found")
        (fun _ _ => AxiosStatus 429 None)
        (fun _ _ _ => Ok twoCommits)
        (fun _ => 0%R)
        (fun _ => false)
        (fun _ => None).

(** A loader that finds the repository and no document in it. *)
Definition emptyRepoEnv : Env :=
  mkEnv (fun _ _ => Ok "A summary.")
        (fun _ _ => EmbedRejected "429 Too Many Requests")
        (fun _ _ => Ok [])
        (fun _ _ => AxiosNoResponse "ECONNRESET")
        (fun _ _ _ => Thrown "503 Service Unavailable")
        (fun _ => 0%R)
        (fun _ => false)
        (fun _ => None).

(** The table of files is as it was. *)
Definition sameFiles (w w' : World) : Prop := files w' = files w.

(* ================================================================== *)
(** ** The cost of a repository: [checkCredits] *)
(* ================================================================== *)

Module RepoCredits.

Import JsString.

(** What [octokit.rest.repos.getContent] answers for a path: the request
    is rejected, or the data is one object with its [type], or the data is
    an array of entries.  An entry carries its [type] and the answer to the
    request for its own path, which is sent for the entries of type [dir]
    only. *)
Inductive Content : Type :=
| Rejected
| Single (type : string)
| Listing (items : list Item)
with Item : Type :=
| mkItem (type : string) (inside : Content).

Definition item_type (item : Item) : string :=
  match item with mkItem type _ => type end.

(** [getFileCount(path, octokit, githubOwner, githubRepo, accumulator)],
    over the answer to the request for [path]. *)
Fixpoint getFileCount (data : Content) (accumulator : nat) : nat :=
  match data with
  | Rejected => accumulator
  | Single type =>
      if String.eqb type "file" then (accumulator + 1)%nat else accumulator
  | Listing items =>
      let fileCount :=
        List.length
          (filter (fun item => String.eqb (item_type item) "file") items) in
      let directoryFileCounts :=
        (fix each (items : list Item) : list nat :=
           match items with
           | [] => []
           | mkItem type inside :: rest =>
               if String.eqb type "dir"
               then getFileCount inside 0%nat :: each rest
               else each rest
           end) items in
      (accumulator
       + (fileCount + fold_left (fun sum count => (sum + count)%nat)
                                directoryFileCounts 0%nat))%nat
  end.

(** [checkCredits(githubUrl, githubToken)]; [repository] is the hosting
    service as the token sees it: the answer for the root of the repository
    of an owner.  A segment that is missing is read as the empty string,
    which is as falsy as [undefined]. *)
Definition checkCredits
           (repository : option string -> string -> string -> Content)
           (githubUrl : string) (githubToken : option string) : nat :=
  let urlParts := splitOn "/" githubUrl in
  let githubOwner := nth 3 urlParts EmptyString in
  let githubRepo := nth 4 urlParts EmptyString in
  if negb (truthy githubOwner) || negb (truthy githubRepo) then 0%nat
  else
    let totalFiles :=
      getFileCount (repository githubToken githubOwner githubRepo) 0%nat in
    Nat.max 10 totalFiles.

(** The types of the entries that the count visits: the entries of the
    listing, and the entries of the listings of its directories. *)
Fixpoint entries (data : Content) : list string :=
  match data with
  | Rejected => []
  | Single type => [type]
  | Listing items =>
      (fix each (items : list Item) : list string :=
         match items with
         | [] => []
         | mkItem type inside :: rest =>
             (if String.eqb type "dir" then entries inside else [type])
             ++ each rest
         end) items
  end.

End RepoCredits.

(* ================================================================== *)
(** ** The credits of [createProject] *)
(* ================================================================== *)

Module ProjectCredits.

Record User : Type := mkUser {
  user_id : string;
  credits : Z
}.

(** A row of [StripeTransaction]. *)
Record StripeTransaction : Type := mkStripeTransaction {
  tx_userId : string;
  tx_credits : Z
}.

(** A row of [Project] with the user it is created for. *)
Record NewProject : Type := mkNewProject {
  np_name : string;
  np_githuburl : string;
  np_userId : string
}.

Record Accounts : Type := mkAccounts {
  users : list User;
  stripeTransactions : list StripeTransaction;
  createdProjects : list NewProject
}.

(** [user.findUnique({ where: { id } })]. *)
Definition findUser (userId : string) (a : Accounts) : option User :=
  find (fun u => String.eqb (user_id u) userId) (users a).

(** [user.update({ where: { id }, data: { credits: { decrement } } })]. *)
Definition decrementCredits (userId : string) (amount : Z) (us : list User)
  : list User :=
  map (fun u => if String.eqb (user_id u) userId
                then mkUser (user_id u) (credits u - amount)
                else u) us.

(** The part of [createProject] that precedes the ingestion: the cost of
    the repository is compared with the credits of the user, then the
    project is created, the credits are deducted and the transaction is
    recorded, by three writes in this order.  [refused k] says that the
    database refuses the write number [k]; the error then leaves the
    procedure, and the writes made before stay. *)
Definition createProject
           (repository : option string -> string -> string -> RepoCredits.Content)
           (refused : nat -> bool)
           (userId name githuburl : string) (githubtoken : option string)
           (a : Accounts) : Outcome NewProject * Accounts :=
  let fileCount :=
    Z.of_nat (RepoCredits.checkCredits repository githuburl githubtoken) in
  match findUser userId a with
  | None => (Thrown "User not found", a)
  | Some user =>
      if (credits user <? fileCount)%Z then (Thrown "Insufficient credits", a)
      else if refused 0%nat then (Thrown "database error", a)
      else
        let project := mkNewProject name githuburl userId in
        let a1 := mkAccounts (users a) (stripeTransactions a)
                             (createdProjects a ++ [project]) in
        if refused 1%nat then (Thrown "database error", a1)
        else
          let a2 := mkAccounts (decrementCredits userId fileCount (users a1))
                               (stripeTransactions a1) (createdProjects a1) in
          if refused 2%nat then (Thrown "database error", a2)
          else
            (Ok project,
             mkAccounts (users a2)
                        (stripeTransactions a2
                           ++ [mkStripeTransaction userId (- fileCount)])
                        (createdProjects a2))
  end.

(** The credits of a user, and the credits that the transactions of a
    user add up to. *)
Definition creditsOf (userId : string) (a : Accounts) : option Z :=
  option_map credits (findUser userId a).

Definition recorded (userId : string) (a : Accounts) : Z :=
  fold_right Z.add 0%Z
    (map tx_credits
         (filter (fun t => String.eqb (tx_userId t) userId)
                 (stripeTransactions a))).

End ProjectCredits.

(** A repository of two files at its root and one under [src], which is
    listed; a user with twenty credits. *)
Definition smallRepository : RepoCredits.Content :=
  RepoCredits.Listing
    [ RepoCredits.mkItem "file" RepoCredits.Rejected;
      RepoCredits.mkItem "file" RepoCredits.Rejected;
      RepoCredits.mkItem "dir"
        (RepoCredits.Listing
           [RepoCredits.mkItem "file" RepoCredits.Rejected]) ].

Definition twentyCredits : ProjectCredits.Accounts :=
  ProjectCredits.mkAccounts [ProjectCredits.mkUser "u1" 20] [] [].

(* ================================================================== *)
(** ** The keyword route: the files of [POST /api/simple-qa] *)
(* ================================================================== *)

Module SimpleQaRoute.

Import JsString.

(** A file object of the route: a row as [findMany] selects it, the two
    fields that the route adds to the copies it makes, and the identity of
    the object, which is what [Array.prototype.includes] compares. *)
Record FileObject : Type := mkFileObject {
  identity : nat;
  row : FileRecord;
  matchingLines : option (list nat);
  matchingLineContents : option (list string)
}.

(** The array that [findMany] returns: one new object for each row. *)
Definition allFilesOf (rows : list FileRecord) : list FileObject :=
  map (fun ir => mkFileObject (fst ir) (snd ir) None None)
      (combine (seq 0 (List.length rows)) rows).

(** [file.sourceCode || '']. *)
Definition sourceOrEmpty (file : FileObject) : string :=
  match sourceCode (row file) with Some c => c | None => EmptyString end.

Definition lowerName (file : FileObject) : string :=
  toLowerCase (fileName (row file)).

(** [array.includes(file)]. *)
Definition includesObject (array : list FileObject) (file : FileObject)
  : bool :=
  existsb (fun other => (identity other =? identity file)%nat) array.

(** The test of [matchingFiles]: a keyword occurs in the lowered name or
    in the lowered source. *)
Definition mentions (questionKeywords : list string) (file : FileObject)
  : bool :=
  let fileNameLower := lowerName file in
  let sourceCodeLower := toLowerCase (sourceOrEmpty file) in
  existsb (fun keyword => includes fileNameLower keyword
                          || includes sourceCodeLower keyword)
          questionKeywords.

Definition matchingFiles (questionKeywords : list string)
           (allFiles : list FileObject) : list FileObject :=
  filter (mentions questionKeywords) allFiles.

(** [line.trim()]. *)
Fixpoint dropSpaces (l : list ascii) : list ascii :=
  match l with
  | [] => []
  | c :: l' => if isSpace c then dropSpaces l' else l
  end.

Definition trim (s : string) : string :=
  string_of_list_ascii
    (rev (dropSpaces (rev (dropSpaces (list_ascii_of_string s))))).

(** The test made on a line: a keyword, lowered, occurs in the lowered
    line. *)
Definition lineMentions (questionKeywords : list string) (line : string)
  : bool :=
  let lineLower := toLowerCase line in
  existsb (fun keyword => includes lineLower (toLowerCase keyword))
          questionKeywords.

(** [sourceCodeLines.forEach((line, index) => ...)], from [index] on: the
    number and the trimmed content of each line that mentions a keyword. *)
Fixpoint matchesFrom (questionKeywords : list string) (index : nat)
         (sourceCodeLines : list string) : list (nat * string) :=
  match sourceCodeLines with
  | [] => []
  | line :: rest =>
      if lineMentions questionKeywords line
      then (index + 1, trim line)%nat
           :: matchesFrom questionKeywords (S index) rest
      else matchesFrom questionKeywords (S index) rest
  end.

(** The copy made of a matching file, a new object, with the two fields
    added. *)
Definition enhance (questionKeywords : list string) (fresh : nat)
           (file : FileObject) : FileObject :=
  let sourceCodeLines := splitOn (ascii_of_nat 10) (sourceOrEmpty file) in
  let found := matchesFrom questionKeywords 0 sourceCodeLines in
  mkFileObject fresh (row file) (Some (map fst found)) (Some (map snd found)).

Fixpoint enhanceFrom (questionKeywords : list string) (fresh : nat)
         (files : list FileObject) : list FileObject :=
  match files with
  | [] => []
  | file :: rest =>
      enhance questionKeywords fresh file
      :: enhanceFrom questionKeywords (S fresh) rest
  end.

Definition enhancedMatchingFiles (questionKeywords : list string)
           (allFiles : list FileObject) : list FileObject :=
  enhanceFrom questionKeywords (List.length allFiles)
              (matchingFiles questionKeywords allFiles).

Definition namedReadme (lowerFileName : string) : bool :=
  includes lowerFileName "readme".

Definition namedPackage (lowerFileName : string) : bool :=
  includes lowerFileName "package.json".

Definition namedSource (lowerFileName : string) : bool :=
  includes lowerFileName "/src/" || includes lowerFileName "/app/"
  || includes lowerFileName "/pages/" || includes lowerFileName "index."
  || includes lowerFileName "main." || includes lowerFileName "app.".

Definition namedConfig (lowerFileName : string) : bool :=
  includes lowerFileName ".config." || includes lowerFileName "tsconfig."
  || includes lowerFileName "webpack." || includes lowerFileName ".env"
  || includes lowerFileName "dockerfile".

Definition readmeFiles (allFiles : list FileObject) : list FileObject :=
  filter (fun file => namedReadme (lowerName file)) allFiles.

Definition packageFiles (allFiles : list FileObject) : list FileObject :=
  filter (fun file => namedPackage (lowerName file)) allFiles.

Definition sourceFiles (allFiles : list FileObject) : list FileObject :=
  filter (fun file =>
            namedSource (lowerName file)
            && negb (includesObject (readmeFiles allFiles) file)
            && negb (includesObject (packageFiles allFiles) file))
         allFiles.

Definition configFiles (allFiles : list FileObject) : list FileObject :=
  filter (fun file =>
            namedConfig (lowerName file)
            && negb (includesObject (readmeFiles allFiles) file)
            && negb (includesObject (packageFiles allFiles) file)
            && negb (includesObject (sourceFiles allFiles) file))
         allFiles.

(** The files of the context, in the order of the route, cut to 15. *)
Definition prioritizedFiles (questionKeywords : list string)
           (allFiles : list FileObject) : list FileObject :=
  let enhanced := enhancedMatchingFiles questionKeywords allFiles in
  let readmes := readmeFiles allFiles in
  let packages := packageFiles allFiles in
  let sources := sourceFiles allFiles in
  let configs := configFiles allFiles in
  firstn 15
    (filter (fun file => negb (includesObject readmes file)) enhanced
     ++ readmes
     ++ filter (fun file => includesObject readmes file) enhanced
     ++ filter (fun file => negb (includesObject enhanced file)) packages
     ++ filter (fun file => negb (includesObject enhanced file)) sources
     ++ filter (fun file => negb (includesObject enhanced file)) configs
     ++ filter (fun file =>
                  negb (includesObject readmes file)
                  && negb (includesObject packages file)
                  && negb (includesObject sources file)
                  && negb (includesObject configs file)
                  && negb (includesObject enhanced file))
               allFiles).

(** An entry of [referencedFiles] in the response. *)
Record Referenced : Type := mkReferenced {
  ref_id : nat;
  ref_fileName : string;
  ref_summary : string;
  ref_sourceCode : string;
  ref_matchingLines : list nat;
  ref_matchingLineContents : list string
}.

(** The filter of [referencedFiles]. *)
Definition relevant (questionKeywords : list string) (file : FileObject)
  : bool :=
  if namedReadme (lowerName file) || namedPackage (lowerName file) then true
  else
    let lowerFileName := lowerName file in
    let lowerSourceCode := toLowerCase (sourceOrEmpty file) in
    if existsb (fun keyword => includes lowerFileName keyword
                               || includes lowerSourceCode keyword)
               questionKeywords
    then true
    else if namedSource lowerFileName
            && existsb (fun keyword =>
                          includes lowerFileName (sliceTo 4 keyword)
                          || includes lowerSourceCode keyword)
                       questionKeywords
         then true
         else false.

Definition referenced (file : FileObject) : Referenced :=
  mkReferenced (file_id (row file)) (fileName (row file))
               (summary (row file)) (sourceOrEmpty file)
               (match matchingLines file with Some l => l | None => [] end)
               (match matchingLineContents file with
                | Some l => l | None => [] end).

Definition referencedFiles (questionKeywords : list string)
           (prioritized : list FileObject) : list Referenced :=
  map referenced (firstn 10 (filter (relevant questionKeywords) prioritized)).

(** The files of the context and of the response for a question, from the
    rows of the project. *)
Definition contextFiles (question : string) (rows : list FileRecord)
  : list FileObject :=
  prioritizedFiles (SimpleQa.questionKeywords question) (allFilesOf rows).

Definition responseFiles (question : string) (rows : list FileRecord)
  : list Referenced :=
  referencedFiles (SimpleQa.questionKeywords question)
                  (contextFiles question rows).

(** *** The answer *)

Local Open Scope string_scope.

Definition quote : string := String (ascii_of_nat 34) EmptyString.

(** A number in a template string. *)
Definition numberText (n : nat) : string :=
  NilEmpty.string_of_uint (Nat.to_uint n).

(** [array.join(separator)]. *)
Fixpoint join (separator : string) (l : list string) : string :=
  match l with
  | [] => EmptyString
  | [x] => x
  | x :: rest => x ++ separator ++ join separator rest
  end.

(** [file.matchingLines.slice(0, 5).forEach((lineNum, idx) => ...)], from
    [idx] on; [total] is [file.matchingLines.length]. *)
Fixpoint relevantLinesFrom (idx total : nat) (lines : list nat) : string :=
  match lines with
  | [] => EmptyString
  | lineNum :: rest =>
      "Line " ++ numberText lineNum
      ++ (if (idx <? Nat.min 4 (total - 1))%nat then ", " else EmptyString)
      ++ relevantLinesFrom (S idx) total rest
  end.

(** [topFiles.forEach((file, index) => ...)], from [index] on. *)
Fixpoint listedFrom (index : nat) (topFiles : list FileObject) : string :=
  match topFiles with
  | [] => EmptyString
  | file :: rest =>
      numberText (index + 1) ++ ". " ++ fileName (row file) ++ LF
      ++ match matchingLines file with
         | Some (lineNum :: others) =>
             "   Relevant lines: "
             ++ relevantLinesFrom 0 (List.length (lineNum :: others))
                                  (firstn 5 (lineNum :: others))
             ++ LF
         | _ => EmptyString
         end
      ++ listedFrom (S index) rest
  end.

(** [generateFallbackAnswer(question, files)].  It throws when the first
    file named like a README has no source code, on which [split] is
    called. *)
Definition generateFallbackAnswer (question : string)
           (files : list FileObject) : Outcome string :=
  let questionKeywords := SimpleQa.questionKeywords question in
  let answer := "FILE LOCATION:" ++ LF in
  let answer :=
    if (List.length files =? 0)%nat
    then answer ++ "No specific files found for this question." ++ LF ++ LF
    else answer ++ listedFrom 0 (firstn 3 files) ++ LF in
  let answer :=
    answer ++ "EXPLANATION:" ++ LF
           ++ "Based on the files in this repository, " in
  let described :=
    match find (fun file => includes (lowerName file) "readme") files with
    | Some readmeFile =>
        match sourceCode (row readmeFile) with
        | None => Thrown "Cannot read properties of null (reading 'split')"
        | Some source =>
            let readmeLines := splitOn (ascii_of_nat 10) source in
            let descriptionLines := join " " (firstn 10 readmeLines) in
            Ok (answer ++ "this project appears to be "
                       ++ sliceTo 200 descriptionLines ++ "..." ++ LF ++ LF)
        end
    | None =>
        Ok (answer ++ "this project contains "
                   ++ numberText (List.length files)
                   ++ " files. The most relevant files to your question about "
                   ++ quote ++ question ++ quote ++ " are listed above."
                   ++ LF ++ LF)
    end in
  match described with
  | Thrown msg => Thrown msg
  | Ok answer =>
      let answer :=
        if (0 <? List.length questionKeywords)%nat
        then answer ++ "I searched for these keywords: "
                    ++ join ", " questionKeywords ++ LF ++ LF
        else answer in
      Ok (answer
          ++ "NOTE: Due to API limitations, I'm providing a simplified answer. For more detailed information, please try again later or rephrase your question.")
  end.

Definition MAX_RETRIES : nat := 3.

(** [error?.status === 429]; [statusOf] gives the status that the error
    thrown with a message carries, if it carries one. *)
Definition isRateLimited (statusOf : string -> option Z) (msg : string)
  : bool :=
  match statusOf msg with
  | Some status => (status =? 429)%Z
  | None => false
  end.

(** [Math.pow(2, retries) * (isRateLimited ? 5000 : 1000)]. *)
Definition delay (retries : nat) (rateLimited : bool) : Z :=
  (2 ^ Z.of_nat retries * (if rateLimited then 5000 else 1000))%Z.

(** The [while (retries < MAX_RETRIES)] loop that generates the answer,
    entered with the current value of [retries] and the answer still
    empty; [fuel] bounds the iterations. *)
Fixpoint generateAnswerFrom (statusOf : string -> option Z)
         (fuel retries : nat) (prompt question : string)
         (prioritized : list FileObject) : M string :=
  match fuel with
  | O => ret EmptyString
  | S fuel' =>
      if (retries <? MAX_RETRIES)%nat then
        tryCatch (Gemini.callGenerateContent prompt)
          (fun msg =>
             let retries' := S retries in
             if (retries' <? MAX_RETRIES)%nat then
               sleep (delay retries' (isRateLimited statusOf msg)) ;;
               generateAnswerFrom statusOf fuel' retries' prompt question
                                  prioritized
             else
               match generateFallbackAnswer question prioritized with
               | Ok answer => ret answer
               | Thrown error => throw error
               end)
      else ret EmptyString
  end.

Definition generateAnswer (statusOf : string -> option Z)
           (prompt question : string) (prioritized : list FileObject)
  : M string :=
  generateAnswerFrom statusOf MAX_RETRIES 0 prompt question prioritized.

(** The rows that a predicate on the lowered name selects. *)
Definition rowsNamed (p : string -> bool) (rows : list FileRecord)
  : list FileRecord :=
  filter (fun r => p (toLowerCase (fileName r))) rows.

(** The rows that mention a keyword of the question. *)
Definition rowMentions (questionKeywords : list string) (r : FileRecord)
  : bool :=
  mentions questionKeywords (mkFileObject 0 r None None).

End SimpleQaRoute.

(* ================================================================== *)
(** * Properties *)
(* ================================================================== *)

(** ** 32-bit integers and sorting *)

Lemma wrap_range z : (- 2 ^ 31 <= Int32.wrap z < 2 ^ 31)%Z.
Proof.
  unfold Int32.wrap.
  pose proof (Z.mod_pos_bound (z + 2 ^ 31) (2 ^ 32)). lia.
Qed.


Section SortFacts.

Variable A : Type.
Variable after : A -> A -> bool.

Local Abbreviation insert := (JsArray.insert after).
Local Abbreviation sort := (JsArray.sort after).
Local Abbreviation notAfter := (JsArray.notAfter after).

Lemma insert_perm x l : Permutation (insert x l) (x :: l).
Proof.
  induction l as [|y l IH]; simpl; [reflexivity|].
  destruct (after x y); [|reflexivity].
  rewrite IH. apply perm_swap.
Qed.

Lemma sort_perm l : Permutation (sort l) l.
Proof.
  induction l as [|x l IH]; simpl; [constructor|].
  rewrite insert_perm. now constructor.
Qed.

Lemma sort_length l : List.length (sort l) = List.length l.
Proof. apply Permutation_length, sort_perm. Qed.

Lemma sort_In x l : In x (sort l) <-> In x l.
Proof.
  split; apply Permutation_in; [|symmetry]; apply sort_perm.
Qed.

(** Stability: the members of a class of mutually tied elements keep the
    order they had in the input. *)
Lemma insert_filter (p : A -> bool) x l :
  (forall y, p x = true -> p y = true -> after x y = false) ->
  filter p (insert x l) = filter p (x :: l).
Proof.
  intros tie. induction l as [|y l IH]; [reflexivity|].
  simpl insert. destruct (after x y) eqn:Hxy; [|reflexivity].
  simpl in *. rewrite IH.
  destruct (p x) eqn:Hpx; [|reflexivity].
  destruct (p y) eqn:Hpy; [|reflexivity].
  rewrite (tie y eq_refl Hpy) in Hxy. discriminate.
Qed.

Lemma sort_filter (p : A -> bool) l :
  (forall x y, p x = true -> p y = true -> after x y = false) ->
  filter p (sort l) = filter p l.
Proof.
  intros tie. induction l as [|x l IH]; [reflexivity|].
  simpl sort. rewrite insert_filter by (intros; now apply tie).
  simpl. now rewrite IH.
Qed.

Section Consistent.

(** What the language asks of a comparison function, as far as the
    proofs below use it. *)
Hypothesis after_asym : forall a b, after a b = true -> after b a = false.
Hypothesis notAfter_trans :
  forall a b c, notAfter a b -> notAfter b c -> notAfter a c.

Lemma insert_sorted x l :
  Sorted notAfter l -> Sorted notAfter (insert x l).
Proof.
  induction l as [|y l IH]; intros Hs; simpl.
  - repeat constructor.
  - destruct (after x y) eqn:Hxy.
    + inversion Hs as [|? ? Hl Hy]; subst.
      constructor; [now apply IH|].
      destruct l as [|z l]; simpl.
      * constructor. now apply after_asym.
      * destruct (after x z); constructor.
        -- inversion Hy; subst. assumption.
        -- now apply after_asym.
    + constructor; [assumption|]. now constructor.
Qed.

Lemma sort_sorted l : Sorted notAfter (sort l).
Proof.
  induction l as [|x l IH]; simpl; [constructor|].
  now apply insert_sorted.
Qed.

Lemma sort_strongly_sorted l : StronglySorted notAfter (sort l).
Proof.
  apply Sorted_StronglySorted; [|apply sort_sorted].
  intros a b c. apply notAfter_trans.
Qed.

Lemma after_irrefl a : after a a = false.
Proof.
  destruct (after a a) eqn:E; [|reflexivity].
  now rewrite (after_asym E) in E.
Qed.

Lemma tied_refl a : JsArray.tied after a a = true.
Proof. unfold JsArray.tied. now rewrite after_irrefl. Qed.

Lemma sorted_head_first a l b :
  StronglySorted notAfter (a :: l) -> In b (a :: l) -> notAfter a b.
Proof.
  intros Hs [<-|Hb].
  - apply after_irrefl.
  - apply StronglySorted_inv in Hs. destruct Hs as [_ Hall].
    rewrite Forall_forall in Hall. now apply Hall.
Qed.

(** Two sorted arrangements in which every class of tied elements appears
    in the same order are the same list. *)
Lemma sorted_stable_unique l1 :
  forall l2,
    StronglySorted notAfter l1 -> StronglySorted notAfter l2 ->
    (forall x, filter (JsArray.tied after x) l1
               = filter (JsArray.tied after x) l2) ->
    l1 = l2.
Proof.
  induction l1 as [|a l1 IH]; intros l2 H1 H2 Hclass.
  - destruct l2 as [|b l2]; [reflexivity|].
    specialize (Hclass b). simpl in Hclass.
    rewrite tied_refl in Hclass. discriminate.
  - destruct l2 as [|b l2].
    { specialize (Hclass a). simpl in Hclass.
      rewrite tied_refl in Hclass. discriminate. }
    assert (Ha : In a (b :: l2)).
    { assert (Hin : In a (filter (JsArray.tied after a) (b :: l2))).
      { rewrite <- Hclass. simpl. rewrite tied_refl. now left. }
      apply filter_In in Hin. tauto. }
    assert (Hb : In b (a :: l1)).
    { assert (Hin : In b (filter (JsArray.tied after b) (a :: l1))).
      { rewrite Hclass. simpl. rewrite tied_refl. now left. }
      apply filter_In in Hin. tauto. }
    pose proof (sorted_head_first H2 Ha) as Hba.
    pose proof (sorted_head_first H1 Hb) as Hab.
    assert (Htie : JsArray.tied after a b = true).
    { unfold JsArray.tied. unfold JsArray.notAfter in Hab, Hba.
      now rewrite Hab, Hba. }
    pose proof (Hclass a) as Hca. simpl in Hca.
    rewrite tied_refl, Htie in Hca. injection Hca as <- _.
    f_equal. apply IH.
    + now apply StronglySorted_inv in H1.
    + now apply StronglySorted_inv in H2.
    + intros x. specialize (Hclass x). simpl in Hclass.
      destruct (JsArray.tied after x a); [now injection Hclass|assumption].
Qed.

(** The arrangement a stable sort has to produce is the one [sort] gives:
    a sorted list that keeps every class of tied elements in the order of
    the input is [sort] of the input. *)
Lemma stable_sort_unique l l' :
  StronglySorted notAfter l' ->
  (forall x, filter (JsArray.tied after x) l'
             = filter (JsArray.tied after x) l) ->
  l' = sort l.
Proof.
  intros Hs Hst. apply sorted_stable_unique.
  - assumption.
  - apply sort_strongly_sorted.
  - intros x. rewrite Hst. symmetry. apply sort_filter.
    intros a b Ha Hb. unfold JsArray.tied in Ha, Hb.
    apply andb_true_iff in Ha, Hb.
    destruct Ha as [Hxa Hax], Hb as [Hxb Hbx].
    apply negb_true_iff in Hxa, Hax, Hxb, Hbx.
    exact (notAfter_trans Hax Hxb).
Qed.

End Consistent.

(** Sorting by a rank: when the comparison places [a] after [b] exactly
    when the rank of [a] is the greater, the stable sort lists the elements
    rank by rank, each rank in the order of the input. *)
Section Ranked.

Variable rank : A -> nat.
Hypothesis after_rank : forall a b, after a b = (rank b <? rank a)%nat.

Local Abbreviation ofRank l := (fun j => filter (fun y => (rank y =? j)%nat) l).

Lemma insert_front x l :
  Forall (fun y => after x y = false) l -> insert x l = x :: l.
Proof.
  intros H. destruct l as [|y l]; [reflexivity|].
  simpl. inversion H as [|? ? Hy _]; subst. now rewrite Hy.
Qed.

Lemma insert_pass x l1 l2 :
  Forall (fun y => after x y = true) l1 ->
  insert x (l1 ++ l2) = l1 ++ insert x l2.
Proof.
  induction 1 as [|y l1 Hy _ IH]; [reflexivity|].
  simpl. now rewrite Hy, IH.
Qed.

Lemma ranks_above x l n s :
  (rank x < s)%nat ->
  flat_map (ofRank (x :: l)) (seq s n) = flat_map (ofRank l) (seq s n)
  /\ Forall (fun y => after x y = false) (flat_map (ofRank l) (seq s n)).
Proof.
  revert s. induction n as [|n IH]; intros s Hs; [now split|].
  cbn [seq flat_map].
  destruct (IH (S s) ltac:(lia)) as [E F].
  rewrite E. cbn [filter].
  replace (rank x =? s)%nat with false by (symmetry; apply Nat.eqb_neq; lia).
  split; [reflexivity|].
  apply Forall_app. split; [|exact F].
  apply Forall_forall. intros y Hy. apply filter_In in Hy.
  destruct Hy as [_ Hy]. apply Nat.eqb_eq in Hy.
  rewrite after_rank. apply Nat.ltb_ge. lia.
Qed.

Lemma insert_ranked x l n s :
  (s <= rank x < s + n)%nat ->
  insert x (flat_map (ofRank l) (seq s n))
  = flat_map (ofRank (x :: l)) (seq s n).
Proof.
  revert s. induction n as [|n IH]; intros s Hs; [lia|].
  cbn [seq flat_map].
  destruct (Nat.eq_dec (rank x) s) as [E|E].
  - destruct (@ranks_above x l n (S s) ltac:(lia)) as [E' F].
    rewrite E'. cbn [filter]. replace (rank x =? s)%nat with true
      by (symmetry; now apply Nat.eqb_eq).
    cbn [app]. apply insert_front. apply Forall_app. split; [|exact F].
    apply Forall_forall. intros y Hy. apply filter_In in Hy.
    destruct Hy as [_ Hy]. apply Nat.eqb_eq in Hy.
    rewrite after_rank. apply Nat.ltb_ge. lia.
  - rewrite insert_pass.
    + rewrite IH by lia. cbn [filter].
      now replace (rank x =? s)%nat with false
        by (symmetry; now apply Nat.eqb_neq).
    + apply Forall_forall. intros y Hy. apply filter_In in Hy.
      destruct Hy as [_ Hy]. apply Nat.eqb_eq in Hy.
      rewrite after_rank. apply Nat.ltb_lt. lia.
Qed.

Lemma sort_ranked n l :
  Forall (fun x => (rank x < n)%nat) l ->
  sort l = flat_map (ofRank l) (seq 0 n).
Proof.
  induction 1 as [|x l Hx _ IH].
  - induction (seq 0 n) as [|j js IHj]; [reflexivity|exact IHj].
  - simpl sort. rewrite IH. apply insert_ranked. lia.
Qed.

End Ranked.

(** A comparison function that is consistent on the elements of the array,
    whatever it does elsewhere. *)
Section ConsistentOn.

Variable P : A -> Prop.
Hypothesis after_asym_on :
  forall a b, P a -> P b -> after a b = true -> after b a = false.
Hypothesis notAfter_trans_on :
  forall a b c, P a -> P b -> P c ->
                notAfter a b -> notAfter b c -> notAfter a c.

Lemma insert_sorted_on x l :
  P x -> Forall P l -> Sorted notAfter l -> Sorted notAfter (insert x l).
Proof.
  intros Px. induction l as [|y l IH]; intros Pl Hs; simpl.
  - repeat constructor.
  - inversion Pl as [|? ? Py Pl']; subst.
    destruct (after x y) eqn:Hxy.
    + inversion Hs as [|? ? Hl Hy]; subst.
      constructor; [now apply IH|].
      destruct l as [|z l]; simpl.
      * constructor. now apply after_asym_on.
      * destruct (after x z); constructor.
        -- inversion Hy; subst. assumption.
        -- now apply after_asym_on.
    + constructor; [assumption|]. now constructor.
Qed.

Lemma sort_Forall l : Forall P l -> Forall P (sort l).
Proof.
  intros H. rewrite Forall_forall in *. intros x Hx.
  apply H. now apply sort_In.
Qed.

Lemma sort_sorted_on l : Forall P l -> Sorted notAfter (sort l).
Proof.
  induction 1 as [|x l Px Pl IH]; simpl; [constructor|].
  apply insert_sorted_on; [assumption|now apply sort_Forall|assumption].
Qed.

Lemma strongly_sorted_on l :
  Forall P l -> Sorted notAfter l -> StronglySorted notAfter l.
Proof.
  induction l as [|a l IH]; intros Pl Hs; [constructor|].
  inversion Pl as [|? ? Pa Pl']; subst.
  inversion Hs as [|? ? Hl Hd]; subst.
  specialize (IH Pl' Hl). constructor; [exact IH|].
  destruct l as [|b l]; [constructor|].
  inversion Hd as [|? ? Hab]; subst.
  inversion Pl' as [|? ? Pb Pl'']; subst.
  constructor; [exact Hab|].
  apply StronglySorted_inv in IH. destruct IH as [_ Hall].
  rewrite Forall_forall in *. intros c Hc.
  exact (notAfter_trans_on Pa Pb (Pl'' c Hc) Hab (Hall c Hc)).
Qed.

Lemma sort_strongly_sorted_on l :
  Forall P l -> StronglySorted notAfter (sort l).
Proof.
  intros H. apply strongly_sorted_on; [now apply sort_Forall|].
  now apply sort_sorted_on.
Qed.

End ConsistentOn.

End SortFacts.


(** Positions in a strongly sorted list respect the order. *)
Lemma StronglySorted_nth (A : Type) (R : A -> A -> Prop) (l : list A) :
  StronglySorted R l ->
  forall i j a b, (i < j)%nat ->
    nth_error l i = Some a -> nth_error l j = Some b -> R a b.
Proof.
  induction 1 as [|x l Hs IH Hall]; intros i j a b Hij Hi Hj.
  - destruct i; discriminate.
  - destruct j as [|j]; [lia|]. simpl in Hj.
    destruct i as [|i]; simpl in Hi.
    + injection Hi as <-. rewrite Forall_forall in Hall.
      apply Hall. eapply nth_error_In; eassumption.
    + apply (IH i j); [lia|assumption|assumption].
Qed.

(** [a.slice(0, n)] and its positions. *)
Lemma nth_error_firstn_lt (A : Type) (l : list A) n i :
  (i < n)%nat -> nth_error (firstn n l) i = nth_error l i.
Proof.
  revert l i. induction n as [|n IH]; intros l i Hi; [lia|].
  destruct l as [|x l]; [reflexivity|].
  destruct i as [|i]; [reflexivity|]. simpl. apply IH. lia.
Qed.

Lemma nth_error_firstn_some (A : Type) (l : list A) n i a :
  nth_error (firstn n l) i = Some a -> (i < n)%nat /\ nth_error l i = Some a.
Proof.
  intros H.
  assert (Hlt : (i < List.length (firstn n l))%nat)
    by (apply nth_error_Some; congruence).
  rewrite length_firstn in Hlt.
  split; [lia|]. rewrite <- H. symmetry. apply nth_error_firstn_lt. lia.
Qed.


(* ================================================================== *)
(** ** Traces *)
(* ================================================================== *)

Lemma record_extend e w : record e w = extend [e] w.
Proof. reflexivity. Qed.

Lemma extend_extend t1 t2 w : extend t2 (extend t1 w) = extend (t1 ++ t2) w.
Proof. unfold extend; simpl. now rewrite app_assoc. Qed.

Lemma extend_nil w : extend [] w = w.
Proof. destruct w; unfold extend; simpl. now rewrite app_nil_r. Qed.

Lemma count_extend p t w :
  count p (extend t w) = (count p w + List.length (filter p t))%nat.
Proof. unfold count, extend; simpl. now rewrite filter_app, length_app. Qed.

(** Normalise the worlds met while a program is run symbolically. *)
Ltac trace_norm :=
  repeat rewrite record_extend in *;
  repeat rewrite extend_extend in *;
  repeat rewrite count_extend in *;
  cbn [List.length filter isGenerate isEmbed isLoad isHttpGet
       isListCommits isRandom isDbWrite app] in *;
  repeat rewrite Nat.add_0_r in *.

(* ================================================================== *)
(** ** The Gemini client *)
(* ================================================================== *)

Section GeminiRuns.

Variable env : Env.
Variable w : World.

(** The four ways a call to [summarizeCommit] can go: an answer at the
    first, second or third attempt, or three failures. *)
Lemma summarizeCommit_runs (diff : string) :
  let p := Gemini.summarizePrompt diff in
  let n := count isGenerate w in
  let g := EvGenerate p in
  (exists s, generateContent env n p = Ok s /\
     Gemini.summarizeCommit diff env w = (Ok s, extend [g] w))
  \/ (exists s, generateContent env (n + 1) p = Ok s /\
     Gemini.summarizeCommit diff env w
     = (Ok s, extend [g; EvSleep 2000; g] w))
  \/ (exists s, generateContent env (n + 2) p = Ok s /\
     Gemini.summarizeCommit diff env w
     = (Ok s, extend [g; EvSleep 2000; g; EvSleep 4000; g] w))
  \/ ((forall k, (k < 3)%nat -> exists m, generateContent env (n + k) p = Thrown m) /\
     Gemini.summarizeCommit diff env w
     = (Ok Gemini.summaryFallback,
        extend [g; EvSleep 2000; g; EvSleep 4000; g] w)).
Proof.
  intros p n g.
  unfold Gemini.summarizeCommit, Gemini.summarizeCommitFrom, tryCatch, bind,
    sleep, ret, Gemini.callGenerateContent.
  cbn [Nat.ltb Nat.leb Gemini.MAX_RETRIES].
  change (Gemini.backoff 1) with 2000%Z.
  change (Gemini.backoff 2) with 4000%Z.
  fold p. subst g. trace_norm. fold n.
  replace (n + 1 + 1)%nat with (n + 2)%nat by lia.
  destruct (generateContent env n p) as [s|m0] eqn:E0.
  { left. now exists s. }
  destruct (generateContent env (n + 1) p) as [s|m1] eqn:E1.
  { right; left. now exists s. }
  destruct (generateContent env (n + 2) p) as [s|m2] eqn:E2.
  { right; right; left. now exists s. }
  right; right; right. split; [|reflexivity].
  intros k Hk.
  destruct k as [|[|[|k]]]; try lia.
  - rewrite Nat.add_0_r. eauto.
  - eauto.
  - eauto.
Qed.

End GeminiRuns.

Section EmbeddingRuns.

Variable env : Env.
Variable w : World.


(** The four ways a call to [generateEmbedding] can go. *)
Lemma generateEmbedding_runs (text : string) :
  let req := Gemini.embedRequest text in
  let n := count isEmbed w in
  let e := EvEmbed req in
  let answer k := Gemini.checkEmbedding (embedContent env (n + k) req) in
  (exists v, answer 0%nat = Ok v /\
     Gemini.generateEmbedding text env w = (Ok v, extend [e] w))
  \/ (exists v, answer 1%nat = Ok v /\
     Gemini.generateEmbedding text env w
     = (Ok v, extend [e; EvSleep 2000; e] w))
  \/ (exists v, answer 2%nat = Ok v /\
     Gemini.generateEmbedding text env w
     = (Ok v, extend [e; EvSleep 2000; e; EvSleep 4000; e] w))
  \/ (Gemini.embedExhausted env w text /\
     Gemini.generateEmbedding text env w
     = (Ok (Gemini.fallbackEmbedding text),
        extend [e; EvSleep 2000; e; EvSleep 4000; e] w)).
Proof.
  intros req n e answer.
  unfold Gemini.generateEmbedding, Gemini.generateEmbeddingFrom, tryCatch, bind,
    sleep, ret, Gemini.callEmbedContent, Gemini.embedExhausted.
  cbn [Nat.ltb Nat.leb Gemini.MAX_RETRIES].
  change (Gemini.backoff 1) with 2000%Z.
  change (Gemini.backoff 2) with 4000%Z.
  fold req. subst e. trace_norm. fold n.
  replace (n + 1 + 1)%nat with (n + 2)%nat by lia.
  subst answer. cbv beta. rewrite Nat.add_0_r.
  destruct (Gemini.checkEmbedding (embedContent env n req)) as [v|m0] eqn:E0.
  { left. now exists v. }
  destruct (Gemini.checkEmbedding (embedContent env (n + 1) req))
    as [v|m1] eqn:E1.
  { right; left. now exists v. }
  destruct (Gemini.checkEmbedding (embedContent env (n + 2) req))
    as [v|m2] eqn:E2.
  { right; right; left. now exists v. }
  right; right; right. split; [|reflexivity].
  intros k Hk. unfold Gemini.MAX_RETRIES in Hk.
  destruct k as [|[|[|k]]]; try lia.
  - rewrite Nat.add_0_r. eauto.
  - eauto.
  - eauto.
Qed.

(** After three failures the client answers with its fallback vector. *)
Lemma generateEmbedding_exhausted (text : string) :
  Gemini.embedExhausted env w text ->
  fst (Gemini.generateEmbedding text env w)
  = Ok (Gemini.fallbackEmbedding text).
Proof.
  intros Hex.
  pose proof (Hex 0%nat ltac:(unfold Gemini.MAX_RETRIES; lia)) as [m0 H0].
  pose proof (Hex 1%nat ltac:(unfold Gemini.MAX_RETRIES; lia)) as [m1 H1].
  pose proof (Hex 2%nat ltac:(unfold Gemini.MAX_RETRIES; lia)) as [m2 H2].
  rewrite Nat.add_0_r in H0.
  destruct (generateEmbedding_runs text)
    as [(v & Hv & _)|[(v & Hv & _)|[(v & Hv & _)|(_ & ->)]]];
    [cbv beta in Hv; try rewrite Nat.add_0_r in Hv; congruence ..|].
  reflexivity.
Qed.

End EmbeddingRuns.

Lemma fallbackEmbedding_length text :
  List.length (Gemini.fallbackEmbedding text) = 768%nat.
Proof.
  unfold Gemini.fallbackEmbedding. now rewrite length_map, length_seq.
Qed.

Lemma createFallbackEmbedding_length text :
  List.length (EmbeddingPipeline.createFallbackEmbedding text) = 768%nat.
Proof.
  unfold EmbeddingPipeline.createFallbackEmbedding.
  now rewrite length_map, length_seq.
Qed.

Lemma retryDelays_backoff : map Gemini.backoff [1; 2]%nat = retryDelays.
Proof. reflexivity. Qed.

(** C8 (amended).  [summarizeCommit] and [generateEmbedding] make between
    one and three attempts; the delay awaited after the first failure is
    2 s and after the second 4 s (two to the number of failures, in
    seconds), and none follows the third, so no delay of 8 s occurs; when
    all three attempts fail the fixed generic summary, or the deterministic
    fallback vector, is returned.  Neither call throws. *)
Theorem retry_backoff_two_delays (env : Env) (w : World) (diff text : string) :
  (exists s t,
      Gemini.summarizeCommit diff env w = (Ok s, extend t w)
      /\ (1 <= List.length (generatePromptsOf t) <= 3)%nat
      /\ sleepsOf t
         = firstn (List.length (generatePromptsOf t) - 1) retryDelays
      /\ ((forall k, (k < 3)%nat ->
             exists m, generateContent env (count isGenerate w + k)
                                       (Gemini.summarizePrompt diff)
                       = Thrown m) ->
          s = Gemini.summaryFallback
          /\ List.length (generatePromptsOf t) = 3%nat
          /\ sleepsOf t = [2000; 4000]%Z))
  /\ (exists v t,
      Gemini.generateEmbedding text env w = (Ok v, extend t w)
      /\ (1 <= List.length (embedRequestsOf t) <= 3)%nat
      /\ sleepsOf t
         = firstn (List.length (embedRequestsOf t) - 1) retryDelays
      /\ (Gemini.embedExhausted env w text ->
          v = Gemini.fallbackEmbedding text
          /\ List.length (embedRequestsOf t) = 3%nat
          /\ sleepsOf t = [2000; 4000]%Z)).
Proof.
  split.
  - destruct (summarizeCommit_runs env w diff)
      as [(s & E & ->)|[(s & E & ->)|[(s & E & ->)|(E & ->)]]];
      do 2 eexists; (split; [reflexivity|]);
      (split; [cbn; lia|]); (split; [reflexivity|]); intros Hall.
    + destruct (Hall 0%nat ltac:(lia)) as [m Hm].
      rewrite Nat.add_0_r in Hm. congruence.
    + destruct (Hall 1%nat ltac:(lia)) as [m Hm]. congruence.
    + destruct (Hall 2%nat ltac:(lia)) as [m Hm]. congruence.
    + repeat split.
  - destruct (generateEmbedding_runs env w text)
      as [(v & E & ->)|[(v & E & ->)|[(v & E & ->)|(E & ->)]]];
      cbv beta in *;
      do 2 eexists; (split; [reflexivity|]);
      (split; [cbn; lia|]); (split; [reflexivity|]); intros Hall.
    + destruct (Hall 0%nat ltac:(unfold Gemini.MAX_RETRIES; lia)) as [m Hm].
      rewrite Nat.add_0_r in *. congruence.
    + destruct (Hall 1%nat ltac:(unfold Gemini.MAX_RETRIES; lia)) as [m Hm].
      congruence.
    + destruct (Hall 2%nat ltac:(unfold Gemini.MAX_RETRIES; lia)) as [m Hm].
      congruence.
    + repeat split.
Qed.

(** C8 as stated fails: when every attempt fails, three attempts are made
    and the delays awaited are 2 s and 4 s; the 8 s of the specification is
    never awaited. *)
Lemma retry_backoff_no_third_delay :
  let w1 := snd (Gemini.summarizeCommit "diff" failingEnv emptyWorld) in
  let w2 := snd (Gemini.generateEmbedding "text" failingEnv emptyWorld) in
  fst (Gemini.summarizeCommit "diff" failingEnv emptyWorld)
  = Ok Gemini.summaryFallback
  /\ List.length (generatePromptsOf (trace w1)) = 3%nat
  /\ sleepsOf (trace w1) = [2000; 4000]%Z
  /\ sleepsOf (trace w1) <> specRetryDelays
  /\ List.length (embedRequestsOf (trace w2)) = 3%nat
  /\ sleepsOf (trace w2) = [2000; 4000]%Z
  /\ sleepsOf (trace w2) <> specRetryDelays.
Proof.
  cbv zeta.
  assert (E2 : snd (Gemini.generateEmbedding "text" failingEnv emptyWorld)
               = extend [EvEmbed (Gemini.embedRequest "text"); EvSleep 2000;
                         EvEmbed (Gemini.embedRequest "text"); EvSleep 4000;
                         EvEmbed (Gemini.embedRequest "text")] emptyWorld)
    by reflexivity.
  rewrite E2.
  repeat split; try reflexivity; cbn; unfold specRetryDelays; discriminate.
Qed.

(** C1.  The hash-seeded fallbacks are functions of the text alone.  Take
    two independent runs on the same text, each in its own environment and
    world: when the imported client call throws, the pipeline's
    [generateEmbedding] answers in both runs with the same vector,
    [createFallbackEmbedding text], of 768 components; and when all three
    attempts of the client fail, the client's [generateEmbedding] answers in
    both runs with the same vector of 768 components. *)
Theorem fallback_embedding_deterministic
    (text : string) (inner1 inner2 : string -> M Vector)
    (env1 env2 : Env) (w1 w2 : World)
    (Hinner1 : exists m w', inner1 text env1 w1 = (Thrown m, w'))
    (Hinner2 : exists m w', inner2 text env2 w2 = (Thrown m, w'))
    (Hex1 : Gemini.embedExhausted env1 w1 text)
    (Hex2 : Gemini.embedExhausted env2 w2 text) :
  fst (EmbeddingPipeline.generateEmbeddingVia inner1 text env1 w1)
  = fst (EmbeddingPipeline.generateEmbeddingVia inner2 text env2 w2)
  /\ fst (EmbeddingPipeline.generateEmbeddingVia inner1 text env1 w1)
     = Ok (EmbeddingPipeline.createFallbackEmbedding text)
  /\ List.length (EmbeddingPipeline.createFallbackEmbedding text) = 768%nat
  /\ fst (Gemini.generateEmbedding text env1 w1)
     = fst (Gemini.generateEmbedding text env2 w2)
  /\ fst (Gemini.generateEmbedding text env1 w1)
     = Ok (Gemini.fallbackEmbedding text)
  /\ List.length (Gemini.fallbackEmbedding text) = 768%nat.
Proof.
  destruct Hinner1 as (m1 & w1' & E1), Hinner2 as (m2 & w2' & E2).
  assert (P1 : fst (EmbeddingPipeline.generateEmbeddingVia inner1 text env1 w1)
               = Ok (EmbeddingPipeline.createFallbackEmbedding text))
    by (unfold EmbeddingPipeline.generateEmbeddingVia, tryCatch;
        now rewrite E1).
  assert (P2 : fst (EmbeddingPipeline.generateEmbeddingVia inner2 text env2 w2)
               = Ok (EmbeddingPipeline.createFallbackEmbedding text))
    by (unfold EmbeddingPipeline.generateEmbeddingVia, tryCatch;
        now rewrite E2).
  rewrite P1, P2.
  rewrite (generateEmbedding_exhausted Hex1),
          (generateEmbedding_exhausted Hex2).
  split; [reflexivity|]. split; [reflexivity|].
  split; [apply createFallbackEmbedding_length|].
  split; [reflexivity|]. split; [reflexivity|].
  apply fallbackEmbedding_length.
Qed.

Lemma fallback_embedding_deterministic_witness :
  fst (EmbeddingPipeline.generateEmbeddingVia
         (fun _ => throw "quota exceeded") "hello" failingEnv emptyWorld)
  = fst (EmbeddingPipeline.generateEmbeddingVia
           (fun _ => throw "timeout") "hello" noEmbeddingEnv busyWorld)
  /\ fst (EmbeddingPipeline.generateEmbeddingVia
            (fun _ => throw "quota exceeded") "hello" failingEnv emptyWorld)
     = Ok (EmbeddingPipeline.createFallbackEmbedding "hello")
  /\ List.length (EmbeddingPipeline.createFallbackEmbedding "hello") = 768%nat
  /\ fst (Gemini.generateEmbedding "hello" failingEnv emptyWorld)
     = fst (Gemini.generateEmbedding "hello" noEmbeddingEnv busyWorld)
  /\ fst (Gemini.generateEmbedding "hello" failingEnv emptyWorld)
     = Ok (Gemini.fallbackEmbedding "hello")
  /\ List.length (Gemini.fallbackEmbedding "hello") = 768%nat.
Proof.
  apply (@fallback_embedding_deterministic "hello"
           (fun _ => throw "quota exceeded") (fun _ => throw "timeout")
           failingEnv noEmbeddingEnv emptyWorld busyWorld).
  - exists "quota exceeded", emptyWorld. reflexivity.
  - exists "timeout", busyWorld. reflexivity.
  - intros k _. eexists. reflexivity.
  - intros k _. eexists. reflexivity.
Defined.




(* ================================================================== *)
(** ** The repository loader *)
(* ================================================================== *)

(** C3.  [loadGitHubRepository] first loads the branch [main]; when that
    attempt throws, it loads [master] with the same options, the branch
    apart; when both attempts throw it returns exactly one document, the
    generated README.  It returns in every case: no exception leaves it. *)
Theorem loadGitHubRepository_branch_fallback
    (env : Env) (w : World) (repoUrl : string)
    (accessToken : option string) (recursive : option bool) :
  let main := GithubLoader.loaderOptions repoUrl "main" accessToken recursive in
  let master :=
    GithubLoader.loaderOptions repoUrl "master" accessToken recursive in
  let n := count isLoad w in
  let run :=
    GithubLoader.loadGitHubRepository repoUrl accessToken recursive env w in
  cfg_branch main = "main"
  /\ master = mkLoaderConfig (cfg_repoUrl main) "master" (cfg_recursive main)
                             (cfg_unknown main) (cfg_accessToken main)
                             (cfg_maxConcurrency main) (cfg_ignoreFiles main)
  /\ (exists docs w', run = (Ok docs, w'))
  /\ ((exists docs, loaderLoad env n main = Ok docs
         /\ run = (Ok docs, extend [EvLoad main] w))
      \/ (exists m docs, loaderLoad env n main = Thrown m
         /\ loaderLoad env (n + 1) master = Ok docs
         /\ run = (Ok docs, extend [EvLoad main; EvLoad master] w))
      \/ (exists m1 m2, loaderLoad env n main = Thrown m1
         /\ loaderLoad env (n + 1) master = Thrown m2
         /\ run = (Ok [GithubLoader.sampleReadme repoUrl],
                   extend [EvLoad main; EvLoad master] w)
         /\ List.length [GithubLoader.sampleReadme repoUrl] = 1%nat
         /\ source (GithubLoader.sampleReadme repoUrl) = Some "README.md")).
Proof.
  intros main master n run.
  split; [reflexivity|]. split; [reflexivity|].
  assert (Hcases :
    (exists docs, loaderLoad env n main = Ok docs
       /\ run = (Ok docs, extend [EvLoad main] w))
    \/ (exists m docs, loaderLoad env n main = Thrown m
       /\ loaderLoad env (n + 1) master = Ok docs
       /\ run = (Ok docs, extend [EvLoad main; EvLoad master] w))
    \/ (exists m1 m2, loaderLoad env n main = Thrown m1
       /\ loaderLoad env (n + 1) master = Thrown m2
       /\ run = (Ok [GithubLoader.sampleReadme repoUrl],
                 extend [EvLoad main; EvLoad master] w)
       /\ List.length [GithubLoader.sampleReadme repoUrl] = 1%nat
       /\ source (GithubLoader.sampleReadme repoUrl) = Some "README.md")).
  { subst run.
    unfold GithubLoader.loadGitHubRepository, tryCatch, GithubLoader.load, ret.
    fold main. fold master. trace_norm. fold n.
    destruct (loaderLoad env n main) as [docs|m1] eqn:E1.
    { left. now exists docs. }
    destruct (loaderLoad env (n + 1) master) as [docs|m2] eqn:E2.
    { right; left. now exists m1, docs. }
    right; right. exists m1, m2. repeat split. }
  split; [|exact Hcases].
  destruct Hcases as [(docs & _ & ->)|[(m & docs & _ & _ & ->)
                                      |(m1 & m2 & _ & _ & -> & _)]];
    eauto.
Qed.

(* ================================================================== *)
(** ** Storing a processed file *)
(* ================================================================== *)

(** C4 as stated fails for [indexGitHubRepo]: a vector that does not have
    768 components makes its loop skip the file altogether.  With an
    embedding service that answers with three numbers, the one file of the
    repository is processed and no row is stored. *)
Lemma indexGitHubRepo_skips_the_row :
  let w' := snd (EmbeddingPipeline.indexGitHubRepo
                   "p1" "https://github.com/acme/app" None
                   oneFileShortVectorEnv emptyWorld) in
  processedOf (trace w') = ["src/index.ts"]
  /\ embedRequestsOf (trace w')
     = [mkEmbedRequest "user" ["Exports a constant."]]
  /\ files w' = [].
Proof. cbv zeta. repeat split. Qed.

(** C4 (amended).  When the vector produced for a file does not have 768
    components, the ingestion of [createProject] still inserts the row with
    its file name, summary and source code and leaves its vector absent
    (only the write of the vector is skipped), provided the database accepts
    the insertion; [indexGitHubRepo] skips the file: it inserts no row and
    makes no write at all. *)
Theorem short_vector_row_kept_by_createProject
    (env : Env) (w : World) (projectId name summ code : string) (v : Vector)
    (Hlen : List.length v <> 768%nat)
    (Hdb : dbWriteFails env (count isDbWrite w) = false) :
  (exists w',
      ProjectRouter.storeProcessed projectId name summ code v env w
      = (Ok tt, w')
      /\ files w'
         = files w
           ++ [mkFileRecord (nextId w) name summ (Some code) projectId None]
      /\ trace w' = trace w ++ [EvDbWrite])
  /\ EmbeddingPipeline.storeIndexed projectId name summ code v env w
     = (Ok tt, w).
Proof.
  apply Nat.eqb_neq in Hlen.
  split.
  - unfold ProjectRouter.storeProcessed, tryCatch, bind, Db.createFile,
      Db.write, bind, ret.
    rewrite Hdb. cbn [file_id]. rewrite Hlen.
    eexists. split; [reflexivity|]. split; reflexivity.
  - unfold EmbeddingPipeline.storeIndexed. now rewrite Hlen.
Qed.

Lemma short_vector_row_kept_by_createProject_witness :
  (exists w',
      ProjectRouter.storeProcessed "p1" "src/index.ts" "Exports a constant."
                                   "export const x = 1;" [1; 2; 3]%R
                                   oneFileShortVectorEnv emptyWorld
      = (Ok tt, w')
      /\ files w'
         = files emptyWorld
           ++ [mkFileRecord (nextId emptyWorld) "src/index.ts"
                            "Exports a constant."
                            (Some "export const x = 1;") "p1" None]
      /\ trace w' = trace emptyWorld ++ [EvDbWrite])
  /\ EmbeddingPipeline.storeIndexed "p1" "src/index.ts" "Exports a constant."
                                    "export const x = 1;" [1; 2; 3]%R
                                    oneFileShortVectorEnv emptyWorld
     = (Ok tt, emptyWorld).
Proof.
  apply (@short_vector_row_kept_by_createProject
           oneFileShortVectorEnv emptyWorld "p1" "src/index.ts"
           "Exports a constant." "export const x = 1;" [1; 2; 3]%R).
  - simpl. discriminate.
  - reflexivity.
Defined.

(** In the same environment the ingestion of [createProject] stores the
    row of the file, without a vector. *)
Lemma createProject_keeps_the_row :
  files (snd (ProjectRouter.embeddingProcess
                "p1" "https://github.com/acme/app" None
                oneFileShortVectorEnv emptyWorld))
  = [mkFileRecord 0 "src/index.ts" "Exports a constant."
                  (Some "export const x = 1;") "p1" None].
Proof. vm_compute. reflexivity. Qed.

(** With a vector of 768 components both paths insert the row and then
    write its vector. *)
Lemma full_vector_row_written
    (env : Env) (w : World) (projectId name summ code : string) (v : Vector) :
  List.length v = 768%nat ->
  dbWriteFails env (count isDbWrite w) = false ->
  dbWriteFails env (count isDbWrite w + 1) = false ->
  ProjectRouter.storeProcessed projectId name summ code v env w
  = EmbeddingPipeline.storeIndexed projectId name summ code v env w
  /\ exists w',
      EmbeddingPipeline.storeIndexed projectId name summ code v env w
      = (Ok tt, w')
      /\ In (mkFileRecord (nextId w) name summ (Some code) projectId (Some v))
            (files w').
Proof.
  intros Hlen Hdb1 Hdb2. apply Nat.eqb_eq in Hlen.
  unfold ProjectRouter.storeProcessed, EmbeddingPipeline.storeIndexed.
  rewrite Hlen. cbn [negb]. split; [reflexivity|].
  unfold tryCatch, bind, Db.createFile, Db.setEmbedding, Db.write, bind, ret.
  rewrite Hdb1. cbn [file_id]. trace_norm.
  unfold bumpId, setFiles, extend, count in *. cbn [trace files nextId] in *.
  rewrite filter_app, length_app. cbn [filter isDbWrite List.length].
  unfold count in Hdb2. rewrite Hdb2.
  eexists. split; [reflexivity|].
  cbn [files]. rewrite map_app. apply in_or_app. right.
  cbn [map file_id]. rewrite Nat.eqb_refl. now left.
Qed.

(* ================================================================== *)
(** ** Computations that announce no file, computations that do not throw *)
(* ================================================================== *)

Lemma processedOf_app t1 t2 :
  processedOf (t1 ++ t2) = processedOf t1 ++ processedOf t2.
Proof. unfold processedOf. apply flat_map_app. Qed.

Lemma processedOf_record e w :
  processedOf [e] = [] ->
  processedOf (trace (record e w)) = processedOf (trace w).
Proof.
  intros H. unfold record; cbn [trace].
  now rewrite processedOf_app, H, app_nil_r.
Qed.

Section Quiet.

Context {A B : Type}.

Lemma quiet_ret (a : A) : quiet (ret a).
Proof. intros env w. reflexivity. Qed.

Lemma quiet_throw (msg : string) : quiet (@throw A msg).
Proof. intros env w. reflexivity. Qed.

Lemma quiet_bind (m : M A) (k : A -> M B) :
  quiet m -> (forall a, quiet (k a)) -> quiet (bind m k).
Proof.
  intros Hm Hk env w. unfold bind.
  specialize (Hm env w).
  destruct (m env w) as [[a|msg] w1]; cbn [snd] in *.
  - now rewrite (Hk a env w1).
  - assumption.
Qed.

Lemma quiet_tryCatch (m : M A) (h : string -> M A) :
  quiet m -> (forall msg, quiet (h msg)) -> quiet (tryCatch m h).
Proof.
  intros Hm Hh env w. unfold tryCatch.
  specialize (Hm env w).
  destruct (m env w) as [[a|msg] w1]; cbn [snd] in *.
  - assumption.
  - now rewrite (Hh msg env w1).
Qed.

Lemma neverThrows_ret (a : A) : neverThrows (ret a).
Proof. intros env w. now exists a, w. Qed.

Lemma neverThrows_bind (m : M A) (k : A -> M B) :
  neverThrows m -> (forall a, neverThrows (k a)) -> neverThrows (bind m k).
Proof.
  intros Hm Hk env w. unfold bind.
  destruct (Hm env w) as (a & w1 & ->). apply Hk.
Qed.

Lemma neverThrows_tryCatch (m : M A) (h : string -> M A) :
  (forall msg, neverThrows (h msg)) -> neverThrows (tryCatch m h).
Proof.
  intros Hh env w. unfold tryCatch.
  destruct (m env w) as [[a|msg] w1]; [now exists a, w1|apply Hh].
Qed.

Lemma calm_ret (a : A) : calm (ret a).
Proof. split; [apply neverThrows_ret|apply quiet_ret]. Qed.

Lemma calm_bind (m : M A) (k : A -> M B) :
  calm m -> (forall a, calm (k a)) -> calm (bind m k).
Proof.
  intros [Hm1 Hm2] Hk. split.
  - apply neverThrows_bind; [assumption|]. intros a. apply Hk.
  - apply quiet_bind; [assumption|]. intros a. apply Hk.
Qed.

Lemma calm_tryCatch (m : M A) (h : string -> M A) :
  quiet m -> (forall msg, calm (h msg)) -> calm (tryCatch m h).
Proof.
  intros Hm Hh. split.
  - apply neverThrows_tryCatch. intros msg. apply Hh.
  - apply quiet_tryCatch; [assumption|]. intros msg. apply Hh.
Qed.

End Quiet.

Lemma quiet_sleep ms : quiet (sleep ms).
Proof. intros env w. now apply processedOf_record. Qed.

Lemma quiet_forEachFrom {A} (body : nat -> A -> M unit) :
  (forall i x, quiet (body i x)) ->
  forall xs i, quiet (forEachFrom i xs body).
Proof.
  intros Hb. induction xs as [|x xs IH]; intros i; simpl.
  - apply quiet_ret.
  - apply quiet_bind; [apply Hb|]. intros _. apply IH.
Qed.

(** A step that records one event other than an announcement. *)
Ltac quiet_call :=
  let env := fresh "env" in
  let w := fresh "w" in
  intros env w; cbn [snd];
  repeat match goal with
         | |- context [match ?x with _ => _ end] => destruct x
         | |- context [if ?b then _ else _] => destruct b
         end;
  cbn [snd bumpId setFiles setCommits trace];
  first [reflexivity | now apply processedOf_record].

Lemma quiet_callGenerateContent p : quiet (Gemini.callGenerateContent p).
Proof. unfold Gemini.callGenerateContent. quiet_call. Qed.

Lemma quiet_callEmbedContent text : quiet (Gemini.callEmbedContent text).
Proof. unfold Gemini.callEmbedContent. quiet_call. Qed.

Lemma quiet_load cfg : quiet (GithubLoader.load cfg).
Proof. unfold GithubLoader.load. quiet_call. Qed.

Lemma quiet_write : quiet Db.write.
Proof. unfold Db.write. quiet_call. Qed.

Lemma quiet_random : quiet ProjectRouter.random.
Proof. unfold ProjectRouter.random. quiet_call. Qed.

Lemma quiet_createFile name summ code projectId :
  quiet (Db.createFile name summ code projectId).
Proof.
  unfold Db.createFile. apply quiet_bind; [apply quiet_write|].
  intros _. quiet_call.
Qed.

Lemma quiet_setEmbedding v id : quiet (Db.setEmbedding v id).
Proof.
  unfold Db.setEmbedding. apply quiet_bind; [apply quiet_write|].
  intros _. quiet_call.
Qed.

Lemma quiet_upsertCommit projectId c summ :
  quiet (Db.upsertCommit projectId c summ).
Proof.
  unfold Db.upsertCommit. apply quiet_bind; [apply quiet_write|].
  intros _. quiet_call.
Qed.

Lemma quiet_summarizeCommitFrom fuel :
  forall retries prompt, quiet (Gemini.summarizeCommitFrom fuel retries prompt).
Proof.
  induction fuel as [|fuel IH]; intros retries prompt; simpl.
  - apply quiet_ret.
  - destruct (retries <? Gemini.MAX_RETRIES)%nat; [|apply quiet_ret].
    apply quiet_tryCatch; [apply quiet_callGenerateContent|].
    intros _. destruct (S retries <? Gemini.MAX_RETRIES)%nat.
    + apply quiet_bind; [apply quiet_sleep|]. intros _. apply IH.
    + apply quiet_ret.
Qed.

Lemma quiet_summarizeCommit diff : quiet (Gemini.summarizeCommit diff).
Proof. apply quiet_summarizeCommitFrom. Qed.

Lemma quiet_generateEmbeddingFrom fuel :
  forall retries text, quiet (Gemini.generateEmbeddingFrom fuel retries text).
Proof.
  induction fuel as [|fuel IH]; intros retries text; simpl.
  - apply quiet_ret.
  - destruct (retries <? Gemini.MAX_RETRIES)%nat; [|apply quiet_ret].
    apply quiet_tryCatch; [apply quiet_callEmbedContent|].
    intros _. destruct (S retries <? Gemini.MAX_RETRIES)%nat.
    + apply quiet_bind; [apply quiet_sleep|]. intros _. apply IH.
    + apply quiet_ret.
Qed.

Lemma quiet_summarizeCode code : quiet (EmbeddingPipeline.summarizeCode code).
Proof.
  apply quiet_tryCatch; [apply quiet_summarizeCommit|].
  intros _. apply quiet_ret.
Qed.

Lemma quiet_generateEmbedding text :
  quiet (EmbeddingPipeline.generateEmbedding text).
Proof.
  apply quiet_tryCatch; [apply quiet_generateEmbeddingFrom|].
  intros _. apply quiet_ret.
Qed.

Lemma calm_randomVector n : calm (ProjectRouter.randomVector n).
Proof.
  induction n as [|n IH]; simpl; [apply calm_ret|].
  apply calm_bind.
  - split; [|apply quiet_random].
    intros env w. unfold ProjectRouter.random. eauto.
  - intros x. apply calm_bind; [assumption|]. intros xs. apply calm_ret.
Qed.

Lemma quiet_loadGitHubRepository url token recursive :
  quiet (GithubLoader.loadGitHubRepository url token recursive).
Proof.
  apply quiet_tryCatch; [apply quiet_load|]. intros _.
  apply quiet_tryCatch; [apply quiet_load|]. intros _. apply quiet_ret.
Qed.

Lemma calm_storeProcessed projectId name summ code v :
  calm (ProjectRouter.storeProcessed projectId name summ code v).
Proof.
  apply calm_tryCatch; [|intros _; apply calm_ret].
  apply quiet_bind; [apply quiet_createFile|].
  intros inserted. destruct (List.length v =? 768)%nat.
  - apply quiet_setEmbedding.
  - apply quiet_ret.
Qed.

Lemma calm_storeIndexed projectId name summ code v :
  calm (EmbeddingPipeline.storeIndexed projectId name summ code v).
Proof.
  unfold EmbeddingPipeline.storeIndexed.
  destruct (negb (List.length v =? 768)%nat); [apply calm_ret|].
  apply calm_tryCatch; [|intros _; apply calm_ret].
  apply quiet_bind; [apply quiet_createFile|].
  intros inserted. apply quiet_setEmbedding.
Qed.

(* ================================================================== *)
(** ** The commit puller announces no file *)
(* ================================================================== *)

Lemma quiet_aiSummarizeCommitFrom fuel :
  forall retries repoUrl commitHash,
    quiet (Github.aiSummarizeCommitFrom fuel retries repoUrl commitHash).
Proof.
  induction fuel as [|fuel IH]; intros retries repoUrl commitHash; simpl.
  - apply quiet_ret.
  - destruct (retries <? Github.MAX_RETRIES)%nat; [|apply quiet_ret].
    apply quiet_bind.
    { unfold Github.axiosGetDiff. quiet_call. }
    intros [diff|status retryAfter|msg].
    + apply quiet_tryCatch; [apply quiet_summarizeCommit|].
      intros _. apply quiet_ret.
    + destruct (status =? 403)%Z; [apply quiet_ret|].
      destruct (status =? 404)%Z; [apply quiet_ret|].
      destruct (status =? 429)%Z; [|apply quiet_ret].
      apply quiet_bind; [apply quiet_sleep|]. intros _. apply IH.
    + apply quiet_ret.
Qed.

Lemma quiet_saveCommit projectId githubUrl position commit :
  quiet (Github.saveCommit projectId githubUrl position commit).
Proof.
  unfold Github.saveCommit. apply quiet_bind.
  - apply quiet_tryCatch; [|intros _; apply quiet_ret].
    apply quiet_bind.
    + destruct (0 <? position)%nat; [apply quiet_sleep|apply quiet_ret].
    + intros _. apply quiet_aiSummarizeCommitFrom.
  - intros summ. apply quiet_tryCatch; [apply quiet_upsertCommit|].
    intros msg. apply quiet_throw.
Qed.

Lemma quiet_pullCommit projectId : quiet (Github.pullCommit projectId).
Proof.
  unfold Github.pullCommit.
  apply quiet_tryCatch; [|intros msg; apply quiet_throw].
  apply quiet_bind.
  { unfold Github.fetchProjectGithubUrl. apply quiet_bind.
    - unfold Db.findProject. quiet_call.
    - intros [[id [url|]]|]; try apply quiet_throw.
      destruct (JsString.truthy url); [apply quiet_ret|apply quiet_throw]. }
  intros githubUrl. apply quiet_bind.
  { unfold Github.getCommitHashes. apply quiet_bind.
    - unfold Github.parseGitHubUrl. quiet_call.
    - intros ownerRepo. unfold Github.requestCommits. quiet_call. }
  intros fetched. apply quiet_bind.
  { unfold Github.filterOutUnprocessedCommits. apply quiet_bind.
    - unfold Db.findCommitsIn. quiet_call.
    - intros processed. apply quiet_ret. }
  intros newHashes. apply quiet_bind.
  { apply quiet_forEachFrom. intros i x. apply quiet_saveCommit. }
  intros _. unfold Db.findCommitsByDate. quiet_call.
Qed.

(* ================================================================== *)
(** ** The two ingestion loops *)
(* ================================================================== *)

Lemma quiet_loadDocsFrom fuel :
  forall retries docs url token,
    quiet (ProjectRouter.loadDocsFrom fuel retries docs url token).
Proof.
  induction fuel as [|fuel IH]; intros retries docs url token; simpl.
  - apply quiet_ret.
  - destruct ((retries <? ProjectRouter.MAX_RETRIES)%nat
              && (List.length docs =? 0)%nat); [|apply quiet_ret].
    apply quiet_bind.
    + apply quiet_tryCatch.
      * apply quiet_bind; [apply quiet_loadGitHubRepository|].
        intros loaded. destruct (List.length loaded =? 0)%nat.
        -- apply quiet_bind; [apply quiet_sleep|]. intros _. apply quiet_ret.
        -- apply quiet_ret.
      * intros _. apply quiet_bind; [apply quiet_sleep|].
        intros _. apply quiet_ret.
    + intros st. apply IH.
Qed.

(** A calm computation run after an announcement: the file announced is the
    one file added to the list of processed files. *)
Lemma announce_then_calm (position total : nat) (name : string)
      (rest : M unit) (env : Env) (w : World) :
  calm rest ->
  exists w',
    bind (EmbeddingPipeline.announce position total name) (fun _ => rest) env w
    = (Ok tt, w')
    /\ processedOf (trace w') = processedOf (trace w) ++ [name].
Proof.
  intros [Hsafe Hquiet]. unfold bind, EmbeddingPipeline.announce.
  destruct (Hsafe env (record (EvProcessing position total name) w))
    as ([] & w' & E).
  exists w'. split; [assumption|].
  specialize (Hquiet env (record (EvProcessing position total name) w)).
  rewrite E in Hquiet. cbn [snd] in Hquiet. rewrite Hquiet.
  unfold record; cbn [trace]. now rewrite processedOf_app.
Qed.

Lemma processDocument_announces projectId total i doc env w :
  exists w',
    ProjectRouter.processDocument projectId total i doc env w = (Ok tt, w')
    /\ processedOf (trace w')
       = processedOf (trace w) ++ [ProjectRouter.documentName i doc].
Proof.
  unfold ProjectRouter.processDocument. apply announce_then_calm.
  apply calm_bind.
  { apply calm_tryCatch; [apply quiet_summarizeCode|]. intros _. apply calm_ret. }
  intros summ. apply calm_bind.
  { apply calm_tryCatch; [apply quiet_generateEmbedding|].
    intros _. apply calm_randomVector. }
  intros v. apply calm_storeProcessed.
Qed.

Lemma indexDocument_announces projectId total i doc env w :
  exists w',
    EmbeddingPipeline.indexDocument projectId total i doc env w = (Ok tt, w')
    /\ processedOf (trace w')
       = processedOf (trace w) ++ [EmbeddingPipeline.documentName doc].
Proof.
  unfold EmbeddingPipeline.indexDocument. apply announce_then_calm.
  apply calm_bind.
  { apply calm_tryCatch; [apply quiet_summarizeCode|]. intros _. apply calm_ret. }
  intros summ. apply calm_bind.
  { apply calm_tryCatch; [apply quiet_generateEmbedding|].
    intros _. apply calm_ret. }
  intros v. apply calm_storeIndexed.
Qed.

(** A loop whose body announces one file per element announces the files
    of the list, in the order of the list. *)
Lemma forEachFrom_announces {A} (body : nat -> A -> M unit)
      (name : nat -> A -> string) :
  (forall i x env w, exists w',
      body i x env w = (Ok tt, w')
      /\ processedOf (trace w') = processedOf (trace w) ++ [name i x]) ->
  forall xs i env w, exists w',
      forEachFrom i xs body env w = (Ok tt, w')
      /\ processedOf (trace w')
         = processedOf (trace w) ++ namesFrom name i xs.
Proof.
  intros Hb. induction xs as [|x xs IH]; intros i env w; simpl.
  - exists w. split; [reflexivity|]. now rewrite app_nil_r.
  - unfold bind. destruct (Hb i x env w) as (w1 & -> & E1).
    destruct (IH (S i) env w1) as (w2 & -> & E2).
    exists w2. split; [reflexivity|].
    rewrite E2, E1, <- app_assoc. reflexivity.
Qed.

(* ================================================================== *)
(** ** The priority order of [createProject] *)
(* ================================================================== *)

Ltac by_flags d :=
  destruct (ProjectRouter.isReadme (ProjectRouter.sourceOrEmpty d)),
           (ProjectRouter.isPackageJson (ProjectRouter.sourceOrEmpty d)),
           (ProjectRouter.isUnderSrc (ProjectRouter.sourceOrEmpty d)).

Lemma priorityAfter_asym a b :
  ProjectRouter.priorityAfter a b = true ->
  ProjectRouter.priorityAfter b a = false.
Proof.
  unfold ProjectRouter.priorityAfter, ProjectRouter.comparePriority.
  by_flags a; by_flags b; cbn; congruence.
Qed.

Lemma priority_notAfter_trans a b c :
  JsArray.notAfter ProjectRouter.priorityAfter a b ->
  JsArray.notAfter ProjectRouter.priorityAfter b c ->
  JsArray.notAfter ProjectRouter.priorityAfter a c.
Proof.
  unfold JsArray.notAfter, ProjectRouter.priorityAfter,
    ProjectRouter.comparePriority.
  by_flags a; by_flags b; by_flags c; cbn; congruence.
Qed.

Lemma priorityClass_lt_after a b :
  (ProjectRouter.priorityClass a < ProjectRouter.priorityClass b)%nat ->
  ProjectRouter.priorityAfter b a = true.
Proof.
  unfold ProjectRouter.priorityAfter, ProjectRouter.comparePriority,
    ProjectRouter.priorityClass.
  by_flags a; by_flags b; cbn; intros H; first [reflexivity | lia].
Qed.

Lemma hasFlags_tie r p s a b :
  ProjectRouter.hasFlags r p s a = true ->
  ProjectRouter.hasFlags r p s b = true ->
  ProjectRouter.priorityAfter a b = false.
Proof.
  unfold ProjectRouter.priorityAfter, ProjectRouter.comparePriority,
    ProjectRouter.hasFlags.
  by_flags a; by_flags b; destruct r, p, s; cbn; congruence.
Qed.

Lemma prioritize_class_order docs i j a b :
  nth_error (ProjectRouter.prioritize docs) i = Some a ->
  nth_error (ProjectRouter.prioritize docs) j = Some b ->
  (ProjectRouter.priorityClass a < ProjectRouter.priorityClass b)%nat ->
  (i < j)%nat.
Proof.
  intros Hi Hj Hlt.
  destruct (Nat.lt_trichotomy i j) as [H|[H|H]]; [assumption|exfalso..].
  - subst j. rewrite Hi in Hj. injection Hj as ->. lia.
  - pose proof (StronglySorted_nth
                  (sort_strongly_sorted priorityAfter_asym
                                        priority_notAfter_trans docs)
                  H Hj Hi) as Hba.
    unfold JsArray.notAfter in Hba.
    rewrite (priorityClass_lt_after _ _ Hlt) in Hba. discriminate.
Qed.

Lemma Permutation_three {A} (a b c : A) (l : list A) :
  Permutation l [a; b; c] ->
  l = [a; b; c] \/ l = [a; c; b] \/ l = [b; a; c]
  \/ l = [b; c; a] \/ l = [c; a; b] \/ l = [c; b; a].
Proof.
  intros HP.
  pose proof (Permutation_length HP) as HL.
  destruct l as [|x [|y [|z [|? ?]]]]; try discriminate.
  assert (Hx : In x [a; b; c]) by (apply (Permutation_in _ HP); now left).
  destruct Hx as [<-|[<-|[<-|[]]]].
  - apply Permutation_cons_inv in HP. symmetry in HP.
    apply Permutation_length_2_inv in HP. destruct HP as [E|E];
      injection E as -> ->; auto.
  - assert (HP' : Permutation (b :: [y; z]) (b :: [a; c])).
    { rewrite HP. apply perm_swap. }
    apply Permutation_cons_inv in HP'. symmetry in HP'.
    apply Permutation_length_2_inv in HP'. destruct HP' as [E|E];
      injection E as -> ->; auto 10.
  - assert (HP' : Permutation (c :: [y; z]) (c :: [a; b])).
    { rewrite HP. apply perm_trans with (a :: c :: [b]); [|apply perm_swap].
      constructor. apply perm_swap. }
    apply Permutation_cons_inv in HP'. symmetry in HP'.
    apply Permutation_length_2_inv in HP'. destruct HP' as [E|E];
      injection E as -> ->; auto 10.
Qed.

Lemma namesFrom_constant {A} (name : A -> string) xs i :
  namesFrom (fun _ => name) i xs = map name xs.
Proof.
  revert i. induction xs as [|x xs IH]; intros i; simpl; [reflexivity|].
  now rewrite IH.
Qed.

Lemma exampleRepo_order docs :
  Permutation docs exampleRepo ->
  namesFrom ProjectRouter.documentName 0 (ProjectRouter.prioritize docs)
  = ["README.md"; "package.json"; "src/index.ts"].
Proof.
  intros HP. apply Permutation_three in HP.
  destruct HP as [->|[->|[->|[->|[->| ->]]]]]; reflexivity.
Qed.

(** The third test looks for "/src/" inside the path: a file of a [src]
    directory at the root of the repository, whose path starts with "src/",
    is in the last class, with everything else. *)
Lemma root_src_file_in_last_class :
  ProjectRouter.priorityClass (mkDoc "" (Some "src/index.ts")) = 3%nat
  /\ ProjectRouter.priorityClass (mkDoc "" (Some "packages/app/src/index.ts"))
     = 2%nat
  /\ ProjectRouter.prioritize
       [mkDoc "" (Some "zeta.txt"); mkDoc "" (Some "src/index.ts")]
     = [mkDoc "" (Some "zeta.txt"); mkDoc "" (Some "src/index.ts")].
Proof. vm_compute. repeat split. Qed.

(** C9 as stated fails for [indexGitHubRepo], which does not sort: it
    processes the documents in the order the loader returns them.  With a
    loader that returns the source file first, the README is processed
    last. *)
Lemma indexGitHubRepo_keeps_loader_order :
  let w' := snd (EmbeddingPipeline.indexGitHubRepo
                   "p1" "https://github.com/acme/app" None
                   exampleRepoEnv emptyWorld) in
  loaderLoad exampleRepoEnv 0
             (GithubLoader.loaderOptions "https://github.com/acme/app" "main"
                                         None None)
  = Ok [ mkDoc "export const x = 1;" (Some "src/index.ts");
         mkDoc "{ }" (Some "package.json");
         mkDoc "# App" (Some "README.md") ]
  /\ processedOf (trace w') = ["src/index.ts"; "package.json"; "README.md"]
  /\ processedOf (trace w') <> ["README.md"; "package.json"; "src/index.ts"].
Proof.
  cbv zeta.
  split; [reflexivity|].
  assert (E : processedOf
                (trace (snd (EmbeddingPipeline.indexGitHubRepo
                               "p1" "https://github.com/acme/app" None
                               exampleRepoEnv emptyWorld)))
              = ["src/index.ts"; "package.json"; "README.md"]).
  { unfold EmbeddingPipeline.indexGitHubRepo, bind.
    change (GithubLoader.loadGitHubRepository "https://github.com/acme/app"
              None None exampleRepoEnv emptyWorld)
      with (Ok (rev exampleRepo),
            extend [EvLoad (GithubLoader.loaderOptions
                              "https://github.com/acme/app" "main" None None)]
                   emptyWorld).
    destruct (forEachFrom_announces
                (EmbeddingPipeline.indexDocument
                   "p1" (List.length (rev exampleRepo)))
                (fun _ => EmbeddingPipeline.documentName)
                (fun i x env w =>
                   indexDocument_announces
                     "p1" (List.length (rev exampleRepo)) i x env w)
                (rev exampleRepo) 0%nat exampleRepoEnv
                (extend [EvLoad (GithubLoader.loaderOptions
                                   "https://github.com/acme/app" "main"
                                   None None)] emptyWorld))
      as (w' & -> & P).
    cbn [snd]. rewrite P. reflexivity. }
  rewrite E. split; [reflexivity|discriminate].
Qed.

(** The comparison of [createProject] orders the documents by their rank,
    so the sorted list is the list of the documents taken test by test. *)
Lemma priorityAfter_rank a b :
  ProjectRouter.priorityAfter a b
  = (ProjectRouter.priorityRank b <? ProjectRouter.priorityRank a)%nat.
Proof.
  unfold ProjectRouter.priorityAfter, ProjectRouter.comparePriority,
    ProjectRouter.priorityRank.
  by_flags a; by_flags b; reflexivity.
Qed.

Lemma priorityRank_bound d : (ProjectRouter.priorityRank d < 8)%nat.
Proof. unfold ProjectRouter.priorityRank. by_flags d; cbn; lia. Qed.

Lemma prioritize_closed_form docs :
  ProjectRouter.prioritize docs = ProjectRouter.byPriority docs.
Proof.
  unfold ProjectRouter.prioritize.
  rewrite (@sort_ranked _ _ _ priorityAfter_rank 8)
    by (apply Forall_forall; intros d _; apply priorityRank_bound).
  unfold ProjectRouter.byPriority, ProjectRouter.flagOrder.
  cbn [seq flat_map fst snd].
  repeat (f_equal;
          [apply filter_ext; intros d;
           unfold ProjectRouter.priorityRank, ProjectRouter.hasFlags;
           by_flags d; reflexivity|]).
  rewrite !app_nil_r. apply filter_ext. intros d.
  unfold ProjectRouter.priorityRank, ProjectRouter.hasFlags.
  by_flags d; reflexivity.
Qed.

Lemma filter_filter_comm {A} (p q : A -> bool) l :
  filter p (filter q l) = filter q (filter p l).
Proof.
  induction l as [|x l IH]; [reflexivity|]. simpl.
  destruct (p x) eqn:Hp, (q x) eqn:Hq; simpl; rewrite ?Hp, ?Hq, IH;
    reflexivity.
Qed.

Lemma filter_byPriority (p : Doc -> bool) docs :
  filter p (ProjectRouter.byPriority docs)
  = ProjectRouter.byPriority (filter p docs).
Proof.
  unfold ProjectRouter.byPriority.
  induction ProjectRouter.flagOrder as [|f fs IH]; [reflexivity|].
  cbn [flat_map]. now rewrite filter_app, IH, filter_filter_comm.
Qed.

(** Inside the README-like names the second test still decides: a name
    that also contains "package.json" is placed before one that does not,
    whatever the order of the loader. *)
Remark readme_class_ordered_by_later_tests :
  ProjectRouter.prioritize
    [mkDoc "" (Some "README.md"); mkDoc "" (Some "docs/readme/package.json")]
  = [mkDoc "" (Some "docs/readme/package.json"); mkDoc "" (Some "README.md")].
Proof. reflexivity. Qed.

(** C9 (amended).  The ingestion started by [createProject] sorts the
    loaded documents by three tests on the name, an earlier test prevailing
    over a later one: the name contains "readme" (whatever the case), it
    contains "package.json", it lies under a [src] directory; a document
    that passes a test comes before one that fails it, and documents that
    agree on the three tests keep the order of the loader.  README-like
    names so come first, then package.json-like names, then files under a
    source directory, then everything else, and inside each of these classes
    the later tests still order the documents.  This is stated of the
    documents whose name does not start with "src/"; where a file of a [src]
    directory at the root of the repository is placed is left open.  Every
    document of the sorted list is processed, in that order, none is
    dropped; for the repository README.md, package.json, src/index.ts,
    however the loader orders them, the files are processed as README.md,
    package.json, src/index.ts.  [indexGitHubRepo] processes every loaded
    document too, but in the order of the loader. *)
Theorem createProject_priority_order
    (env : Env) (w w1 : World) (projectId githuburl : string)
    (githubtoken : option string) (docs : list Doc)
    (Hload : ProjectRouter.loadDocsFrom
               ProjectRouter.MAX_RETRIES 0 [] githuburl
               (ProjectRouter.tokenOrUndefined githubtoken) env w
             = (Ok docs, w1))
    (Hdocs : docs <> []) :
  let ordered := ProjectRouter.prioritize docs in
  let elsewhere := fun d => negb (ProjectRouter.inRootSrc d) in
  Permutation ordered docs
  /\ filter elsewhere ordered
     = ProjectRouter.byPriority (filter elsewhere docs)
  /\ (exists w',
         ProjectRouter.embeddingProcess projectId githuburl githubtoken env w
         = (Ok tt, w')
         /\ processedOf (trace w')
            = processedOf (trace w1)
              ++ namesFrom ProjectRouter.documentName 0 ordered)
  /\ (Permutation docs exampleRepo ->
      namesFrom ProjectRouter.documentName 0 ordered
      = ["README.md"; "package.json"; "src/index.ts"])
  /\ (forall loaded w2,
         GithubLoader.loadGitHubRepository githuburl githubtoken None env w
         = (Ok loaded, w2) ->
         exists w',
           EmbeddingPipeline.indexGitHubRepo projectId githuburl githubtoken
                                             env w
           = (Ok tt, w')
           /\ processedOf (trace w')
              = processedOf (trace w2)
                ++ map EmbeddingPipeline.documentName loaded).
Proof.
  intros ordered elsewhere.
  split; [apply sort_perm|].
  split.
  { subst ordered. rewrite prioritize_closed_form. apply filter_byPriority. }
  split.
  { unfold ProjectRouter.embeddingProcess, tryCatch, bind.
    rewrite Hload.
    destruct docs as [|d docs]; [congruence|]. cbn [List.length Nat.eqb].
    fold ordered.
    destruct (forEachFrom_announces
                (ProjectRouter.processDocument projectId (List.length ordered))
                ProjectRouter.documentName
                (fun i x env w =>
                   processDocument_announces
                     projectId (List.length ordered) i x env w)
                ordered 0%nat env w1) as (w2 & -> & P2).
    assert (Hpull : calm (tryCatch (bind (Github.pullCommit projectId)
                                         (fun _ => ret tt))
                                   (fun _ => ret tt))).
    { apply calm_tryCatch; [|intros _; apply calm_ret].
      apply quiet_bind; [apply quiet_pullCommit|]. intros _. apply quiet_ret. }
    destruct Hpull as [Hsafe Hquiet].
    destruct (Hsafe env w2) as ([] & w3 & E3).
    specialize (Hquiet env w2). unfold tryCatch, bind in E3, Hquiet.
    rewrite E3 in Hquiet |- *. cbn [snd] in Hquiet.
    exists w3. split; [reflexivity|]. now rewrite Hquiet. }
  split; [apply exampleRepo_order|].
  intros loaded w2 Hl.
  unfold EmbeddingPipeline.indexGitHubRepo, bind. rewrite Hl.
  destruct (forEachFrom_announces
              (EmbeddingPipeline.indexDocument projectId (List.length loaded))
              (fun _ => EmbeddingPipeline.documentName)
              (fun i x env w =>
                 indexDocument_announces
                   projectId (List.length loaded) i x env w)
              loaded 0%nat env w2) as (w' & -> & P).
  exists w'. split; [reflexivity|].
  now rewrite P, namesFrom_constant.
Qed.

Lemma createProject_priority_order_witness :
  exists w',
    ProjectRouter.embeddingProcess "p1" "https://github.com/acme/app" None
                                   exampleRepoEnv emptyWorld
    = (Ok tt, w')
    /\ processedOf (trace w') = ["README.md"; "package.json"; "src/index.ts"].
Proof.
  assert (Hload :
    ProjectRouter.loadDocsFrom
      ProjectRouter.MAX_RETRIES 0 [] "https://github.com/acme/app"
      (ProjectRouter.tokenOrUndefined None) exampleRepoEnv emptyWorld
    = (Ok (rev exampleRepo),
       extend [EvLoad (GithubLoader.loaderOptions
                         "https://github.com/acme/app" "main" None
                         (Some true))] emptyWorld)) by reflexivity.
  assert (Hdocs : rev exampleRepo <> []) by discriminate.
  destruct (@createProject_priority_order
              exampleRepoEnv emptyWorld _ "p1" "https://github.com/acme/app"
              None (rev exampleRepo) Hload Hdocs)
    as (_ & _ & (w' & E & P) & Hexample & _).
  exists w'. split; [exact E|].
  rewrite P, Hexample; [reflexivity|].
  symmetry. apply Permutation_rev.
Defined.

(* ================================================================== *)
(** ** Keyword mode *)
(* ================================================================== *)

Lemma scoreAfter_lt (a b : FileRecord * Q) :
  QaRoute.scoreAfter a b = true <-> (snd a < snd b)%Q.
Proof.
  unfold QaRoute.scoreAfter. rewrite negb_true_iff.
  split.
  - intros H. apply Qnot_le_lt. intros Hle.
    assert (Hb : Qle_bool (snd b - snd a) 0 = true)
      by (apply Qle_bool_iff; lra).
    congruence.
  - intros H. apply not_true_is_false. intros Hb.
    apply Qle_bool_iff in Hb. lra.
Qed.

Lemma scoreAfter_ge (a b : FileRecord * Q) :
  QaRoute.scoreAfter a b = false <-> (snd b <= snd a)%Q.
Proof.
  split.
  - intros H. apply Qnot_lt_le. intros Hlt.
    apply scoreAfter_lt in Hlt. congruence.
  - intros H. apply not_true_is_false. intros Hb.
    apply scoreAfter_lt in Hb. lra.
Qed.

Lemma scoreAfter_asym a b :
  QaRoute.scoreAfter a b = true -> QaRoute.scoreAfter b a = false.
Proof. rewrite scoreAfter_lt, scoreAfter_ge. lra. Qed.

Lemma score_notAfter_trans a b c :
  JsArray.notAfter QaRoute.scoreAfter a b ->
  JsArray.notAfter QaRoute.scoreAfter b c ->
  JsArray.notAfter QaRoute.scoreAfter a c.
Proof. unfold JsArray.notAfter. rewrite !scoreAfter_ge. lra. Qed.

Lemma bump_weight hit w s :
  (QaRoute.bump hit w s == s + KeywordSpec.weight hit w)%Q.
Proof. destruct hit; simpl; lra. Qed.

Lemma keywordScoreWith_sum words lowerQuestion f :
  (QaRoute.keywordScoreWith words lowerQuestion f
   == KeywordSpec.phraseScore lowerQuestion f
      + KeywordSpec.sumQ (map (KeywordSpec.wordScore f) words))%Q.
Proof.
  unfold QaRoute.keywordScoreWith, KeywordSpec.phraseScore.
  fold (KeywordSpec.lowerSource f).
  set (step := fun (score : Q) (word : string) => _).
  assert (Hfold : forall ws acc,
             (fold_left step ws acc
              == acc + KeywordSpec.sumQ (map (KeywordSpec.wordScore f) ws))%Q).
  { induction ws as [|x ws IH]; intros acc; simpl.
    - lra.
    - rewrite IH. unfold step. cbv beta. rewrite !bump_weight.
      unfold KeywordSpec.wordScore. lra. }
  rewrite Hfold, !bump_weight. lra.
Qed.

(** C5 as stated fails: the route that scores does not exclude stopwords.
    For the question "what is", the word "what" counts: the file named
    "what.ts" scores 2 and is ranked first, whereas with the stopword list
    no word is left, both files score 0 and the file fetched first stays
    first. *)
Lemma keyword_mode_counts_stopwords :
  QaRoute.questionWords (JsString.toLowerCase "what is") = ["what"]
  /\ SimpleQa.questionKeywords "what is" = []
  /\ QaRoute.keywordTopFiles "what is"
       [KeywordSpec.notesFile; KeywordSpec.whatFile]
     = [KeywordSpec.whatFile; KeywordSpec.notesFile]
  /\ KeywordSpec.specKeywordTopFiles "what is"
       [KeywordSpec.notesFile; KeywordSpec.whatFile]
     = [KeywordSpec.notesFile; KeywordSpec.whatFile]
  /\ QaRoute.keywordTopFiles "what is"
       [KeywordSpec.notesFile; KeywordSpec.whatFile]
     <> KeywordSpec.specKeywordTopFiles "what is"
          [KeywordSpec.notesFile; KeywordSpec.whatFile].
Proof.
  assert (E1 : QaRoute.keywordTopFiles "what is"
                 [KeywordSpec.notesFile; KeywordSpec.whatFile]
               = [KeywordSpec.whatFile; KeywordSpec.notesFile])
    by reflexivity.
  assert (E2 : KeywordSpec.specKeywordTopFiles "what is"
                 [KeywordSpec.notesFile; KeywordSpec.whatFile]
               = [KeywordSpec.notesFile; KeywordSpec.whatFile])
    by reflexivity.
  rewrite E1, E2.
  repeat split; discriminate.
Qed.

(** C5 (amended).  Keyword mode takes as words the pieces of the
    lower-cased question between runs of white space that are longer than 3
    characters, stopwords included; the score of a file is 5, 3 and 2 for the
    presence of the whole question in its file name, summary and source
    text, plus 2, 1 and one half for the presence of each word there; the
    files returned are the first 5 of the fetched files arranged by score
    in descending order, files of equal score staying in the order in which
    they were fetched. *)
Theorem keyword_mode_selection (question : string) (files : list FileRecord) :
  let lowerQuestion := JsString.toLowerCase question in
  let words := QaRoute.questionWords lowerQuestion in
  let scored := map (fun f => (f, QaRoute.keywordScore question f)) files in
  let ranked := JsArray.sort QaRoute.scoreAfter scored in
  (forall word,
      In word words <->
      In word (JsString.splitSpaces lowerQuestion)
      /\ (3 < String.length word)%nat)
  /\ (forall f,
         (QaRoute.keywordScore question f
          == KeywordSpec.phraseScore lowerQuestion f
             + KeywordSpec.sumQ (map (KeywordSpec.wordScore f) words))%Q)
  /\ QaRoute.keywordTopFiles question files = map fst (firstn 5 ranked)
  /\ Permutation ranked scored
  /\ (forall i j a b,
         (i < j)%nat -> nth_error ranked i = Some a ->
         nth_error ranked j = Some b -> (snd b <= snd a)%Q)
  /\ (forall s,
         filter (fun x => Qeq_bool (snd x) s) ranked
         = filter (fun x => Qeq_bool (snd x) s) scored)
  /\ List.length (QaRoute.keywordTopFiles question files)
     = Nat.min 5 (List.length files).
Proof.
  intros lowerQuestion words scored ranked.
  split.
  { intros word. unfold words, QaRoute.questionWords.
    rewrite filter_In, Nat.ltb_lt. reflexivity. }
  split; [intros f; apply keywordScoreWith_sum|].
  split; [reflexivity|].
  split; [apply sort_perm|].
  split.
  { intros i j a b Hij Hi Hj. apply scoreAfter_ge.
    exact (StronglySorted_nth
             (sort_strongly_sorted scoreAfter_asym score_notAfter_trans scored)
             Hij Hi Hj). }
  split.
  { intros s. apply sort_filter. intros x y Hx Hy.
    apply Qeq_bool_iff in Hx, Hy. apply scoreAfter_ge. lra. }
  unfold QaRoute.keywordTopFiles.
  rewrite length_map, length_firstn, sort_length, length_map. reflexivity.
Qed.

(* ================================================================== *)
(** ** Semantic mode *)
(* ================================================================== *)

Lemma similarityAfter_lt (a b : FileRecord * R) :
  QaRoute.similarityAfter a b = true <-> (snd a < snd b)%R.
Proof.
  unfold QaRoute.similarityAfter.
  destruct (Rlt_dec 0 (snd b - snd a)); split; intros H;
    first [reflexivity | discriminate | lra].
Qed.

Lemma similarityAfter_ge (a b : FileRecord * R) :
  QaRoute.similarityAfter a b = false <-> (snd b <= snd a)%R.
Proof.
  unfold QaRoute.similarityAfter.
  destruct (Rlt_dec 0 (snd b - snd a)); split; intros H;
    first [reflexivity | discriminate | lra].
Qed.

Lemma similarityAfter_asym a b :
  QaRoute.similarityAfter a b = true -> QaRoute.similarityAfter b a = false.
Proof. rewrite similarityAfter_lt, similarityAfter_ge. lra. Qed.

Lemma similarity_notAfter_trans a b c :
  JsArray.notAfter QaRoute.similarityAfter a b ->
  JsArray.notAfter QaRoute.similarityAfter b c ->
  JsArray.notAfter QaRoute.similarityAfter a c.
Proof. unfold JsArray.notAfter. rewrite !similarityAfter_ge. lra. Qed.

(** A file without a usable vector has similarity -1. *)
Lemma similarity_invalid q f :
  QaRoute.hasValidVector q f = false -> QaRoute.similarity q f = (-1)%R.
Proof.
  unfold QaRoute.hasValidVector, QaRoute.similarity.
  destruct (embedding f) as [e|]; [|reflexivity].
  intros ->. reflexivity.
Qed.

Lemma semanticRanking_In q files x sx :
  In (x, sx) (QaRoute.semanticRanking q files) ->
  In x files /\ sx = QaRoute.similarity q x.
Proof.
  unfold QaRoute.semanticRanking. rewrite sort_In, in_map_iff.
  intros (f & E & Hf). injection E as -> <-. now split.
Qed.

(* ================================================================== *)
(** ** Binary64 numbers: the sign of a difference and the order *)
(* ================================================================== *)

(** The comparison function of the semantic mode subtracts two
    similarities.  What follows shows, on the specification of binary64
    arithmetic, that for numbers that are not NaN the difference [b - a] is
    positive exactly when [a] is below [b], and that the numbers that are
    not NaN are totally preordered. *)

Section Binary64.

Local Open Scope Z_scope.

Lemma digits2_pos_bounds m :
  2 ^ (Zpos (digits2_pos m) - 1) <= Zpos m < 2 ^ Zpos (digits2_pos m).
Proof.
  induction m as [m IH|m IH|]; cbn [digits2_pos].
  - rewrite Pos2Z.inj_succ, (Pos2Z.inj_xI m).
    replace (Z.succ (Zpos (digits2_pos m)) - 1)
      with (Z.succ (Zpos (digits2_pos m) - 1)) by lia.
    rewrite !Z.pow_succ_r by lia.
    set (a := 2 ^ (Zpos (digits2_pos m) - 1)) in *.
    set (b := 2 ^ Zpos (digits2_pos m)) in *. clearbody a b. lia.
  - rewrite Pos2Z.inj_succ, (Pos2Z.inj_xO m).
    replace (Z.succ (Zpos (digits2_pos m)) - 1)
      with (Z.succ (Zpos (digits2_pos m) - 1)) by lia.
    rewrite !Z.pow_succ_r by lia.
    set (a := 2 ^ (Zpos (digits2_pos m) - 1)) in *.
    set (b := 2 ^ Zpos (digits2_pos m)) in *. clearbody a b. lia.
  - cbn. lia.
Qed.

Lemma iter_xO m d : Zpos (Pos.iter xO m d) = Zpos m * 2 ^ Zpos d.
Proof.
  induction d as [|d IH] using Pos.peano_ind.
  - cbn. lia.
  - rewrite Pos.iter_succ, (Pos2Z.inj_xO (Pos.iter xO m d)), IH, Pos2Z.inj_succ,
      Z.pow_succ_r by lia.
    lia.
Qed.

Lemma shl_align_value mx ex ez :
  ez <= ex -> Zpos (fst (shl_align mx ex ez)) = Zpos mx * 2 ^ (ex - ez).
Proof.
  intros H. unfold shl_align.
  destruct (ez - ex) as [|d|d] eqn:E.
  - replace (ex - ez) with 0 by lia. cbn [fst]. lia.
  - lia.
  - cbn [fst]. rewrite iter_xO. f_equal. f_equal. lia.
Qed.

Lemma shl_align_exponent mx ex ez :
  snd (shl_align mx ex ez) = Z.min ex ez.
Proof.
  unfold shl_align. destruct (ez - ex) as [|d|d] eqn:E; cbn [snd]; lia.
Qed.

(** Right shifts keep a positive mantissa positive as long as fewer bits
    are dropped than the mantissa has. *)
Lemma shr_1_m mrs : 0 <= shr_m mrs -> shr_m (shr_1 mrs) = shr_m mrs / 2.
Proof.
  destruct mrs as [m r s]. cbn [shr_m shr_1]. intros Hm.
  destruct m as [|[p|p|]|p]; cbn [shr_m]; try lia;
    first [reflexivity
          |apply Z.div_unique with 1; lia
          |apply Z.div_unique with 0; lia].
Qed.

Lemma iter_shr_1_m p : forall mrs,
  0 <= shr_m mrs -> shr_m (SpecFloat.iter_pos shr_1 p mrs) = shr_m mrs / 2 ^ Zpos p.
Proof.
  induction p as [p IH|p IH|]; intros mrs Hm; cbn [SpecFloat.iter_pos].
  - assert (H1 : 0 <= shr_m (shr_1 mrs))
      by (rewrite shr_1_m by lia; apply Z.div_pos; lia).
    assert (H2 : 0 <= shr_m (SpecFloat.iter_pos shr_1 p (shr_1 mrs)))
      by (rewrite IH by lia; apply Z.div_pos; lia).
    rewrite IH, IH, shr_1_m by lia.
    rewrite !Z.div_div by lia.
    f_equal. rewrite (Pos2Z.inj_xI p).
    replace (2 * Zpos p + 1) with (1 + Zpos p + Zpos p) by lia.
    rewrite !Z.pow_add_r by lia. lia.
  - assert (H2 : 0 <= shr_m (SpecFloat.iter_pos shr_1 p mrs))
      by (rewrite IH by lia; apply Z.div_pos; lia).
    rewrite IH, IH by lia. rewrite Z.div_div by lia.
    f_equal. rewrite (Pos2Z.inj_xO p).
    replace (2 * Zpos p) with (Zpos p + Zpos p) by lia.
    rewrite Z.pow_add_r by lia. lia.
  - rewrite shr_1_m by lia. reflexivity.
Qed.

Local Abbreviation emin64 := (-1074)%Z.

Lemma fexp_ge e : emin64 <= fexp prec emax e.
Proof. unfold fexp, SpecFloat.emin, prec, emax. lia. Qed.

Lemma shr_fexp_pos m e l :
  0 < m -> emin64 <= e ->
  0 < shr_m (fst (shr_fexp prec emax m e l))
  /\ emin64 <= snd (shr_fexp prec emax m e l).
Proof.
  intros Hm He. unfold shr_fexp, shr.
  destruct m as [|p|p]; try lia. cbn [Zdigits2].
  pose proof (digits2_pos_bounds p) as Hd.
  set (d := Zpos (digits2_pos p)) in *.
  assert (Hs : shr_m (shr_record_of_loc (Zpos p) l) = Zpos p)
    by (destruct l as [|[]]; reflexivity).
  destruct (fexp prec emax (d + e) - e) as [|n|n] eqn:E; cbn [fst snd].
  - rewrite Hs. lia.
  - rewrite iter_shr_1_m by (rewrite Hs; lia). rewrite Hs.
    unfold fexp, SpecFloat.emin, prec, emax in E.
    assert (Hn : Zpos n = d - 53) by lia.
    split; [|lia].
    apply Z.div_str_pos. split; [lia|].
    apply Z.le_trans with (2 ^ (d - 1)); [|lia].
    apply Z.pow_le_mono_r; lia.
  - rewrite Hs. lia.
Qed.

Lemma round_nearest_even_pos m l : 0 < m -> 0 < round_nearest_even m l.
Proof.
  intros H. unfold round_nearest_even.
  destruct l as [|[]]; try lia. destruct (Z.even m); lia.
Qed.

(** Rounding a positive integer multiple of a power of two, of an exponent
    that is not below the least one, gives a number of the same sign that
    is not zero. *)
Lemma binary_round_aux_signed s m e l :
  0 < m -> emin64 <= e -> Binary64.signed s (binary_round_aux prec emax s m e l).
Proof.
  intros Hm He. unfold binary_round_aux.
  pose proof (@shr_fexp_pos m e l Hm He) as [H1 H1e].
  destruct (shr_fexp prec emax m e l) as [mrs' e'] eqn:E1. cbn [fst snd] in *.
  pose proof (@round_nearest_even_pos _ (loc_of_shr_record mrs') H1) as H2.
  pose proof (@shr_fexp_pos _ e' loc_Exact H2 H1e) as [H3 _].
  destruct (shr_fexp prec emax _ e' loc_Exact) as [mrs'' e''] eqn:E2.
  cbn [fst snd] in *.
  destruct (shr_m mrs'') as [|q|q]; try lia.
  destruct (e'' <=? emax - prec); reflexivity.
Qed.

Lemma binary_round_signed s m e :
  emin64 <= e -> Binary64.signed s (binary_round prec emax s m e).
Proof.
  intros He. unfold binary_round.
  pose proof (shl_align_exponent m e (fexp prec emax (Zpos (digits2_pos m) + e)))
    as Hx.
  destruct (shl_align m e _) as [mz ez] eqn:E. cbn [snd] in Hx.
  apply binary_round_aux_signed; [lia|].
  pose proof (fexp_ge (Zpos (digits2_pos m) + e)). lia.
Qed.

Lemma binary_round_negative m e :
  SFltb (S754_zero false) (binary_round prec emax true m e) = false.
Proof.
  unfold binary_round, binary_round_aux.
  destruct (shl_align m e _) as [mz ez].
  destruct (shr_fexp prec emax (Zpos mz) ez loc_Exact) as [mrs' e'].
  destruct (shr_fexp prec emax _ e' loc_Exact) as [mrs'' e''].
  destruct (shr_m mrs'') as [|q|q]; try reflexivity.
  destruct (e'' <=? emax - prec); reflexivity.
Qed.

Lemma bounded_canonical m e :
  SpecFloat.bounded prec emax m e = true ->
  Z.max (Zpos (digits2_pos m) + e - 53) emin64 = e.
Proof.
  unfold SpecFloat.bounded, canonical_mantissa, fexp, SpecFloat.emin, prec, emax.
  intros H. apply andb_true_iff in H. destruct H as [H _].
  apply Z.eqb_eq in H. exact H.
Qed.

(** Two canonical mantissas, brought to the lesser of their exponents,
    compare as the numbers do: by the exponent first. *)
Lemma aligned_compare m1 e1 m2 e2 :
  SpecFloat.bounded prec emax m1 e1 = true -> SpecFloat.bounded prec emax m2 e2 = true ->
  Z.compare (Zpos (fst (shl_align m1 e1 (Z.min e1 e2))))
            (Zpos (fst (shl_align m2 e2 (Z.min e1 e2))))
  = match Z.compare e1 e2 with
    | Lt => Lt
    | Gt => Gt
    | Eq => Pos.compare_cont Eq m1 m2
    end.
Proof.
  intros B1 B2.
  apply bounded_canonical in B1, B2.
  pose proof (digits2_pos_bounds m1) as D1.
  pose proof (digits2_pos_bounds m2) as D2.
  rewrite !shl_align_value by lia.
  destruct (Z.compare_spec e1 e2) as [E|E|E].
  - subst e2. rewrite Z.min_id, Z.sub_diag, !Z.mul_1_r. reflexivity.
  - rewrite Z.min_l by lia. rewrite Z.sub_diag, Z.mul_1_r.
    apply Z.compare_lt_iff.
    assert (Hd2 : Zpos (digits2_pos m2) = 53) by lia.
    assert (Hd1 : Zpos (digits2_pos m1) <= 53) by lia.
    rewrite Hd2 in D2.
    assert (H1 : Zpos m1 < 2 ^ 53).
    { apply Z.lt_le_trans with (2 ^ Zpos (digits2_pos m1)); [lia|].
      apply Z.pow_le_mono_r; lia. }
    assert (H2 : 2 ^ 1 <= 2 ^ (e2 - e1)) by (apply Z.pow_le_mono_r; lia).
    change (2 ^ (53 - 1)) with 4503599627370496 in D2.
    change (2 ^ 53) with 9007199254740992 in H1.
    change (2 ^ 1) with 2 in H2. nia.
  - rewrite Z.min_r by lia. rewrite Z.sub_diag, Z.mul_1_r.
    apply Z.compare_gt_iff.
    assert (Hd1 : Zpos (digits2_pos m1) = 53) by lia.
    assert (Hd2 : Zpos (digits2_pos m2) <= 53) by lia.
    rewrite Hd1 in D1.
    assert (H1 : Zpos m2 < 2 ^ 53).
    { apply Z.lt_le_trans with (2 ^ Zpos (digits2_pos m2)); [lia|].
      apply Z.pow_le_mono_r; lia. }
    assert (H2 : 2 ^ 1 <= 2 ^ (e1 - e2)) by (apply Z.pow_le_mono_r; lia).
    change (2 ^ (53 - 1)) with 4503599627370496 in D1.
    change (2 ^ 53) with 9007199254740992 in H1.
    change (2 ^ 1) with 2 in H2. nia.
Qed.

Lemma binary_normalize_sign z e :
  emin64 <= e ->
  SFltb (S754_zero false) (binary_normalize prec emax z e false) = (0 <? z).
Proof.
  intros He. destruct z as [|p|p]; cbn [binary_normalize].
  - reflexivity.
  - pose proof (@binary_round_signed false p e He) as H.
    destruct (binary_round prec emax false p e) as [s|s| |s m' e'];
      cbn [Binary64.signed] in H; try contradiction; subst; reflexivity.
  - apply binary_round_negative.
Qed.

(** The sign of a difference: for numbers that are not NaN, [y - x] is
    positive exactly when [x] is below [y]. *)
Lemma SFsub_positive x y :
  valid_binary x = true -> valid_binary y = true ->
  x <> S754_nan -> y <> S754_nan ->
  SFltb (S754_zero false) (SF64sub y x) = SFltb x y.
Proof.
  intros Vx Vy Nx Ny.
  destruct x as [sx|sx| |sx mx ex], y as [sy|sy| |sy my ey];
    try congruence;
    try (destruct sx, sy; reflexivity);
    try (destruct sx; reflexivity);
    try (destruct sy; reflexivity).
  cbn [valid_binary] in Vx, Vy.
  unfold SF64sub, SFsub.
  pose proof (@bounded_canonical _ _ Vx) as Cx.
  pose proof (@bounded_canonical _ _ Vy) as Cy.
  rewrite binary_normalize_sign by lia.
  pose proof (@aligned_compare _ _ _ _ Vx Vy) as H.
  rewrite (Z.min_comm ex ey) in H.
  unfold SFltb, SFcompare.
  set (X := Zpos (fst (shl_align mx ex (Z.min ey ex)))) in *.
  set (Y := Zpos (fst (shl_align my ey (Z.min ey ex)))) in *.
  assert (HX : 0 < X) by (subst X; lia).
  assert (HY : 0 < Y) by (subst Y; lia).
  destruct sx, sy; cbn [cond_Zopp].
  - replace (match ex ?= ey with
             | Eq => CompOpp (Pos.compare_cont Eq mx my)
             | Lt => Gt
             | Gt => Lt
             end)
      with (CompOpp (X ?= Y))
      by (rewrite H; destruct (ex ?= ey); reflexivity).
    destruct (Z.compare_spec X Y) as [E|E|E]; cbn [CompOpp];
      [apply Z.ltb_ge|apply Z.ltb_ge|apply Z.ltb_lt]; lia.
  - apply Z.ltb_lt. lia.
  - apply Z.ltb_ge. lia.
  - rewrite <- H.
    destruct (Z.compare_spec X Y) as [E|E|E];
      [apply Z.ltb_ge|apply Z.ltb_lt|apply Z.ltb_ge]; lia.
Qed.

(** The order of the numbers that are not NaN. *)
Ltac by_compare :=
  repeat match goal with
         | H : context [Pos.compare_cont Eq ?a ?b] |- _ =>
             change (Pos.compare_cont Eq a b) with (Pos.compare a b) in H
         | |- context [Pos.compare_cont Eq ?a ?b] =>
             change (Pos.compare_cont Eq a b) with (Pos.compare a b)
         end;
  repeat match goal with
         | H : context [Z.compare ?a ?b] |- _ =>
             destruct (Z.compare_spec a b)
         | |- context [Z.compare ?a ?b] =>
             destruct (Z.compare_spec a b)
         | H : context [Pos.compare ?a ?b] |- _ =>
             destruct (Pos.compare_spec a b)
         | |- context [Pos.compare ?a ?b] =>
             destruct (Pos.compare_spec a b)
         end;
  cbn [CompOpp] in *; try discriminate; try reflexivity; try lia.

Lemma SFltb_asym x y : SFltb x y = true -> SFltb y x = false.
Proof.
  unfold SFltb, SFcompare.
  destruct x as [sx|sx| |sx mx ex], y as [sy|sy| |sy my ey];
    try destruct sx; try destruct sy; try discriminate; try reflexivity;
    intros H; by_compare.
Qed.

Lemma SFltb_negtrans x y z :
  y <> S754_nan ->
  SFltb x y = false -> SFltb y z = false -> SFltb x z = false.
Proof.
  unfold SFltb, SFcompare. intros Ny.
  destruct x as [sx|sx| |sx mx ex], y as [sy|sy| |sy my ey],
           z as [sz|sz| |sz mz ez];
    try congruence;
    try destruct sx; try destruct sy; try destruct sz;
    try discriminate; try reflexivity;
    intros H1 H2; by_compare.
Qed.

Lemma SFeqb_not_ltb a b s :
  SFeqb a s = true -> SFeqb b s = true -> SFltb a b = false.
Proof.
  unfold SFeqb, SFltb, SFcompare.
  destruct a as [sa|sa| |sa ma ea], b as [sb|sb| |sb mb eb],
           s as [ss|ss| |ss ms es];
    try destruct sa; try destruct sb; try destruct ss;
    try discriminate; try reflexivity;
    intros H1 H2; by_compare.
Qed.

Lemma Prim2SF_not_nan (x : float) :
  PrimFloat.is_nan x = false -> Prim2SF x <> S754_nan.
Proof.
  intros H. unfold Prim2SF. rewrite H.
  destruct (is_zero x); [discriminate|].
  destruct (is_infinity x); [discriminate|].
  destruct (Z.frexp x) as [r e].
  destruct (shr_fexp prec emax _ _ loc_Exact) as [mrs e'].
  destruct (shr_m mrs); discriminate.
Qed.

(** [b - a] is positive exactly when [a] is below [b], for numbers that are
    not NaN. *)
Lemma ltb_sub (a b : float) :
  PrimFloat.is_nan a = false -> PrimFloat.is_nan b = false ->
  (0 <? b - a)%float = (a <? b)%float.
Proof.
  intros Ha Hb. rewrite !FloatAxioms.ltb_spec, FloatAxioms.sub_spec.
  change (Prim2SF 0%float) with (S754_zero false).
  apply SFsub_positive; auto using Prim2SF_valid, Prim2SF_not_nan.
Qed.

Lemma ltb_asym (a b : float) :
  (a <? b)%float = true -> (b <? a)%float = false.
Proof. rewrite !FloatAxioms.ltb_spec. apply SFltb_asym. Qed.

Lemma ltb_negtrans (a b c : float) :
  PrimFloat.is_nan b = false ->
  (a <? b)%float = false -> (b <? c)%float = false -> (a <? c)%float = false.
Proof.
  intros Hb. rewrite !FloatAxioms.ltb_spec. apply SFltb_negtrans.
  now apply Prim2SF_not_nan.
Qed.

Lemma eqb_true_not_nan (a s : float) :
  (a =? s)%float = true -> PrimFloat.is_nan a = false.
Proof.
  unfold PrimFloat.is_nan. rewrite !FloatAxioms.eqb_spec.
  unfold SFeqb, SFcompare. intros H. apply negb_false_iff.
  destruct (Prim2SF a) as [[]|[]| |[] ? ?], (Prim2SF s);
    try discriminate; try reflexivity;
    rewrite ?Z.compare_refl, ?Pos.compare_cont_refl; reflexivity.
Qed.

Lemma eqb_not_ltb (a b s : float) :
  (a =? s)%float = true -> (b =? s)%float = true -> (a <? b)%float = false.
Proof. rewrite !FloatAxioms.eqb_spec, FloatAxioms.ltb_spec. apply SFeqb_not_ltb. Qed.


End Binary64.

(* ================================================================== *)
(** ** The ranking of the semantic mode *)
(* ================================================================== *)

Lemma is_finite_not_nan (x : float) :
  PrimFloat.is_finite x = true -> PrimFloat.is_nan x = false.
Proof.
  unfold PrimFloat.is_finite. intros H.
  apply negb_true_iff, orb_false_iff in H. tauto.
Qed.

Lemma semantic_after_ltb (a b : SemanticMode.File * float) :
  PrimFloat.is_nan (snd a) = false -> PrimFloat.is_nan (snd b) = false ->
  SemanticMode.similarityAfter a b = (snd a <? snd b)%float.
Proof. intros Ha Hb. now apply ltb_sub. Qed.

Lemma semantic_after_asym (a b : SemanticMode.File * float) :
  PrimFloat.is_finite (snd a) = true -> PrimFloat.is_finite (snd b) = true ->
  SemanticMode.similarityAfter a b = true ->
  SemanticMode.similarityAfter b a = false.
Proof.
  intros Ha Hb. apply is_finite_not_nan in Ha, Hb.
  rewrite !semantic_after_ltb by assumption. apply ltb_asym.
Qed.

Lemma semantic_notAfter_trans (a b c : SemanticMode.File * float) :
  PrimFloat.is_finite (snd a) = true -> PrimFloat.is_finite (snd b) = true ->
  PrimFloat.is_finite (snd c) = true ->
  JsArray.notAfter SemanticMode.similarityAfter a b ->
  JsArray.notAfter SemanticMode.similarityAfter b c ->
  JsArray.notAfter SemanticMode.similarityAfter a c.
Proof.
  intros Ha Hb Hc. apply is_finite_not_nan in Ha, Hb, Hc.
  unfold JsArray.notAfter. rewrite !semantic_after_ltb by assumption.
  now apply ltb_negtrans.
Qed.

(** A file without a usable vector has similarity -1. *)
Lemma semantic_similarity_invalid q f :
  SemanticMode.hasValidVector q f = false ->
  SemanticMode.similarity q f = (-1)%float.
Proof.
  unfold SemanticMode.hasValidVector, SemanticMode.similarity.
  destruct (SemanticMode.embedding f) as [e|]; [|reflexivity].
  intros ->. reflexivity.
Qed.

Lemma semantic_ranking_In q files x sx :
  In (x, sx) (SemanticMode.semanticRanking q files) ->
  In x files /\ sx = SemanticMode.similarity q x.
Proof.
  unfold SemanticMode.semanticRanking. rewrite sort_In, in_map_iff.
  intros (f & E & Hf). injection E as -> <-. now split.
Qed.

Lemma semantic_reduce_zeros (f : float -> float -> nat -> float) acc :
  (forall i, f acc 0%float i = acc) ->
  forall n i, SemanticMode.reduceFrom f i (repeat 0%float n) acc = acc.
Proof.
  intros Hf. induction n as [|n IH]; intros i; simpl; [reflexivity|].
  now rewrite Hf, IH.
Qed.

(** A vector that is zero everywhere has norm 0, so a file that stores one
    is given similarity -1, as a file without a vector is. *)
Lemma semantic_similarity_zeros q f n :
  SemanticMode.embedding f = Some (repeat 0%float n) ->
  SemanticMode.similarity q f = (-1)%float.
Proof.
  intros E. unfold SemanticMode.similarity. rewrite E.
  destruct (negb _); [reflexivity|].
  unfold SemanticMode.norm at 1.
  rewrite semantic_reduce_zeros by reflexivity.
  reflexivity.
Qed.

(** C6 as stated fails: a file with a valid vector can itself have
    similarity -1 (here a vector that is zero everywhere, whose norm is 0),
    and the sort, being stable, then leaves a file without a vector that was
    fetched earlier above it. *)
Lemma missing_vector_ranked_above_zero_vector :
  SemanticMode.hasValidVector SemanticMode.questionVector
                              SemanticMode.noVectorFile = false
  /\ SemanticMode.hasValidVector SemanticMode.questionVector
                                 SemanticMode.zeroVectorFile = true
  /\ SemanticMode.similarity SemanticMode.questionVector
                             SemanticMode.zeroVectorFile = (-1)%float
  /\ SemanticMode.semanticTopFiles
       SemanticMode.questionVector
       [SemanticMode.noVectorFile; SemanticMode.zeroVectorFile]
     = [SemanticMode.noVectorFile; SemanticMode.zeroVectorFile].
Proof. repeat split; vm_compute; reflexivity. Qed.

(** What rounding does to the cosine: a vector compared with itself can
    score above 1 and with its opposite below -1, while a multiple of it
    scores 1; sums that overflow give a similarity that is NaN. *)
Remark semantic_rounding_samples :
  let file v := SemanticMode.mkFile 0 "a.ts" "A." None (Some v) in
  SemanticMode.similarity [1; 1; 1]%float (file [1; 1; 1]%float)
  = 0x1.0000000000001p+0%float
  /\ SemanticMode.similarity [1; 1; 1]%float (file [3; 3; 3]%float)
     = 1%float
  /\ SemanticMode.similarity [1; 1; 1]%float (file [-1; -1; -1]%float)
     = (- 0x1.0000000000001p+0)%float
  /\ PrimFloat.is_nan
       (SemanticMode.similarity [0x1p+700; 0x1p+700]%float
                                (file [0x1p+700; 0x1p+700]%float))
     = true.
Proof. repeat split; vm_compute; reflexivity. Qed.

(** Why the similarities have to be finite: a similarity that is NaN makes
    every difference NaN, so the comparison function ties that file with
    a file of similarity -1 and with a file of similarity 1, while it
    places the first of these after the second.  Such a comparison is not
    consistent, and the language leaves the order of the sorted array
    open. *)
Remark nan_similarity_ties_with_all (a b c : SemanticMode.File) :
  let x := (a, (-1)%float) in
  let y := (b, PrimFloat.nan) in
  let z := (c, 1%float) in
  JsArray.tied SemanticMode.similarityAfter x y = true
  /\ JsArray.tied SemanticMode.similarityAfter y z = true
  /\ SemanticMode.similarityAfter x z = true.
Proof. repeat split. Qed.

(** C6 (amended).  In semantic mode every stored file whose vector is
    missing or of another length than the question's is given similarity
    -1, and so is a file whose vector is zero everywhere.  When every
    similarity is a finite number, a file without a usable vector is ranked
    below every file whose similarity is greater than -1 (a file with a
    valid vector, then); so when such a file is among the 5 selected, every
    file of greater similarity is selected before it.  Files of equal
    similarity, at -1 in particular, stay in the order in which they were
    fetched. *)
Theorem semantic_mode_missing_vector_below
    (q : list float) (files : list SemanticMode.File) (i j : nat)
    (x y : SemanticMode.File) (sx sy : float)
    (Hfinite : SemanticMode.finiteSimilarities q files)
    (Hi : nth_error (SemanticMode.semanticRanking q files) i = Some (x, sx))
    (Hj : nth_error (SemanticMode.semanticRanking q files) j = Some (y, sy))
    (Hx : SemanticMode.hasValidVector q x = false)
    (Hy : (-1 <? sy)%float = true) :
  sx = (-1)%float
  /\ sy = SemanticMode.similarity q y
  /\ SemanticMode.hasValidVector q y = true
  /\ (j < i)%nat
  /\ ((i < 5)%nat ->
      nth_error (SemanticMode.semanticTopFiles q files) j = Some y
      /\ nth_error (SemanticMode.semanticTopFiles q files) i = Some x)
  /\ (forall s,
         filter (SemanticMode.hasSimilarity s)
                (SemanticMode.semanticRanking q files)
         = filter (SemanticMode.hasSimilarity s)
                  (map (fun f => (f, SemanticMode.similarity q f)) files))
  /\ (forall f n, SemanticMode.embedding f = Some (repeat 0%float n) ->
                  SemanticMode.similarity q f = (-1)%float).
Proof.
  pose proof (semantic_ranking_In _ _ _ _ (nth_error_In _ _ Hi)) as [Fx Esx].
  pose proof (semantic_ranking_In _ _ _ _ (nth_error_In _ _ Hj)) as [Fy Esy].
  assert (Hsx : sx = (-1)%float)
    by (rewrite Esx; now apply semantic_similarity_invalid).
  assert (Hvalid : SemanticMode.hasValidVector q y = true).
  { destruct (SemanticMode.hasValidVector q y) eqn:E; [reflexivity|].
    apply semantic_similarity_invalid in E.
    rewrite Esy, E in Hy. discriminate Hy. }
  assert (Hall : Forall (fun p : SemanticMode.File * float =>
                           PrimFloat.is_finite (snd p) = true)
                        (map (fun f => (f, SemanticMode.similarity q f))
                             files)).
  { apply Forall_forall. intros p Hp. apply in_map_iff in Hp.
    destruct Hp as (f & <- & Hf). cbn [snd]. now apply Hfinite. }
  assert (Nx : PrimFloat.is_nan sx = false) by (now rewrite Hsx).
  assert (Ny : PrimFloat.is_nan sy = false)
    by (apply is_finite_not_nan; rewrite Esy; now apply Hfinite).
  assert (Hji : (j < i)%nat).
  { destruct (Nat.lt_trichotomy i j) as [H|[H|H]]; [exfalso|exfalso|assumption].
    - pose proof (StronglySorted_nth
                    (sort_strongly_sorted_on
                       (P := fun p : SemanticMode.File * float =>
                               PrimFloat.is_finite (snd p) = true)
                       semantic_after_asym semantic_notAfter_trans Hall)
                    H Hi Hj) as Hxy.
      unfold JsArray.notAfter in Hxy.
      rewrite semantic_after_ltb in Hxy by assumption. cbn [snd] in Hxy.
      rewrite Hsx in Hxy. congruence.
    - subst j. rewrite Hi in Hj. injection Hj as _ E.
      rewrite <- E, Hsx in Hy. discriminate Hy. }
  split; [assumption|]. split; [assumption|]. split; [assumption|].
  split; [assumption|]. split; [|split].
  - intros Hi5. unfold SemanticMode.semanticTopFiles.
    rewrite !nth_error_map, !nth_error_firstn_lt by lia.
    now rewrite Hi, Hj.
  - intros s. apply sort_filter. intros a b Ha Hb.
    unfold SemanticMode.hasSimilarity in Ha, Hb.
    rewrite semantic_after_ltb by (eapply eqb_true_not_nan; eassumption).
    exact (@eqb_not_ltb _ _ _ Ha Hb).
  - intros f n. apply semantic_similarity_zeros.
Qed.

Lemma semantic_mode_missing_vector_below_witness :
  (0 < 1)%nat
  /\ nth_error (SemanticMode.semanticTopFiles
                  SemanticMode.questionVector
                  [SemanticMode.noVectorFile; SemanticMode.sameVectorFile]) 0
     = Some SemanticMode.sameVectorFile
  /\ nth_error (SemanticMode.semanticTopFiles
                  SemanticMode.questionVector
                  [SemanticMode.noVectorFile; SemanticMode.sameVectorFile]) 1
     = Some SemanticMode.noVectorFile.
Proof.
  assert (Hfinite : SemanticMode.finiteSimilarities
                      SemanticMode.questionVector
                      [SemanticMode.noVectorFile;
                       SemanticMode.sameVectorFile]).
  { intros f [<-|[<-|[]]]; vm_compute; reflexivity. }
  assert (Hi : nth_error (SemanticMode.semanticRanking
                            SemanticMode.questionVector
                            [SemanticMode.noVectorFile;
                             SemanticMode.sameVectorFile]) 1
               = Some (SemanticMode.noVectorFile, (-1)%float))
    by (vm_compute; reflexivity).
  assert (Hj : nth_error (SemanticMode.semanticRanking
                            SemanticMode.questionVector
                            [SemanticMode.noVectorFile;
                             SemanticMode.sameVectorFile]) 0
               = Some (SemanticMode.sameVectorFile, 1%float))
    by (vm_compute; reflexivity).
  assert (Hx : SemanticMode.hasValidVector SemanticMode.questionVector
                                           SemanticMode.noVectorFile = false)
    by reflexivity.
  assert (Hy : (-1 <? 1)%float = true) by reflexivity.
  destruct (@semantic_mode_missing_vector_below _ _ _ _ _ _ _ _
              Hfinite Hi Hj Hx Hy)
    as (_ & _ & _ & Hlt & Htop & _).
  split; [exact Hlt|]. apply Htop. lia.
Defined.

(* ================================================================== *)
(** ** The rows fetched for a question *)
(* ================================================================== *)

Lemma In_firstn {A} (x : A) n l : In x (firstn n l) -> In x l.
Proof.
  intros H. rewrite <- (firstn_skipn n l). apply in_or_app. now left.
Qed.

Lemma keywordTopFiles_In question files f :
  In f (QaRoute.keywordTopFiles question files) -> In f files.
Proof.
  unfold QaRoute.keywordTopFiles. rewrite in_map_iff.
  intros ([g s] & <- & Hin). apply In_firstn in Hin.
  apply sort_In in Hin. apply in_map_iff in Hin.
  destruct Hin as (f' & E & Hf'). now injection E as <- _.
Qed.

(** C10.  In keyword mode the route fetches the first 10 rows of the
    project and scores those only: every file it returns is one of them, so
    a row fetched later is never returned, however well it matches; in
    semantic mode all the rows of the project are fetched. *)
Theorem keyword_mode_fetches_ten
    (env : Env) (w : World) (question projectId : string) :
  let rows := filter (fun r => String.eqb (file_projectId r) projectId)
                     (files w) in
  QaRoute.fetchFiles projectId false env w = (Ok (firstn 10 rows), w)
  /\ QaRoute.fetchFiles projectId true env w = (Ok rows, w)
  /\ (List.length (firstn 10 rows) <= 10)%nat
  /\ QaRoute.selectTopFiles question false (firstn 10 rows) env w
     = (Ok (QaRoute.keywordTopFiles question (firstn 10 rows)), w)
  /\ (forall f,
         In f (QaRoute.keywordTopFiles question (firstn 10 rows)) ->
         exists i, (i < 10)%nat /\ nth_error rows i = Some f)
  /\ exists response w',
      QaRoute.POST question projectId false env w = (Ok response, w')
      /\ forall answer references,
          response = QaRoute.Answered answer references ->
          Forall (fun r => exists f i,
                      (i < 10)%nat /\ nth_error rows i = Some f
                      /\ r = QaRoute.reference f)
                 references.
Proof.
  intros rows.
  assert (Hten : forall f,
             In f (QaRoute.keywordTopFiles question (firstn 10 rows)) ->
             exists i, (i < 10)%nat /\ nth_error rows i = Some f).
  { intros f Hf. apply keywordTopFiles_In in Hf.
    apply In_nth_error in Hf. destruct Hf as [i Hi].
    apply nth_error_firstn_some in Hi. now exists i. }
  split; [reflexivity|]. split; [reflexivity|].
  split; [rewrite length_firstn; lia|].
  split; [reflexivity|]. split; [exact Hten|].
  unfold QaRoute.POST, tryCatch.
  destruct (negb (JsString.truthy question)
            || negb (JsString.truthy projectId)).
  { do 2 eexists. split; [reflexivity|]. intros a r E. discriminate. }
  unfold bind at 1.
  change (QaRoute.fetchFiles projectId false env w)
    with (Ok (firstn 10 rows), w).
  cbv beta iota.
  destruct (List.length (firstn 10 rows) =? 0)%nat.
  { do 2 eexists. split; [reflexivity|].
    intros a r E. injection E as _ <-. constructor. }
  unfold bind, QaRoute.selectTopFiles, ret, tryCatch,
    Gemini.callGenerateContent.
  match goal with
  | |- context [generateContent env ?n ?p] =>
      destruct (generateContent env n p) as [answer|msg]
  end.
  - do 2 eexists. split; [reflexivity|].
    intros a r E. injection E as _ <-.
    apply Forall_forall. intros r Hr. apply in_map_iff in Hr.
    destruct Hr as (f & <- & Hf). destruct (Hten f Hf) as (i & Hi & Hn).
    now exists f, i.
  - do 2 eexists. split; [reflexivity|].
    intros a r E. injection E as _ <-.
    apply Forall_forall. intros r Hr. apply in_map_iff in Hr.
    destruct Hr as (f & <- & Hf). destruct (Hten f Hf) as (i & Hi & Hn).
    now exists f, i.
Qed.

(** The eleventh row of a project is not returned in keyword mode, though
    it is the only row that matches the question. *)
Lemma eleventh_row_not_returned :
  nth_error (files ElevenFiles.world) 10 = Some ElevenFiles.billingFile
  /\ QaRoute.keywordTopFiles "billing" [ElevenFiles.billingFile]
     = [ElevenFiles.billingFile]
  /\ fst (bind (QaRoute.fetchFiles "p1" false)
               (QaRoute.selectTopFiles "billing" false)
               failingEnv ElevenFiles.world)
     = Ok (map ElevenFiles.plain (seq 0 5))
  /\ ~ In ElevenFiles.billingFile (map ElevenFiles.plain (seq 0 5)).
Proof.
  split; [reflexivity|]. split; [reflexivity|]. split; [reflexivity|].
  cbn. intros H. repeat (destruct H as [H|H]; [discriminate|]). exact H.
Qed.

(* ================================================================== *)
(** ** The commit puller *)
(* ================================================================== *)

Section Emits.

Context {A B : Type}.
Variable allowed : Event -> Prop.

Lemma emits_ret (a : A) : emits allowed (ret a).
Proof.
  intros env w. exists (Ok a), []. now rewrite extend_nil.
Qed.

Lemma emits_bind (m : M A) (k : A -> M B) :
  emits allowed m -> (forall a, emits allowed (k a)) ->
  emits allowed (bind m k).
Proof.
  intros Hm Hk env w. unfold bind.
  destruct (Hm env w) as ([a|msg] & t & -> & Ht).
  - destruct (Hk a env (extend t w)) as (r & t' & -> & Ht').
    exists r, (t ++ t'). rewrite extend_extend. split; [reflexivity|].
    now apply Forall_app.
  - now exists (Thrown msg), t.
Qed.

Lemma emits_tryCatch (m : M A) (h : string -> M A) :
  emits allowed m -> (forall msg, emits allowed (h msg)) ->
  emits allowed (tryCatch m h).
Proof.
  intros Hm Hh env w. unfold tryCatch.
  destruct (Hm env w) as ([a|msg] & t & -> & Ht).
  - now exists (Ok a), t.
  - destruct (Hh msg env (extend t w)) as (r & t' & -> & Ht').
    exists r, (t ++ t'). rewrite extend_extend. split; [reflexivity|].
    now apply Forall_app.
Qed.

End Emits.

Lemma emits_sleep (allowed : Event -> Prop) ms :
  allowed (EvSleep ms) -> emits allowed (sleep ms).
Proof.
  intros Ha env w. exists (Ok tt), [EvSleep ms].
  split; [reflexivity|]. now constructor.
Qed.

Lemma emits_summarizeCommitFrom (allowed : Event -> Prop) fuel :
  (forall ms, allowed (EvSleep ms)) -> (forall p, allowed (EvGenerate p)) ->
  forall retries prompt,
    emits allowed (Gemini.summarizeCommitFrom fuel retries prompt).
Proof.
  intros Hs Hg.
  induction fuel as [|fuel IH]; intros retries prompt; simpl.
  - apply emits_ret.
  - destruct (retries <? Gemini.MAX_RETRIES)%nat; [|apply emits_ret].
    apply emits_tryCatch.
    + intros env w. eexists _, [EvGenerate prompt].
      split; [reflexivity|]. now constructor.
    + intros _. destruct (S retries <? Gemini.MAX_RETRIES)%nat;
        [|apply emits_ret].
      apply emits_bind; [now apply emits_sleep|]. intros _. apply IH.
Qed.

Lemma emits_summarizeCommit (allowed : Event -> Prop) diff :
  (forall ms, allowed (EvSleep ms)) -> (forall p, allowed (EvGenerate p)) ->
  emits allowed (Gemini.summarizeCommit diff).
Proof. intros Hs Hg. now apply emits_summarizeCommitFrom. Qed.

Lemma emits_aiSummarizeCommitFrom url h fuel :
  forall retries,
    emits (summarizes url h) (Github.aiSummarizeCommitFrom fuel retries url h).
Proof.
  induction fuel as [|fuel IH]; intros retries; simpl.
  - apply emits_ret.
  - destruct (retries <? Github.MAX_RETRIES)%nat; [|apply emits_ret].
    apply emits_bind.
    { intros env w. eexists _, [EvHttpGet (Github.diffUrl url h)].
      split; [reflexivity|]. now repeat constructor. }
    intros [diff|status retryAfter|msg].
    + apply emits_tryCatch; [|intros _; apply emits_ret].
      apply emits_summarizeCommit; intros; exact I.
    + destruct (status =? 403)%Z; [apply emits_ret|].
      destruct (status =? 404)%Z; [apply emits_ret|].
      destruct (status =? 429)%Z; [|apply emits_ret].
      apply emits_bind; [now apply emits_sleep|]. intros _. apply IH.
    + apply emits_ret.
Qed.

(** The summary of a commit is always obtained: the fetch of the diff and
    the model may fail, the step does not. *)
Lemma commit_summary_obtained url position c env w :
  exists summ t,
    tryCatch
      (bind (if (0 <? position)%nat then sleep 2000 else ret tt)
            (fun _ => Github.aiSummarizeCommit url (hash c)))
      (fun _ => ret "[AI summary failed]") env w
    = (Ok summ, extend t w)
    /\ Forall (summarizes url (hash c)) t.
Proof.
  assert (He : emits (summarizes url (hash c))
                 (tryCatch
                    (bind (if (0 <? position)%nat then sleep 2000 else ret tt)
                          (fun _ => Github.aiSummarizeCommit url (hash c)))
                    (fun _ => ret "[AI summary failed]"))).
  { apply emits_tryCatch; [|intros _; apply emits_ret].
    apply emits_bind.
    - destruct (0 <? position)%nat; [now apply emits_sleep|apply emits_ret].
    - intros _. apply emits_aiSummarizeCommitFrom. }
  assert (Hn : neverThrows
                 (tryCatch
                    (bind (if (0 <? position)%nat then sleep 2000 else ret tt)
                          (fun _ => Github.aiSummarizeCommit url (hash c)))
                    (fun _ => ret "[AI summary failed]"))).
  { apply neverThrows_tryCatch. intros _. apply neverThrows_ret. }
  destruct (He env w) as (r & t & E & Ht).
  destruct (Hn env w) as (summ & w' & E').
  rewrite E in E'. injection E' as -> _.
  now exists summ, t.
Qed.

(** *** The table of commits under [upsert] *)

Lemma stored_iff h rows :
  existsb (Db.hasHash h) rows = true <-> In h (map commitHash rows).
Proof.
  rewrite existsb_exists, in_map_iff. unfold Db.hasHash.
  split; intros (r & H1 & H2).
  - apply String.eqb_eq in H2. now exists r.
  - exists r. split; [assumption|]. now apply String.eqb_eq.
Qed.

Lemma hashes_updated c summ h rows :
  map commitHash
      (map (fun r => if Db.hasHash h r then Db.updated c summ r else r) rows)
  = map commitHash rows.
Proof.
  rewrite map_map. apply map_ext. intros r. now destruct (Db.hasHash h r).
Qed.

Lemma hashes_upsertRows id projectId c summ rows :
  map commitHash (Db.upsertRows id projectId c summ rows)
  = map commitHash rows
    ++ (if existsb (Db.hasHash (hash c)) rows then [] else [hash c]).
Proof.
  unfold Db.upsertRows. destruct (existsb (Db.hasHash (hash c)) rows).
  - now rewrite hashes_updated, app_nil_r.
  - now rewrite map_app.
Qed.

Lemma length_upsertRows id projectId c summ rows :
  List.length (Db.upsertRows id projectId c summ rows)
  = (List.length rows
     + if existsb (Db.hasHash (hash c)) rows then 0 else 1)%nat.
Proof.
  rewrite <- (length_map commitHash), hashes_upsertRows, length_app, length_map.
  now destruct (existsb (Db.hasHash (hash c)) rows).
Qed.

Lemma ownsHash_project projectId h rows :
  Db.ownsHash projectId h rows
  = existsb (Db.hasHash h) (Db.commitsOfProject projectId rows).
Proof.
  unfold Db.ownsHash, Db.commitsOfProject.
  induction rows as [|r rows IH]; [reflexivity|]. simpl.
  destruct (String.eqb (commit_projectId r) projectId); simpl;
    now rewrite IH.
Qed.

(** Updating the row of a hash that the project does not own leaves the
    rows of the project as they are. *)
Lemma project_rows_updated projectId c summ h rows :
  Db.ownsHash projectId h rows = false ->
  Db.commitsOfProject
    projectId
    (map (fun r => if Db.hasHash h r then Db.updated c summ r else r) rows)
  = Db.commitsOfProject projectId rows.
Proof.
  unfold Db.ownsHash, Db.commitsOfProject.
  induction rows as [|r rows IH]; [reflexivity|]. simpl.
  intros H. apply orb_false_iff in H. destruct H as [Hr Hrows].
  rewrite (IH Hrows).
  destruct (Db.hasHash h r) eqn:Eh; [|reflexivity].
  cbn [Db.updated commit_projectId].
  rewrite andb_true_r in Hr. now rewrite Hr.
Qed.

Lemma project_rows_upsert_existing id projectId c summ rows :
  Db.ownsHash projectId (hash c) rows = false ->
  existsb (Db.hasHash (hash c)) rows = true ->
  Db.commitsOfProject projectId (Db.upsertRows id projectId c summ rows)
  = Db.commitsOfProject projectId rows.
Proof.
  intros Hown Hex. unfold Db.upsertRows. rewrite Hex.
  now apply project_rows_updated.
Qed.

(** *** One commit saved *)

Section SaveCommit.

Variable env : Env.
Hypothesis database_accepts : forall n, dbWriteFails env n = false.

Variable projectId url : string.

Lemma saveCommit_run position c w :
  exists summ t,
    Github.saveCommit projectId url position c env w
    = (Ok tt,
       mkWorld (trace w ++ t ++ [EvDbWrite]) (files w)
               (Db.upsertRows (nextId w) projectId c summ (commits w))
               (projects w)
               (if existsb (Db.hasHash (hash c)) (commits w)
                then nextId w else S (nextId w)))
    /\ Forall (summarizes url (hash c)) t.
Proof.
  destruct (commit_summary_obtained url position c env w)
    as (summ & t & E & Ht).
  exists summ, t. split; [|assumption].
  unfold Github.saveCommit, bind at 1. rewrite E.
  unfold tryCatch, Db.upsertCommit, bind, Db.write.
  rewrite database_accepts.
  cbn [record extend trace files commits projects nextId].
  destruct (existsb (Db.hasHash (hash c)) (commits w));
    unfold setCommits, bumpId, record, extend;
    cbn [trace files commits projects nextId];
    now rewrite <- app_assoc.
Qed.

(** Whatever the table holds, the loop saves every commit of the list:
    afterwards each of their hashes is stored, and no hash was lost. *)
Lemma saveCommits_store cs :
  forall position w,
  exists w',
    forEachFrom position cs (Github.saveCommit projectId url) env w
    = (Ok tt, w')
    /\ projects w' = projects w
    /\ (forall h, In h (map commitHash (commits w)) ->
                  In h (map commitHash (commits w')))
    /\ (forall c, In c cs -> In (hash c) (map commitHash (commits w'))).
Proof.
  induction cs as [|c cs IH]; intros position w; simpl.
  - exists w. repeat split; [auto|contradiction].
  - unfold bind.
    destruct (saveCommit_run position c w) as (summ & t & -> & _).
    match goal with
    | |- context [forEachFrom _ _ _ _ ?w1] =>
        destruct (IH (S position) w1) as (w' & -> & Hp & Hmono & Hcs)
    end.
    cbn [projects commits] in Hp, Hmono.
    exists w'. split; [reflexivity|]. split; [assumption|].
    assert (Hstep : forall h, In h (map commitHash (commits w)) ->
                              In h (map commitHash (commits w'))).
    { intros h Hh. apply Hmono. rewrite hashes_upsertRows.
      apply in_or_app. now left. }
    split; [assumption|].
    intros c' [<-|Hc']; [|now apply Hcs].
    apply Hmono. rewrite hashes_upsertRows.
    destruct (existsb (Db.hasHash (hash c)) (commits w)) eqn:Ex.
    + rewrite app_nil_r. now apply stored_iff.
    + apply in_or_app. right. now left.
Qed.

(** When every hash of the list is stored already, for other projects, the
    loop creates no row and leaves the rows of the project untouched; the
    diffs it fetches are those of the commits of the list. *)
Lemma saveCommits_foreign cs :
  forall position w,
    (forall c, In c cs ->
       Db.ownsHash projectId (hash c) (commits w) = false
       /\ In (hash c) (map commitHash (commits w))) ->
    exists w' t,
      forEachFrom position cs (Github.saveCommit projectId url) env w
      = (Ok tt, w')
      /\ projects w' = projects w
      /\ Db.commitsOfProject projectId (commits w')
         = Db.commitsOfProject projectId (commits w)
      /\ map commitHash (commits w') = map commitHash (commits w)
      /\ trace w' = trace w ++ t
      /\ Forall (fun u => exists c, In c cs /\ u = Github.diffUrl url (hash c))
                (httpGetsOf t)
      /\ (cs = [] -> w' = w).
Proof.
  induction cs as [|c cs IH]; intros position w Hcs; simpl.
  - exists w, []. rewrite app_nil_r. repeat split. constructor.
  - unfold bind.
    destruct (saveCommit_run position c w) as (summ & t & -> & Ht).
    destruct (Hcs c (or_introl eq_refl)) as [Hown Hstored].
    apply stored_iff in Hstored.
    match goal with
    | |- context [forEachFrom _ _ _ _ ?w1] => set (w1' := w1)
    end.
    assert (Hproj : Db.commitsOfProject projectId (commits w1')
                    = Db.commitsOfProject projectId (commits w))
      by (now apply project_rows_upsert_existing).
    assert (Hhashes : map commitHash (commits w1')
                      = map commitHash (commits w)).
    { subst w1'. cbn [commits]. rewrite hashes_upsertRows, Hstored.
      apply app_nil_r. }
    destruct (IH (S position) w1') as (w' & t' & -> & Hp & Hrows & Hh & Htr & Hget & _).
    { intros c' Hc'. destruct (Hcs c' (or_intror Hc')) as [Ho Hs].
      rewrite ownsHash_project, Hproj, <- ownsHash_project.
      rewrite Hhashes. now split. }
    exists w', (t ++ [EvDbWrite] ++ t').
    split; [reflexivity|]. split; [exact Hp|].
    split; [now rewrite Hrows|]. split; [now rewrite Hh|].
    split.
    { rewrite Htr. subst w1'. cbn [trace]. now rewrite <- !app_assoc. }
    split; [|discriminate].
    unfold httpGetsOf in *. rewrite !flat_map_app. cbn [flat_map app].
    apply Forall_app. split.
    + apply Forall_forall. intros u Hu. apply in_flat_map in Hu.
      destruct Hu as (e & He & Hu). rewrite Forall_forall in Ht.
      specialize (Ht e He). destruct e; try contradiction.
      destruct Hu as [<-|[]]. exists c. split; [now left|exact Ht].
    + eapply Forall_impl; [|exact Hget].
      intros u (c' & Hc' & ->). exists c'. split; [now right|reflexivity].
Qed.

(** When no other project stores a commit of the repository, saving
    commits of the repository keeps it so. *)
Lemma onlyOwner_upsertRows fetched id c summ rows :
  In c fetched ->
  Db.onlyOwner projectId fetched rows ->
  Db.onlyOwner projectId fetched (Db.upsertRows id projectId c summ rows).
Proof.
  intros Hc Hrows r c' Hr Hc' E. unfold Db.upsertRows in Hr.
  destruct (existsb (Db.hasHash (hash c)) rows).
  - apply in_map_iff in Hr. destruct Hr as (r0 & Er & Hr0).
    destruct (Db.hasHash (hash c) r0); subst r.
    + cbn [Db.updated commit_projectId commitHash] in *.
      now apply (Hrows r0 c').
    + now apply (Hrows r0 c').
  - apply in_app_or in Hr. destruct Hr as [Hr|[<-|[]]].
    + now apply (Hrows r c').
    + reflexivity.
Qed.

Lemma saveCommits_keep_owner fetched cs :
  forall position w,
    (forall c, In c cs -> In c fetched) ->
    Db.onlyOwner projectId fetched (commits w) ->
    exists w',
      forEachFrom position cs (Github.saveCommit projectId url) env w
      = (Ok tt, w')
      /\ Db.onlyOwner projectId fetched (commits w').
Proof.
  induction cs as [|c cs IH]; intros position w Hsub Hown; simpl.
  - now exists w.
  - unfold bind.
    destruct (saveCommit_run position c w) as (summ & t & -> & _).
    match goal with
    | |- context [forEachFrom _ _ _ _ ?w1] =>
        destruct (IH (S position) w1) as (w' & -> & Hown')
    end.
    + intros c' Hc'. apply Hsub. now right.
    + cbn [commits]. apply onlyOwner_upsertRows; [|assumption].
      apply Hsub. now left.
    + now exists w'.
Qed.

End SaveCommit.

Lemma filter_none {A} (f : A -> bool) l :
  (forall x, In x l -> f x = false) -> filter f l = [].
Proof.
  induction l as [|x l IH]; intros H; [reflexivity|]. simpl.
  rewrite (H x (or_introl eq_refl)). apply IH. intros y Hy. apply H. now right.
Qed.

(** *** The commits a pull treats as new *)

Lemma newCommits_not_owned projectId fetched rows :
  let commitHashes := map hash fetched in
  let processed :=
    filter (fun c => String.eqb (commit_projectId c) projectId
                     && existsb (String.eqb (commitHash c)) commitHashes)
           rows in
  let newHashes :=
    filter (fun h => negb (existsb (String.eqb h) (map commitHash processed)))
           commitHashes in
  filter (fun c => existsb (String.eqb (hash c)) newHashes) fetched
  = filter (fun c => negb (Db.ownsHash projectId (hash c) rows)) fetched.
Proof.
  intros commitHashes processed newHashes.
  apply filter_ext_in. intros c Hc.
  assert (Hin : In (hash c) commitHashes) by (now apply in_map).
  assert (Hproc : existsb (String.eqb (hash c)) (map commitHash processed)
                  = Db.ownsHash projectId (hash c) rows).
  { apply eq_true_iff_eq. unfold Db.ownsHash, Db.hasHash.
    rewrite !existsb_exists. split.
    - intros (h & Hh & E). apply String.eqb_eq in E. subst h.
      apply in_map_iff in Hh. destruct Hh as (r & Er & Hr).
      apply filter_In in Hr. destruct Hr as [Hr Hp].
      apply andb_true_iff in Hp. destruct Hp as [Hp _].
      exists r. split; [assumption|].
      rewrite Hp, Er. now rewrite String.eqb_refl.
    - intros (r & Hr & Hp). apply andb_true_iff in Hp.
      destruct Hp as [Hp Eh]. apply String.eqb_eq in Eh.
      exists (hash c). split; [|apply String.eqb_refl].
      apply in_map_iff. exists r. split; [assumption|].
      apply filter_In. split; [assumption|].
      rewrite Hp. cbn [andb]. apply existsb_exists.
      exists (hash c). split; [assumption|].
      rewrite Eh. apply String.eqb_refl. }
  rewrite <- Hproc.
  apply eq_true_iff_eq. rewrite existsb_exists. split.
  - intros (h & Hh & E). apply String.eqb_eq in E. subst h.
    apply filter_In in Hh. now destruct Hh.
  - intros Hn. exists (hash c). split; [|apply String.eqb_refl].
    apply filter_In. now split.
Qed.

Section PullCommit.

Variable env : Env.
Variables projectId url owner repo id : string.
Variable fetched : list GhCommit.

Hypothesis url_given : JsString.truthy url = true.
Hypothesis url_parses : Github.ownerAndRepo env url = Ok (owner, repo).
Hypothesis repository_unchanged :
  forall n, listCommits env n owner repo = Ok fetched.
Hypothesis database_accepts : forall n, dbWriteFails env n = false.

(** A pull, once the project is found and the hosting service answers: the
    commits whose hash the project does not own are saved, and the rows of
    the project are read back, latest first. *)
Lemma pullCommit_run w :
  find (fun p => String.eqb (project_id p) projectId) (projects w)
  = Some (mkProject id (Some url)) ->
  Github.pullCommit projectId env w
  = match forEachFrom 0
            (filter (fun c => negb (Db.ownsHash projectId (hash c) (commits w)))
                    fetched)
            (Github.saveCommit projectId url) env
            (record (EvListCommits owner repo) w) with
    | (Ok _, w') =>
        (Ok (JsArray.sort (fun a b => (committedAt a <? committedAt b)%Z)
                          (Db.commitsOfProject projectId (commits w'))), w')
    | (Thrown msg, w') => (Thrown ("Could not pull commits: " ++ msg), w')
    end.
Proof.
  intros Hfind.
  unfold Github.pullCommit, tryCatch, bind at 1.
  unfold Github.fetchProjectGithubUrl, bind at 1, Db.findProject.
  rewrite Hfind, url_given. cbn [ret].
  unfold bind at 1. unfold Github.getCommitHashes, bind at 1.
  unfold Github.parseGitHubUrl. rewrite url_parses. cbn [fst snd].
  unfold Github.requestCommits. rewrite repository_unchanged.
  unfold bind at 1.
  unfold Github.filterOutUnprocessedCommits, bind at 1, Db.findCommitsIn, ret.
  cbn [commits record].
  rewrite newCommits_not_owned.
  unfold bind, Db.findCommitsByDate, throw.
  destruct (forEachFrom _ _ _ _ _) as [[[]|msg] w']; reflexivity.
Qed.

End PullCommit.

(** Two pulls in a row, for a project whose repository the hosting
    service lists the same way at each request and a database that accepts
    the writes.  Both succeed, and after the second the table has as many
    rows as after the first, with the same hashes in the same order (no
    duplicate); the rows of the project are the same, field by field, and
    so is the list returned.  The second pull fetches a diff, hence asks
    for a summary, only for commits whose hash the project does not own.
    When no other project stores one of the commits, the second pull
    changes nothing and only lists the commits. *)
Theorem pullCommit_twice_same_records
    (env : Env) (w0 : World) (projectId url owner repo id : string)
    (fetched : list GhCommit)
    (Hproject : find (fun p => String.eqb (project_id p) projectId)
                     (projects w0)
                = Some (mkProject id (Some url)))
    (Hurl : JsString.truthy url = true)
    (Hparse : Github.ownerAndRepo env url = Ok (owner, repo))
    (Hrepo : forall n, listCommits env n owner repo = Ok fetched)
    (Hdb : forall n, dbWriteFails env n = false) :
  exists r1 w1 r2 w2 t2,
    Github.pullCommit projectId env w0 = (Ok r1, w1)
    /\ Github.pullCommit projectId env w1 = (Ok r2, w2)
    /\ List.length (commits w2) = List.length (commits w1)
    /\ map commitHash (commits w2) = map commitHash (commits w1)
    /\ Db.commitsOfProject projectId (commits w2)
       = Db.commitsOfProject projectId (commits w1)
    /\ r2 = r1
    /\ trace w2 = trace w1 ++ t2
    /\ Forall (fun u => exists c,
                   In c fetched
                   /\ Db.ownsHash projectId (hash c) (commits w1) = false
                   /\ u = Github.diffUrl url (hash c))
              (httpGetsOf t2)
    /\ (forall c, In c fetched -> In (hash c) (map commitHash (commits w1)))
    /\ (Db.onlyOwner projectId fetched (commits w0) ->
        commits w2 = commits w1 /\ t2 = [EvListCommits owner repo]).
Proof.
  (* the first pull *)
  pose proof (@pullCommit_run env projectId url owner repo id fetched
                Hurl Hparse Hrepo w0 Hproject) as E1.
  destruct (@saveCommits_store
              env Hdb projectId url
              (filter (fun c => negb (Db.ownsHash projectId (hash c)
                                                  (commits w0))) fetched)
              0%nat (record (EvListCommits owner repo) w0))
    as (w1 & Eloop1 & Hp1 & Hmono & Hnew).
  assert (Hkeep : Db.onlyOwner projectId fetched (commits w0) ->
                  Db.onlyOwner projectId fetched (commits w1)).
  { intros Hown.
    destruct (@saveCommits_keep_owner
                env Hdb projectId url fetched
                (filter (fun c => negb (Db.ownsHash projectId (hash c)
                                                    (commits w0))) fetched)
                0%nat (record (EvListCommits owner repo) w0))
      as (w1' & Eloop1' & Hown1).
    - intros c Hc. apply filter_In in Hc. tauto.
    - exact Hown.
    - rewrite Eloop1 in Eloop1'. now injection Eloop1' as <-. }
  rewrite Eloop1 in E1.
  cbn [projects commits record] in Hp1, Hmono.
  assert (Hall : forall c, In c fetched ->
                           In (hash c) (map commitHash (commits w1))).
  { intros c Hc.
    destruct (Db.ownsHash projectId (hash c) (commits w0)) eqn:Hown.
    - apply Hmono. apply stored_iff.
      unfold Db.ownsHash in Hown. apply existsb_exists in Hown.
      destruct Hown as (r & Hr & Hrp). apply andb_true_iff in Hrp.
      apply existsb_exists. exists r. now split.
    - apply Hnew. apply filter_In. split; [assumption|]. now rewrite Hown. }
  (* the second pull *)
  assert (Hproject1 : find (fun p => String.eqb (project_id p) projectId)
                           (projects w1)
                      = Some (mkProject id (Some url)))
    by (now rewrite Hp1).
  pose proof (@pullCommit_run env projectId url owner repo id fetched
                Hurl Hparse Hrepo w1 Hproject1) as E2.
  destruct (@saveCommits_foreign
              env Hdb projectId url
              (filter (fun c => negb (Db.ownsHash projectId (hash c)
                                                  (commits w1))) fetched)
              0%nat (record (EvListCommits owner repo) w1))
    as (w2 & t & Eloop2 & Hp2 & Hrows & Hhashes & Htrace & Hgets & Hnil).
  { intros c Hc. apply filter_In in Hc. destruct Hc as [Hc Hown].
    apply negb_true_iff in Hown. cbn [commits record].
    split; [assumption|]. now apply Hall. }
  rewrite Eloop2 in E2.
  cbn [commits record trace] in Hrows, Hhashes, Htrace.
  eexists. exists w1. eexists. exists w2, ([EvListCommits owner repo] ++ t).
  split; [exact E1|]. split; [exact E2|].
  split.
  { rewrite <- (length_map commitHash (commits w2)), Hhashes.
    apply length_map. }
  split; [assumption|]. split; [assumption|].
  split; [now rewrite Hrows|].
  split; [now rewrite Htrace, <- app_assoc|].
  split.
  { unfold httpGetsOf. cbn [flat_map app]. fold (httpGetsOf t).
    eapply Forall_impl; [|exact Hgets].
    intros u (c & Hc & ->). apply filter_In in Hc. destruct Hc as [Hc Hown].
    apply negb_true_iff in Hown. now exists c. }
  split; [assumption|].
  intros Hown0. specialize (Hkeep Hown0).
  assert (Hnone : filter (fun c => negb (Db.ownsHash projectId (hash c)
                                                     (commits w1))) fetched
                  = []).
  { apply filter_none. intros c Hc. apply negb_false_iff.
    specialize (Hall c Hc). apply in_map_iff in Hall.
    destruct Hall as (r & Er & Hr).
    unfold Db.ownsHash. apply existsb_exists. exists r.
    split; [assumption|].
    rewrite (Hkeep r c Hr Hc Er), String.eqb_refl. cbn [andb].
    unfold Db.hasHash. rewrite Er. apply String.eqb_refl. }
  specialize (Hnil Hnone). subst w2.
  split; [reflexivity|].
  cbn [trace record] in Htrace.
  assert (Ht : t = []).
  { symmetry. apply (app_inv_head (trace w1 ++ [EvListCommits owner repo])).
    rewrite app_nil_r. exact Htrace. }
  now rewrite Ht.
Qed.

Lemma pullCommit_twice_same_records_witness :
  exists r1 w1 r2 w2 t2,
    Github.pullCommit "p1" commitsEnv commitsWorld = (Ok r1, w1)
    /\ Github.pullCommit "p1" commitsEnv w1 = (Ok r2, w2)
    /\ List.length (commits w2) = List.length (commits w1)
    /\ map commitHash (commits w2) = map commitHash (commits w1)
    /\ Db.commitsOfProject "p1" (commits w2)
       = Db.commitsOfProject "p1" (commits w1)
    /\ r2 = r1
    /\ trace w2 = trace w1 ++ t2
    /\ Forall (fun u => exists c,
                   In c twoCommits
                   /\ Db.ownsHash "p1" (hash c) (commits w1) = false
                   /\ u = Github.diffUrl "https://github.com/acme/app" (hash c))
              (httpGetsOf t2)
    /\ (forall c, In c twoCommits ->
                  In (hash c) (map commitHash (commits w1)))
    /\ (Db.onlyOwner "p1" twoCommits (commits commitsWorld) ->
        commits w2 = commits w1 /\ t2 = [EvListCommits "acme" "app"]).
Proof.
  apply (@pullCommit_twice_same_records
           commitsEnv commitsWorld "p1" "https://github.com/acme/app"
           "acme" "app" "p1" twoCommits).
  - reflexivity.
  - reflexivity.
  - reflexivity.
  - intros n. reflexivity.
  - intros n. reflexivity.
Defined.

(** On the sample repository the second pull makes one request, the
    listing of the commits, and the two rows stay as the first pull wrote
    them. *)
Lemma pullCommit_twice_sample :
  let w1 := snd (Github.pullCommit "p1" commitsEnv commitsWorld) in
  let w2 := snd (Github.pullCommit "p1" commitsEnv w1) in
  map commit_summary (commits w1) = ["First summary."; "Second summary."]
  /\ commits w2 = commits w1
  /\ trace w2 = trace w1 ++ [EvListCommits "acme" "app"].
Proof. vm_compute. repeat split. Qed.

(** C7 fails on the code when another project already stores a commit of
    the repository.  The rows are looked up by project and hash, but
    written by hash alone: the commit of the other project is taken for a
    new one at each pull.  Here "p0", a fork, stores the commit a1b2 of the
    repository of "p1".  The second of two pulls in a row for "p1" requests
    the diff of a1b2 again, has it summarized again, and replaces the
    summary stored by the first pull, in the row of "p0".  The number of
    rows and the rows of "p1" stay the same. *)
Theorem pullCommit_rewrites_foreign_row :
  let w1 := snd (Github.pullCommit "p1" commitsEnv forkedWorld) in
  let w2 := snd (Github.pullCommit "p1" commitsEnv w1) in
  map (fun r => (commit_projectId r, commitHash r)) (commits w1)
  = [("p0", "a1b2"); ("p1", "b2c3")]
  /\ map (fun r => (commit_projectId r, commitHash r)) (commits w2)
     = [("p0", "a1b2"); ("p1", "b2c3")]
  /\ Db.commitsOfProject "p1" (commits w2)
     = Db.commitsOfProject "p1" (commits w1)
  /\ httpGetsOf (skipn (List.length (trace w1)) (trace w2))
     = ["https://github.com/acme/app/commit/a1b2.diff"]
  /\ map commit_summary (commits w1) = ["Second summary."; "First summary."]
  /\ map commit_summary (commits w2)
     = ["Another summary."; "First summary."].
Proof. vm_compute. repeat split. Qed.

(* ================================================================== *)
(** ** The bounds of the loops *)
(* ================================================================== *)

(** Each [while] loop is modelled with a bound on its iterations.  The
    bound given, the number of retries allowed, is never what stops a
    loop: with one iteration more the run is the same. *)

Lemma summarizeCommitFrom_bound fuel :
  forall retries prompt,
    (Gemini.MAX_RETRIES <= fuel + retries)%nat ->
    Gemini.summarizeCommitFrom (S fuel) retries prompt
    = Gemini.summarizeCommitFrom fuel retries prompt.
Proof.
  induction fuel as [|fuel IH]; intros retries prompt Hle.
  - cbn [Gemini.summarizeCommitFrom].
    replace (retries <? Gemini.MAX_RETRIES)%nat with false; [reflexivity|].
    symmetry. apply Nat.ltb_ge. lia.
  - change (Gemini.summarizeCommitFrom (S (S fuel)) retries prompt)
      with (if (retries <? Gemini.MAX_RETRIES)%nat then
              tryCatch (Gemini.callGenerateContent prompt)
                (fun _ =>
                   if (S retries <? Gemini.MAX_RETRIES)%nat then
                     bind (sleep (Gemini.backoff (S retries)))
                          (fun _ => Gemini.summarizeCommitFrom
                                      (S fuel) (S retries) prompt)
                   else ret Gemini.summaryFallback)
            else ret Gemini.summaryAfterLoop).
    rewrite IH by lia. reflexivity.
Qed.

Lemma generateEmbeddingFrom_bound fuel :
  forall retries text,
    (Gemini.MAX_RETRIES <= fuel + retries)%nat ->
    Gemini.generateEmbeddingFrom (S fuel) retries text
    = Gemini.generateEmbeddingFrom fuel retries text.
Proof.
  induction fuel as [|fuel IH]; intros retries text Hle.
  - cbn [Gemini.generateEmbeddingFrom].
    replace (retries <? Gemini.MAX_RETRIES)%nat with false; [reflexivity|].
    symmetry. apply Nat.ltb_ge. lia.
  - change (Gemini.generateEmbeddingFrom (S (S fuel)) retries text)
      with (if (retries <? Gemini.MAX_RETRIES)%nat then
              tryCatch (Gemini.callEmbedContent text)
                (fun _ =>
                   if (S retries <? Gemini.MAX_RETRIES)%nat then
                     bind (sleep (Gemini.backoff (S retries)))
                          (fun _ => Gemini.generateEmbeddingFrom
                                      (S fuel) (S retries) text)
                   else ret (Gemini.fallbackEmbedding text))
            else ret (repeat 0%R 768)).
    rewrite IH by lia. reflexivity.
Qed.

Lemma bind_run {A B} (m : M A) (k : A -> M B) env w :
  bind m k env w
  = match m env w with
    | (Ok a, w') => k a env w'
    | (Thrown msg, w') => (Thrown msg, w')
    end.
Proof. reflexivity. Qed.

Lemma aiSummarizeCommitFrom_step fuel retries repoUrl commitHash :
  Github.aiSummarizeCommitFrom (S fuel) retries repoUrl commitHash
  = if (retries <? Github.MAX_RETRIES)%nat then
      bind (Github.axiosGetDiff (Github.diffUrl repoUrl commitHash))
        (fun r =>
           match r with
           | AxiosData diff =>
               tryCatch (Gemini.summarizeCommit diff)
                        (fun _ => ret EmptyString)
           | AxiosStatus status retryAfter =>
               if (status =? 403)%Z then ret Github.forbiddenSummary
               else if (status =? 404)%Z then ret Github.notFoundSummary
               else if (status =? 429)%Z then
                 bind (sleep (match retryAfter with
                              | Some seconds => (seconds * 1000)%Z
                              | None => Gemini.backoff (S retries)
                              end))
                      (fun _ => Github.aiSummarizeCommitFrom
                                  fuel (S retries) repoUrl commitHash)
               else ret EmptyString
           | AxiosNoResponse _ => ret EmptyString
           end)
    else ret EmptyString.
Proof. reflexivity. Qed.

Lemma aiSummarizeCommitFrom_bound fuel :
  forall retries repoUrl commitHash env w,
    (Github.MAX_RETRIES <= fuel + retries)%nat ->
    Github.aiSummarizeCommitFrom (S fuel) retries repoUrl commitHash env w
    = Github.aiSummarizeCommitFrom fuel retries repoUrl commitHash env w.
Proof.
  induction fuel as [|fuel IH]; intros retries repoUrl commitHash env w Hle.
  - cbn [Github.aiSummarizeCommitFrom].
    replace (retries <? Github.MAX_RETRIES)%nat with false; [reflexivity|].
    symmetry. apply Nat.ltb_ge. lia.
  - rewrite (aiSummarizeCommitFrom_step (S fuel) retries),
            (aiSummarizeCommitFrom_step fuel retries).
    destruct (retries <? Github.MAX_RETRIES)%nat; [|reflexivity].
    rewrite 2 bind_run.
    destruct (Github.axiosGetDiff _ env w) as [[r|msg] w1]; [|reflexivity].
    destruct r as [diff|status retryAfter|msg]; try reflexivity.
    destruct (status =? 403)%Z; [reflexivity|].
    destruct (status =? 404)%Z; [reflexivity|].
    destruct (status =? 429)%Z; [|reflexivity].
    rewrite 2 bind_run.
    destruct (sleep _ env w1) as [[[]|msg] w2]; [|reflexivity].
    apply IH. lia.
Qed.

Lemma loadDocsFrom_loaded fuel retries d docs url token :
  ProjectRouter.loadDocsFrom fuel retries (d :: docs) url token
  = ret (d :: docs).
Proof.
  destruct fuel; [reflexivity|]. cbn [ProjectRouter.loadDocsFrom].
  cbn [List.length Nat.eqb]. now rewrite andb_false_r.
Qed.

Lemma loadDocsFrom_step fuel retries docs url token :
  ProjectRouter.loadDocsFrom (S fuel) retries docs url token
  = if (retries <? ProjectRouter.MAX_RETRIES)%nat
       && (List.length docs =? 0)%nat then
      bind (tryCatch
              (bind (GithubLoader.loadGitHubRepository url token (Some true))
                    (fun loaded =>
                       if (List.length loaded =? 0)%nat then
                         bind (sleep (3000 * Z.of_nat (S retries)))
                              (fun _ => ret (loaded, S retries))
                       else ret (loaded, retries)))
              (fun _ =>
                 bind (sleep (3000 * Z.of_nat (S retries)))
                      (fun _ => ret (docs, S retries))))
           (fun st => ProjectRouter.loadDocsFrom fuel (snd st) (fst st)
                                                 url token)
    else ret docs.
Proof. reflexivity. Qed.

Lemma loadDocsFrom_bound fuel :
  forall retries docs url token env w,
    (ProjectRouter.MAX_RETRIES <= fuel + retries)%nat ->
    ProjectRouter.loadDocsFrom (S fuel) retries docs url token env w
    = ProjectRouter.loadDocsFrom fuel retries docs url token env w.
Proof.
  induction fuel as [|fuel IH]; intros retries docs url token env w Hle.
  - cbn [ProjectRouter.loadDocsFrom].
    replace (retries <? ProjectRouter.MAX_RETRIES)%nat with false;
      [reflexivity|].
    symmetry. apply Nat.ltb_ge. lia.
  - rewrite (loadDocsFrom_step (S fuel) retries),
            (loadDocsFrom_step fuel retries).
    destruct ((retries <? ProjectRouter.MAX_RETRIES)%nat
              && (List.length docs =? 0)%nat); [|reflexivity].
    rewrite 2 bind_run.
    destruct (tryCatch _ _ env w) as [[[loaded retries1]|msg] w1] eqn:Est;
      [|reflexivity].
    cbn [fst snd].
    destruct loaded as [|d loaded].
    + apply IH.
      (* no document: the number of retries went up *)
      unfold tryCatch, bind in Est.
      destruct (GithubLoader.loadGitHubRepository url token (Some true) env w)
        as [[l|m] w0].
      * destruct (List.length l =? 0)%nat eqn:El.
        -- cbn in Est. injection Est as _ <- _. lia.
        -- cbn in Est. injection Est as -> _ _. discriminate El.
      * cbn in Est. injection Est as _ <- _. lia.
    + now rewrite !loadDocsFrom_loaded.
Qed.

(* ================================================================== *)
(** ** The end-to-end scenario *)
(* ================================================================== *)

(** The repository of three files, ingested by [createProject] with an
    embedding service that rejects every call: three rows are stored, in the
    priority order, each with its summary and a fallback vector of 768
    components. *)
Lemma createProject_three_files_stored :
  let w' := snd (ProjectRouter.embeddingProcess
                   "p1" "https://github.com/acme/app" None
                   exampleRepoEnv emptyWorld) in
  map fileName (files w') = ["README.md"; "package.json"; "src/index.ts"]
  /\ map summary (files w') = ["A summary."; "A summary."; "A summary."]
  /\ map (fun r => option_map (@List.length R) (embedding r)) (files w')
     = [Some 768%nat; Some 768%nat; Some 768%nat].
Proof.
  cbv zeta.
  split; [vm_compute; reflexivity|].
  split; [vm_compute; reflexivity|].
  vm_compute; reflexivity.
Qed.

(* ================================================================== *)
(** ** What a run changes *)
(* ================================================================== *)

Lemma neverThrows_summarizeCommitFrom fuel :
  forall retries prompt,
    neverThrows (Gemini.summarizeCommitFrom fuel retries prompt).
Proof.
  induction fuel as [|fuel IH]; intros retries prompt; simpl.
  - apply neverThrows_ret.
  - destruct (retries <? Gemini.MAX_RETRIES)%nat; [|apply neverThrows_ret].
    apply neverThrows_tryCatch. intros _.
    destruct (S retries <? Gemini.MAX_RETRIES)%nat; [|apply neverThrows_ret].
    apply neverThrows_bind; [|intros _; apply IH].
    intros env w. unfold sleep. eauto.
Qed.

Lemma neverThrows_generateEmbeddingFrom fuel :
  forall retries text,
    neverThrows (Gemini.generateEmbeddingFrom fuel retries text).
Proof.
  induction fuel as [|fuel IH]; intros retries text; simpl.
  - apply neverThrows_ret.
  - destruct (retries <? Gemini.MAX_RETRIES)%nat; [|apply neverThrows_ret].
    apply neverThrows_tryCatch. intros _.
    destruct (S retries <? Gemini.MAX_RETRIES)%nat; [|apply neverThrows_ret].
    apply neverThrows_bind; [|intros _; apply IH].
    intros env w. unfold sleep. eauto.
Qed.

Lemma neverThrows_summarizeCode code :
  neverThrows (EmbeddingPipeline.summarizeCode code).
Proof. apply neverThrows_tryCatch. intros _. apply neverThrows_ret. Qed.

Lemma neverThrows_pipeline_generateEmbedding text :
  neverThrows (EmbeddingPipeline.generateEmbedding text).
Proof. apply neverThrows_tryCatch. intros _. apply neverThrows_ret. Qed.

(** A handler is of no effect on a computation that never throws. *)
Lemma tryCatch_total {A} (m : M A) (h : string -> M A) env w :
  neverThrows m -> tryCatch m h env w = m env w.
Proof.
  intros Hm. unfold tryCatch. now destruct (Hm env w) as (a & w' & ->).
Qed.

Section Evolves.

Variable R : World -> World -> Prop.
Hypothesis R_refl : forall w, R w w.
Hypothesis R_trans : forall w1 w2 w3, R w1 w2 -> R w2 w3 -> R w1 w3.
Hypothesis R_record : forall e w, isRandom e = false -> R w (record e w).

Lemma evolves_ret {A} (a : A) : evolves R (ret a).
Proof. intros env w. apply R_refl. Qed.

Lemma evolves_throw {A} msg : evolves R (@throw A msg).
Proof. intros env w. apply R_refl. Qed.

Lemma evolves_bind {A B} (m : M A) (k : A -> M B) :
  evolves R m -> (forall a, evolves R (k a)) -> evolves R (bind m k).
Proof.
  intros Hm Hk env w. unfold bind.
  specialize (Hm env w).
  destruct (m env w) as [[a|msg] w1]; cbn [snd] in *; [|assumption].
  eapply R_trans; [exact Hm|apply Hk].
Qed.

Lemma evolves_tryCatch {A} (m : M A) (h : string -> M A) :
  evolves R m -> (forall msg, evolves R (h msg)) -> evolves R (tryCatch m h).
Proof.
  intros Hm Hh env w. unfold tryCatch.
  specialize (Hm env w).
  destruct (m env w) as [[a|msg] w1]; cbn [snd] in *; [assumption|].
  eapply R_trans; [exact Hm|apply Hh].
Qed.

Lemma evolves_tryCatch_total {A} (m : M A) (h : string -> M A) :
  neverThrows m -> evolves R m -> evolves R (tryCatch m h).
Proof.
  intros Hn Hm env w. rewrite tryCatch_total by assumption. apply Hm.
Qed.

Lemma evolves_forEachFrom {A} (body : nat -> A -> M unit) :
  (forall i x, evolves R (body i x)) ->
  forall xs i, evolves R (forEachFrom i xs body).
Proof.
  intros Hb. induction xs as [|x xs IH]; intros i; simpl.
  - apply evolves_ret.
  - apply evolves_bind; [apply Hb|]. intros _. apply IH.
Qed.

(** A step that records one event and changes nothing else. *)
Lemma evolves_call {A} (m : M A) :
  (forall env w, exists e, snd (m env w) = record e w /\ isRandom e = false) ->
  evolves R m.
Proof.
  intros H env w. destruct (H env w) as (e & -> & He). now apply R_record.
Qed.

(** A step that reads the database. *)
Lemma evolves_read {A} (m : M A) :
  (forall env w, snd (m env w) = w) -> evolves R m.
Proof. intros H env w. rewrite H. apply R_refl. Qed.

Lemma evolves_sleep ms : evolves R (sleep ms).
Proof. apply evolves_call. intros env w. now exists (EvSleep ms). Qed.

Lemma evolves_write : evolves R Db.write.
Proof.
  apply evolves_call. intros env w. exists EvDbWrite. unfold Db.write.
  now destruct (dbWriteFails env (count isDbWrite w)).
Qed.

Lemma evolves_summarizeCommitFrom fuel :
  forall retries prompt,
    evolves R (Gemini.summarizeCommitFrom fuel retries prompt).
Proof.
  induction fuel as [|fuel IH]; intros retries prompt; simpl.
  - apply evolves_ret.
  - destruct (retries <? Gemini.MAX_RETRIES)%nat; [|apply evolves_ret].
    apply evolves_tryCatch.
    + apply evolves_call. intros env w. now exists (EvGenerate prompt).
    + intros _. destruct (S retries <? Gemini.MAX_RETRIES)%nat.
      * apply evolves_bind; [apply evolves_sleep|]. intros _. apply IH.
      * apply evolves_ret.
Qed.

Lemma evolves_generateEmbeddingFrom fuel :
  forall retries text,
    evolves R (Gemini.generateEmbeddingFrom fuel retries text).
Proof.
  induction fuel as [|fuel IH]; intros retries text; simpl.
  - apply evolves_ret.
  - destruct (retries <? Gemini.MAX_RETRIES)%nat; [|apply evolves_ret].
    apply evolves_tryCatch.
    + apply evolves_call. intros env w.
      now exists (EvEmbed (Gemini.embedRequest text)).
    + intros _. destruct (S retries <? Gemini.MAX_RETRIES)%nat.
      * apply evolves_bind; [apply evolves_sleep|]. intros _. apply IH.
      * apply evolves_ret.
Qed.

Lemma evolves_summarizeCode code :
  evolves R (EmbeddingPipeline.summarizeCode code).
Proof.
  apply evolves_tryCatch; [apply evolves_summarizeCommitFrom|].
  intros _. apply evolves_ret.
Qed.

Lemma evolves_pipeline_generateEmbedding text :
  evolves R (EmbeddingPipeline.generateEmbedding text).
Proof.
  apply evolves_tryCatch; [apply evolves_generateEmbeddingFrom|].
  intros _. apply evolves_ret.
Qed.

Lemma evolves_loadGitHubRepository url token recursive :
  evolves R (GithubLoader.loadGitHubRepository url token recursive).
Proof.
  assert (Hl : forall cfg, evolves R (GithubLoader.load cfg)).
  { intros cfg. apply evolves_call. intros env w. now exists (EvLoad cfg). }
  apply evolves_tryCatch; [apply Hl|]. intros _.
  apply evolves_tryCatch; [apply Hl|]. intros _. apply evolves_ret.
Qed.

Lemma evolves_aiSummarizeCommitFrom fuel :
  forall retries repoUrl commitHash,
    evolves R (Github.aiSummarizeCommitFrom fuel retries repoUrl commitHash).
Proof.
  induction fuel as [|fuel IH]; intros retries repoUrl commitHash; simpl.
  - apply evolves_ret.
  - destruct (retries <? Github.MAX_RETRIES)%nat; [|apply evolves_ret].
    apply evolves_bind.
    { apply evolves_call. intros env w.
      now exists (EvHttpGet (Github.diffUrl repoUrl commitHash)). }
    intros [diff|status retryAfter|msg].
    + apply evolves_tryCatch; [apply evolves_summarizeCommitFrom|].
      intros _. apply evolves_ret.
    + destruct (status =? 403)%Z; [apply evolves_ret|].
      destruct (status =? 404)%Z; [apply evolves_ret|].
      destruct (status =? 429)%Z; [|apply evolves_ret].
      apply evolves_bind; [apply evolves_sleep|]. intros _. apply IH.
    + apply evolves_ret.
Qed.

Lemma evolves_loadDocsFrom fuel :
  forall retries docs url token,
    evolves R (ProjectRouter.loadDocsFrom fuel retries docs url token).
Proof.
  induction fuel as [|fuel IH]; intros retries docs url token; simpl.
  - apply evolves_ret.
  - destruct ((retries <? ProjectRouter.MAX_RETRIES)%nat
              && (List.length docs =? 0)%nat); [|apply evolves_ret].
    apply evolves_bind.
    + apply evolves_tryCatch.
      * apply evolves_bind; [apply evolves_loadGitHubRepository|].
        intros loaded. destruct (List.length loaded =? 0)%nat.
        -- apply evolves_bind; [apply evolves_sleep|].
           intros _. apply evolves_ret.
        -- apply evolves_ret.
      * intros _. apply evolves_bind; [apply evolves_sleep|].
        intros _. apply evolves_ret.
    + intros st. apply IH.
Qed.

(** The commit puller, over what one [upsert] does. *)
Section Pull.

Hypothesis R_upsert :
  forall projectId c summ, evolves R (Db.upsertCommit projectId c summ).

Lemma evolves_saveCommit projectId githubUrl position commit :
  evolves R (Github.saveCommit projectId githubUrl position commit).
Proof.
  unfold Github.saveCommit. apply evolves_bind.
  - apply evolves_tryCatch; [|intros _; apply evolves_ret].
    apply evolves_bind.
    + destruct (0 <? position)%nat; [apply evolves_sleep|apply evolves_ret].
    + intros _. apply evolves_aiSummarizeCommitFrom.
  - intros summ. apply evolves_tryCatch; [apply R_upsert|].
    intros msg. apply evolves_throw.
Qed.

Lemma evolves_pullCommit projectId : evolves R (Github.pullCommit projectId).
Proof.
  unfold Github.pullCommit.
  apply evolves_tryCatch; [|intros msg; apply evolves_throw].
  apply evolves_bind.
  { unfold Github.fetchProjectGithubUrl. apply evolves_bind.
    - now apply evolves_read.
    - intros [[id [url|]]|]; try apply evolves_throw.
      destruct (JsString.truthy url); [apply evolves_ret|apply evolves_throw]. }
  intros githubUrl. apply evolves_bind.
  { unfold Github.getCommitHashes. apply evolves_bind.
    - now apply evolves_read.
    - intros ownerRepo. apply evolves_call. intros env w.
      now exists (EvListCommits (fst ownerRepo) (snd ownerRepo)). }
  intros fetched. apply evolves_bind.
  { unfold Github.filterOutUnprocessedCommits. apply evolves_bind.
    - now apply evolves_read.
    - intros processed. apply evolves_ret. }
  intros newHashes. apply evolves_bind.
  { apply evolves_forEachFrom. intros i x. apply evolves_saveCommit. }
  intros _. now apply evolves_read.
Qed.

End Pull.

(** The two ingestion paths, over what the storing of one file does. *)
Section Ingestion.

Variable projectId : string.

Hypothesis R_storeIndexed :
  forall name summ code v,
    evolves R (EmbeddingPipeline.storeIndexed projectId name summ code v).

Lemma evolves_indexGitHubRepo repoUrl githubToken :
  evolves R (EmbeddingPipeline.indexGitHubRepo projectId repoUrl githubToken).
Proof.
  unfold EmbeddingPipeline.indexGitHubRepo.
  apply evolves_bind; [apply evolves_loadGitHubRepository|].
  intros docs. apply evolves_forEachFrom. intros i doc.
  unfold EmbeddingPipeline.indexDocument.
  apply evolves_bind.
  { apply evolves_call. intros env w. now eexists (EvProcessing _ _ _). }
  intros _. apply evolves_bind.
  { apply evolves_tryCatch; [apply evolves_summarizeCode|].
    intros _. apply evolves_ret. }
  intros summ. apply evolves_bind; [|intros v; apply R_storeIndexed].
  apply evolves_tryCatch; [apply evolves_pipeline_generateEmbedding|].
  intros _. apply evolves_ret.
Qed.

Hypothesis R_storeProcessed :
  forall name summ code v,
    evolves R (ProjectRouter.storeProcessed projectId name summ code v).
Hypothesis R_upsert :
  forall p c summ, evolves R (Db.upsertCommit p c summ).

Lemma evolves_embeddingProcess githuburl githubtoken :
  evolves R (ProjectRouter.embeddingProcess projectId githuburl githubtoken).
Proof.
  unfold ProjectRouter.embeddingProcess.
  apply evolves_tryCatch; [|intros _; apply evolves_ret].
  apply evolves_bind; [apply evolves_loadDocsFrom|].
  intros docs. destruct (List.length docs =? 0)%nat; [apply evolves_ret|].
  apply evolves_bind.
  - apply evolves_forEachFrom. intros i doc.
    unfold ProjectRouter.processDocument.
    apply evolves_bind.
    { apply evolves_call. intros env w. now eexists (EvProcessing _ _ _). }
    intros _. apply evolves_bind.
    { apply evolves_tryCatch; [apply evolves_summarizeCode|].
      intros _. apply evolves_ret. }
    intros summ. apply evolves_bind; [|intros v; apply R_storeProcessed].
    apply evolves_tryCatch_total.
    + apply neverThrows_pipeline_generateEmbedding.
    + apply evolves_pipeline_generateEmbedding.
  - intros _. apply evolves_tryCatch; [|intros _; apply evolves_ret].
    apply evolves_bind; [now apply evolves_pullCommit|].
    intros _. apply evolves_ret.
Qed.

End Ingestion.

End Evolves.

Lemma count_record p e w :
  count p (record e w) = (count p w + if p e then 1 else 0)%nat.
Proof.
  unfold count, record; cbn [trace].
  rewrite filter_app, length_app. cbn [filter]. now destruct (p e).
Qed.

(** *** The table of commits *)

Lemma commitKey_upsertRows id projectId c summ rows :
  exists added,
    map commitKey (Db.upsertRows id projectId c summ rows)
    = map commitKey rows ++ added.
Proof.
  unfold Db.upsertRows. destruct (existsb (Db.hasHash (hash c)) rows).
  - exists []. rewrite app_nil_r, map_map. apply map_ext.
    intros r. now destruct (Db.hasHash (hash c) r).
  - eexists. now rewrite map_app.
Qed.

Lemma upsertRows_unique id projectId c summ rows :
  NoDup (map commitHash rows) ->
  NoDup (map commitHash (Db.upsertRows id projectId c summ rows)).
Proof.
  intros Hu. rewrite hashes_upsertRows.
  destruct (existsb (Db.hasHash (hash c)) rows) eqn:Ex.
  - now rewrite app_nil_r.
  - apply NoDup_app; [assumption|repeat constructor; intros []|].
    intros h Hh [<-|[]]. apply stored_iff in Hh. congruence.
Qed.

(** The world after an [upsert], whether the database accepts it or not. *)
Lemma upsertCommit_world projectId c summ env w :
  let w' := snd (Db.upsertCommit projectId c summ env w) in
  files w' = files w /\ projects w' = projects w
  /\ (nextId w <= nextId w')%nat
  /\ (commits w' = commits w
      \/ commits w' = Db.upsertRows (nextId w) projectId c summ (commits w)).
Proof.
  unfold Db.upsertCommit, bind, Db.write. cbv zeta.
  destruct (dbWriteFails env (count isDbWrite w)); cbn.
  - repeat split; auto.
  - destruct (existsb (Db.hasHash (hash c)) (commits w)); cbn;
      repeat split; auto.
Qed.

(** X1.  Pulling the commits of a project never leaves two rows with the
    same hash in the table of commits, whatever the hosting service, the
    model and the database answer; the same holds of the ingestion that
    [createProject] starts, which pulls the commits at its end. *)
Theorem pullCommit_keeps_hashes_unique
    (env : Env) (w : World) (projectId githuburl : string)
    (githubtoken : option string) :
  uniqueHashes w ->
  uniqueHashes (snd (Github.pullCommit projectId env w))
  /\ uniqueHashes (snd (ProjectRouter.embeddingProcess
                          projectId githuburl githubtoken env w)).
Proof.
  set (R := fun w w' : World => uniqueHashes w -> uniqueHashes w').
  assert (Hrefl : forall w, R w w) by (intros ? H; exact H).
  assert (Htrans : forall w1 w2 w3, R w1 w2 -> R w2 w3 -> R w1 w3)
    by (unfold R; auto).
  assert (Hrec : forall e w, isRandom e = false -> R w (record e w))
    by (intros ? ? _ H; exact H).
  assert (Hup : forall p c s, evolves R (Db.upsertCommit p c s)).
  { intros p c s env0 w0 Hu.
    destruct (upsertCommit_world p c s env0 w0) as (_ & _ & _ & [E|E]);
      unfold uniqueHashes; rewrite E; [exact Hu|].
    now apply upsertRows_unique. }
  assert (Hst : forall p n s c v,
             evolves R (ProjectRouter.storeProcessed p n s c v)).
  { intros p n s c v env0 w0 Hu. unfold uniqueHashes in *.
    replace (commits (snd (ProjectRouter.storeProcessed p n s c v env0 w0)))
      with (commits w0); [exact Hu|].
    unfold ProjectRouter.storeProcessed, tryCatch, bind, Db.createFile,
      Db.setEmbedding, bind, Db.write, ret.
    destruct (dbWriteFails env0 (count isDbWrite w0)); [reflexivity|].
    destruct (List.length v =? 768)%nat; [|reflexivity].
    cbn. now destruct (dbWriteFails env0 _). }
  intros Hu. split.
  - exact (@evolves_pullCommit R Hrefl Htrans Hrec Hup projectId env w Hu).
  - exact (@evolves_embeddingProcess R Hrefl Htrans Hrec projectId
             (Hst projectId) Hup githuburl githubtoken env w Hu).
Qed.

Lemma pullCommit_keeps_hashes_unique_witness :
  uniqueHashes forkedWorld
  /\ uniqueHashes (snd (Github.pullCommit "p1" commitsEnv forkedWorld)).
Proof.
  assert (H : uniqueHashes forkedWorld).
  { unfold uniqueHashes. cbn. repeat constructor. intros []. }
  split; [exact H|].
  exact (proj1 (pullCommit_keeps_hashes_unique
                  commitsEnv "p1" "https://github.com/acme/app" None H)).
Defined.

(** X2.  Pulling the commits of a project removes no row of the table of
    commits and moves none to another project: the identifier, the project
    and the hash of every row stay, and the rows added come last.  The
    tables of files and of projects are left as they are. *)
Theorem pullCommit_keeps_rows (env : Env) (w : World) (projectId : string) :
  let w' := snd (Github.pullCommit projectId env w) in
  commitsKept w w' /\ files w' = files w /\ projects w' = projects w.
Proof.
  set (R := fun w w' : World =>
              commitsKept w w' /\ files w' = files w
              /\ projects w' = projects w).
  assert (Hrefl : forall w, R w w).
  { intros w0. split; [|now split]. exists []. now rewrite app_nil_r. }
  assert (Htrans : forall w1 w2 w3, R w1 w2 -> R w2 w3 -> R w1 w3).
  { intros w1 w2 w3 ((a1 & E1) & F1 & P1) ((a2 & E2) & F2 & P2).
    split; [|split; congruence].
    exists (a1 ++ a2). now rewrite E2, E1, app_assoc. }
  assert (Hrec : forall e w, isRandom e = false -> R w (record e w)).
  { intros e w0 _. split; [|now split]. exists []. now rewrite app_nil_r. }
  assert (Hup : forall p c s, evolves R (Db.upsertCommit p c s)).
  { intros p c s env0 w0.
    destruct (upsertCommit_world p c s env0 w0) as (F & P & _ & [E|E]);
      (split; [|now split]); unfold commitsKept; rewrite E.
    - exists []. now rewrite app_nil_r.
    - apply commitKey_upsertRows. }
  exact (@evolves_pullCommit R Hrefl Htrans Hrec Hup projectId env w).
Qed.

(** The world after the storing of one file by [createProject]. *)
Lemma storeProcessed_trace p n s c v env w :
  exists t, trace (snd (ProjectRouter.storeProcessed p n s c v env w))
            = trace w ++ t
            /\ filter isRandom t = [].
Proof.
  unfold ProjectRouter.storeProcessed, tryCatch, bind, Db.createFile,
    Db.setEmbedding, bind, Db.write, ret.
  destruct (dbWriteFails env (count isDbWrite w)).
  { now exists [EvDbWrite]. }
  destruct (List.length v =? 768)%nat; [|now exists [EvDbWrite]].
  cbn. destruct (dbWriteFails env _); cbn;
    exists [EvDbWrite; EvDbWrite]; now rewrite <- app_assoc.
Qed.

(** X3.  The fallbacks that answer a failure of [generateEmbedding] are
    never reached.  The pipeline's [generateEmbedding] is the client's: the
    client never throws, so the [catch] of the wrapper, and with it
    [createFallbackEmbedding], is not reached through it.  For the same
    reason the ingestion that [createProject] starts never calls
    [Math.random]: the vector of random numbers is the answer to an
    exception that cannot be raised. *)
Theorem embedding_fallbacks_are_unreachable
    (env : Env) (w : World) (text projectId githuburl : string)
    (githubtoken : option string) :
  EmbeddingPipeline.generateEmbedding text env w
  = Gemini.generateEmbedding text env w
  /\ count isRandom (snd (ProjectRouter.embeddingProcess
                            projectId githuburl githubtoken env w))
     = count isRandom w.
Proof.
  split.
  { unfold EmbeddingPipeline.generateEmbedding,
      EmbeddingPipeline.generateEmbeddingVia.
    apply tryCatch_total. apply neverThrows_generateEmbeddingFrom. }
  set (R := fun w w' : World => count isRandom w' = count isRandom w).
  assert (Hrefl : forall w, R w w) by reflexivity.
  assert (Htrans : forall w1 w2 w3, R w1 w2 -> R w2 w3 -> R w1 w3)
    by (unfold R; congruence).
  assert (Hrec : forall e w, isRandom e = false -> R w (record e w)).
  { intros e w0 He. unfold R. rewrite count_record, He. lia. }
  assert (Hup : forall p c s, evolves R (Db.upsertCommit p c s)).
  { intros p c s env0 w0. unfold R, Db.upsertCommit, bind, Db.write.
    destruct (dbWriteFails env0 (count isDbWrite w0)); cbn [snd].
    - now rewrite count_record.
    - destruct (existsb (Db.hasHash (hash c)) (commits (record EvDbWrite w0)));
        cbn [snd]; unfold count; cbn [trace bumpId setCommits record];
        rewrite filter_app, length_app; cbn; lia. }
  assert (Hst : forall p n s c v,
             evolves R (ProjectRouter.storeProcessed p n s c v)).
  { intros p n s c v env0 w0. unfold R, count.
    destruct (storeProcessed_trace p n s c v env0 w0) as (t & -> & Ht).
    now rewrite filter_app, Ht, app_nil_r. }
  exact (@evolves_embeddingProcess R Hrefl Htrans Hrec projectId
           (Hst projectId) Hup githuburl githubtoken env w).
Qed.

(** *** The table of files *)

Lemma setEmbedding_fresh v id (l : list FileRecord) :
  (forall r, In r l -> (file_id r < id)%nat) ->
  map (fun r => if (file_id r =? id)%nat then Db.withEmbedding v r else r) l
  = l.
Proof.
  intros H. rewrite <- (map_id l) at 2. apply map_ext_in. intros r Hr.
  specialize (H r Hr). now replace (file_id r =? id)%nat with false
    by (symmetry; apply Nat.eqb_neq; lia).
Qed.

(** The row of a file is created and its vector written, or the row alone
    is created, or nothing is. *)
Lemma createFile_setEmbedding_appends (p n s c : string) (v : Vector)
      (k : FileRecord -> M unit) env w :
  (forall row, k row = Db.setEmbedding v (file_id row)
               \/ k row = ret tt) ->
  freshFileIds w ->
  let w' := snd (tryCatch (bind (Db.createFile n s c p) k)
                          (fun _ => ret tt) env w) in
  freshFileIds w' /\ filesAppended p w w'.
Proof.
  intros Hk Hf. cbv zeta.
  unfold tryCatch, bind, Db.createFile, bind, Db.write, ret.
  destruct (dbWriteFails env (count isDbWrite w)); cbn [snd fst].
  { split; [exact Hf|]. exists []. now rewrite app_nil_r. }
  set (row := mkFileRecord (nextId (record EvDbWrite w)) n s (Some c) p None).
  set (w1 := bumpId (setFiles (files (record EvDbWrite w) ++ [row])
                              (record EvDbWrite w))).
  assert (Hf1 : freshFileIds w1).
  { intros r Hr. cbn in Hr. apply in_app_iff in Hr.
    destruct Hr as [Hr|[<-|[]]]; cbn; [|lia].
    specialize (Hf r Hr). lia. }
  assert (Ha1 : filesAppended p w w1).
  { exists [row]. split; [reflexivity|]. now repeat constructor. }
  destruct (Hk row) as [-> | ->]; [|now split].
  unfold Db.setEmbedding, bind, Db.write.
  destruct (dbWriteFails env (count isDbWrite w1)); cbn [snd fst];
    [now split|].
  cbn [files record setFiles bumpId w1].
  rewrite map_app, setEmbedding_fresh
    by (intros r Hr; cbn; exact (Hf r Hr)).
  cbn [map file_id row nextId record]. rewrite Nat.eqb_refl.
  split.
  - intros r Hr. cbn in Hr. apply in_app_iff in Hr.
    destruct Hr as [Hr|[<-|[]]]; cbn; [|lia].
    specialize (Hf r Hr). lia.
  - eexists [_]. split; [reflexivity|]. now repeat constructor.
Qed.

(** X4.  Neither ingestion path changes or removes a row of the table of
    files: when the identifiers of the stored rows were given out before
    the next one, the rows stored by a run come after the rows that were
    there, which are untouched, and belong to the project being ingested. *)
Theorem ingestion_appends_files
    (env : Env) (w : World) (projectId url : string) (token : option string) :
  freshFileIds w ->
  filesAppended projectId w
    (snd (EmbeddingPipeline.indexGitHubRepo projectId url token env w))
  /\ filesAppended projectId w
       (snd (ProjectRouter.embeddingProcess projectId url token env w)).
Proof.
  set (R := fun w w' : World =>
              freshFileIds w ->
              freshFileIds w' /\ filesAppended projectId w w').
  assert (Hrefl : forall w, R w w).
  { intros w0 H. split; [exact H|]. exists []. now rewrite app_nil_r. }
  assert (Htrans : forall w1 w2 w3, R w1 w2 -> R w2 w3 -> R w1 w3).
  { intros w1 w2 w3 H12 H23 H1.
    destruct (H12 H1) as (H2 & a1 & E1 & F1).
    destruct (H23 H2) as (H3 & a2 & E2 & F2).
    split; [exact H3|]. exists (a1 ++ a2).
    split; [now rewrite E2, E1, app_assoc|now apply Forall_app]. }
  assert (Hrec : forall e w, isRandom e = false -> R w (record e w)).
  { intros e w0 _ H. split; [exact H|]. exists []. now rewrite app_nil_r. }
  assert (Hup : forall p c s, evolves R (Db.upsertCommit p c s)).
  { intros p c s env0 w0 H.
    destruct (upsertCommit_world p c s env0 w0) as (F & _ & N & _).
    split.
    - intros r Hr. rewrite F in Hr. specialize (H r Hr). lia.
    - exists []. now rewrite app_nil_r. }
  assert (Hsp : forall n s c v,
             evolves R (ProjectRouter.storeProcessed projectId n s c v)).
  { intros n s c v env0 w0 H.
    unfold ProjectRouter.storeProcessed.
    apply createFile_setEmbedding_appends with (v := v); [|exact H].
    intros row. destruct (List.length v =? 768)%nat; auto. }
  assert (Hsi : forall n s c v,
             evolves R (EmbeddingPipeline.storeIndexed projectId n s c v)).
  { intros n s c v env0 w0 H.
    unfold EmbeddingPipeline.storeIndexed.
    destruct (negb (List.length v =? 768)%nat); [now apply Hrefl|].
    apply createFile_setEmbedding_appends with (v := v); [|exact H].
    intros row. now left. }
  intros Hf. split.
  - exact (proj2 (@evolves_indexGitHubRepo R Hrefl Htrans Hrec projectId
                    Hsi url token env w Hf)).
  - exact (proj2 (@evolves_embeddingProcess R Hrefl Htrans Hrec projectId
                    Hsp Hup url token env w Hf)).
Qed.

Lemma ingestion_appends_files_witness :
  freshFileIds ElevenFiles.world
  /\ filesAppended "p1" ElevenFiles.world
       (snd (EmbeddingPipeline.indexGitHubRepo
               "p1" "https://github.com/acme/app" None
               exampleRepoEnv ElevenFiles.world)).
Proof.
  assert (H : freshFileIds ElevenFiles.world).
  { intros r Hr. cbn in Hr.
    repeat (destruct Hr as [<-|Hr]; [cbn; lia|]). destruct Hr. }
  split; [exact H|].
  exact (proj1 (ingestion_appends_files
                  exampleRepoEnv "p1" "https://github.com/acme/app" None H)).
Defined.

(* ================================================================== *)
(** ** The summary of one commit *)
(* ================================================================== *)

Lemma httpGetsOf_app t1 t2 :
  httpGetsOf (t1 ++ t2) = httpGetsOf t1 ++ httpGetsOf t2.
Proof. unfold httpGetsOf. apply flat_map_app. Qed.

Lemma generatePromptsOf_app t1 t2 :
  generatePromptsOf (t1 ++ t2) = generatePromptsOf t1 ++ generatePromptsOf t2.
Proof. unfold generatePromptsOf. apply flat_map_app. Qed.

(** The summary of a diff that was fetched: the model is called at most
    three times, and no request goes to the hosting service. *)
Lemma summarizeCommit_after_fetch diff env w :
  exists s t,
    tryCatch (Gemini.summarizeCommit diff) (fun _ => ret EmptyString) env w
    = (Ok s, extend t w)
    /\ httpGetsOf t = []
    /\ (List.length (generatePromptsOf t) <= 3)%nat.
Proof.
  unfold tryCatch.
  destruct (summarizeCommit_runs env w diff)
    as [(s & _ & ->)|[(s & _ & ->)|[(s & _ & ->)|(_ & ->)]]];
    eexists _, _; (split; [reflexivity|]); split; cbn; auto; lia.
Qed.

Lemma aiSummarizeCommitFrom_requests url h env fuel :
  forall retries w,
    exists s t k,
      Github.aiSummarizeCommitFrom fuel retries url h env w
      = (Ok s, extend t w)
      /\ httpGetsOf t = repeat (Github.diffUrl url h) k
      /\ (k <= fuel)%nat
      /\ ((0 < fuel)%nat -> (retries < Github.MAX_RETRIES)%nat -> (0 < k)%nat)
      /\ (List.length (generatePromptsOf t) <= 3)%nat.
Proof.
  induction fuel as [|fuel IH]; intros retries w.
  { exists EmptyString, [], 0%nat. cbn. rewrite extend_nil.
    repeat split; auto; lia. }
  rewrite aiSummarizeCommitFrom_step.
  destruct (retries <? Github.MAX_RETRIES)%nat eqn:Elt.
  2:{ exists EmptyString, [], 0%nat. cbn. rewrite extend_nil.
      apply Nat.ltb_ge in Elt. repeat split; auto; lia. }
  rewrite bind_run. unfold Github.axiosGetDiff at 1.
  set (g := EvHttpGet (Github.diffUrl url h)).
  rewrite record_extend.
  destruct (axiosGet env (count isHttpGet w) (Github.diffUrl url h))
    as [diff|status retryAfter|msg].
  - destruct (summarizeCommit_after_fetch diff env (extend [g] w))
      as (s & t & -> & Hg & Hp).
    exists s, ([g] ++ t), 1%nat. rewrite extend_extend.
    rewrite httpGetsOf_app, generatePromptsOf_app, Hg.
    repeat split; auto; cbn; lia.
  - destruct (status =? 403)%Z.
    { exists Github.forbiddenSummary, [g], 1%nat.
      repeat split; auto; cbn; lia. }
    destruct (status =? 404)%Z.
    { exists Github.notFoundSummary, [g], 1%nat.
      repeat split; auto; cbn; lia. }
    destruct (status =? 429)%Z.
    2:{ exists EmptyString, [g], 1%nat. repeat split; auto; cbn; lia. }
    rewrite bind_run. unfold sleep at 1. rewrite record_extend, extend_extend.
    destruct (IH (S retries) (extend ([g] ++ [EvSleep
               match retryAfter with
               | Some seconds => (seconds * 1000)%Z
               | None => Gemini.backoff (S retries)
               end]) w)) as (s & t & k & -> & Hg & Hk & _ & Hp).
    eexists s, (_ ++ t), (S k). rewrite extend_extend.
    split; [reflexivity|].
    rewrite httpGetsOf_app, generatePromptsOf_app, Hg.
    repeat split; auto; cbn in *; lia.
  - exists EmptyString, [g], 1%nat. repeat split; auto; cbn; lia.
Qed.

(** X5.  [aiSummarizeCommit] never throws, whatever the hosting service
    and the model answer.  It requests the diff of the commit at least once
    and at most three times, always at the same address, the URL of the
    repository followed by [/commit/<hash>.diff]; it calls the model at most
    three times and leaves the database as it is. *)
Theorem aiSummarizeCommit_total (env : Env) (w : World) (url h : string) :
  exists s t k,
    Github.aiSummarizeCommit url h env w = (Ok s, extend t w)
    /\ httpGetsOf t = repeat (url ++ "/commit/" ++ h ++ ".diff")%string k
    /\ (1 <= k <= 3)%nat
    /\ (List.length (generatePromptsOf t) <= 3)%nat.
Proof.
  destruct (aiSummarizeCommitFrom_requests url h env Github.MAX_RETRIES 0 w)
    as (s & t & k & E & Hg & Hk & Hpos & Hp).
  exists s, t, k. unfold Github.MAX_RETRIES in *.
  repeat split; auto; lia.
Qed.

(** X6.  A failure other than a rate limit is not retried: when the first
    request for the diff is answered with a status other than 429, or is
    not answered at all, [aiSummarizeCommit] makes no second request, waits
    for nothing and does not call the model.  Its result is the fixed
    sentence about access restrictions for status 403, the fixed sentence
    about a commit that could not be found for status 404, and the empty
    string otherwise. *)
Theorem aiSummarizeCommit_gives_up
    (env : Env) (w : World) (url h : string) :
  let answer := axiosGet env (count isHttpGet w) (Github.diffUrl url h) in
  (forall diff, answer <> AxiosData diff) ->
  (forall retryAfter, answer <> AxiosStatus 429 retryAfter) ->
  exists s,
    Github.aiSummarizeCommit url h env w
    = (Ok s, extend [EvHttpGet (Github.diffUrl url h)] w)
    /\ (forall retryAfter, answer = AxiosStatus 403 retryAfter ->
          s = Github.forbiddenSummary)
    /\ (forall retryAfter, answer = AxiosStatus 404 retryAfter ->
          s = Github.notFoundSummary)
    /\ ((forall retryAfter, answer <> AxiosStatus 403 retryAfter) ->
        (forall retryAfter, answer <> AxiosStatus 404 retryAfter) ->
        s = EmptyString).
Proof.
  intros answer Hdata Hlimit.
  unfold Github.aiSummarizeCommit, Github.MAX_RETRIES.
  rewrite aiSummarizeCommitFrom_step. cbn [Nat.ltb Nat.leb Github.MAX_RETRIES].
  rewrite bind_run. unfold Github.axiosGetDiff. rewrite record_extend.
  fold answer. destruct answer as [diff|status retryAfter|msg] eqn:Ea.
  - now destruct (Hdata diff).
  - destruct (status =? 403)%Z eqn:E403.
    { apply Z.eqb_eq in E403. subst status.
      exists Github.forbiddenSummary. repeat split; auto.
      + intros ra [=].
      + intros H _. now destruct (H retryAfter). }
    destruct (status =? 404)%Z eqn:E404.
    { apply Z.eqb_eq in E404. subst status.
      exists Github.notFoundSummary. repeat split; auto.
      + intros ra [=].
      + intros _ H. now destruct (H retryAfter). }
    destruct (status =? 429)%Z eqn:E429.
    { apply Z.eqb_eq in E429. subst status. now destruct (Hlimit retryAfter). }
    exists EmptyString. repeat split; auto.
    + intros ra [= -> _]. discriminate E403.
    + intros ra [= -> _]. discriminate E404.
  - exists EmptyString. repeat split; auto; intros ra [=].
Qed.

Lemma aiSummarizeCommit_gives_up_witness :
  exists s,
    Github.aiSummarizeCommit "https://github.com/acme/app" "a1b2"
                             failingEnv emptyWorld
    = (Ok s, extend [EvHttpGet (Github.diffUrl "https://github.com/acme/app"
                                               "a1b2")] emptyWorld)
    /\ s = EmptyString.
Proof.
  destruct (@aiSummarizeCommit_gives_up
              failingEnv emptyWorld "https://github.com/acme/app" "a1b2")
    as (s & E & _ & _ & H).
  - intros diff. discriminate.
  - intros retryAfter. discriminate.
  - exists s. split; [exact E|]. apply H; intros retryAfter; discriminate.
Defined.

(** X7.  A rate limit is retried, and waited for even when no attempt is
    left: when the three requests for the diff are answered with status
    429 and no [retry-after] header, [aiSummarizeCommit] waits after each of
    them, 2 s, 4 s and then 8 s, the last wait coming after the third and
    last attempt, and returns the empty string without having called the
    model. *)
Theorem aiSummarizeCommit_rate_limited
    (env : Env) (w : World) (url h : string) :
  (forall k, (k < 3)%nat ->
     axiosGet env (count isHttpGet w + k) (Github.diffUrl url h)
     = AxiosStatus 429 None) ->
  Github.aiSummarizeCommit url h env w
  = (Ok EmptyString,
     extend [EvHttpGet (Github.diffUrl url h); EvSleep 2000;
             EvHttpGet (Github.diffUrl url h); EvSleep 4000;
             EvHttpGet (Github.diffUrl url h); EvSleep 8000] w).
Proof.
  intros H.
  pose proof (H 0%nat ltac:(lia)) as H0. rewrite Nat.add_0_r in H0.
  pose proof (H 1%nat ltac:(lia)) as H1.
  pose proof (H 2%nat ltac:(lia)) as H2.
  unfold Github.aiSummarizeCommit, Github.MAX_RETRIES.
  unfold Github.aiSummarizeCommitFrom, bind, sleep, ret, Github.axiosGetDiff.
  cbn [Nat.ltb Nat.leb Github.MAX_RETRIES].
  trace_norm. rewrite H0. cbn [Z.eqb Pos.eqb].
  trace_norm. rewrite H1. cbn [Z.eqb Pos.eqb].
  trace_norm. replace (count isHttpGet w + 1 + 1)%nat
    with (count isHttpGet w + 2)%nat by lia.
  rewrite H2. cbn [Z.eqb Pos.eqb].
  trace_norm. reflexivity.
Qed.

Lemma aiSummarizeCommit_rate_limited_witness :
  exists t,
    Github.aiSummarizeCommit "https://github.com/acme/app" "a1b2"
                             rateLimitedEnv emptyWorld
    = (Ok EmptyString, extend t emptyWorld)
    /\ sleepsOf t = [2000; 4000; 8000]%Z
    /\ generatePromptsOf t = [].
Proof.
  eexists. split.
  - apply (@aiSummarizeCommit_rate_limited
             rateLimitedEnv emptyWorld "https://github.com/acme/app" "a1b2").
    intros k _. reflexivity.
  - split; reflexivity.
Defined.

(* ================================================================== *)
(** ** The owner and the repository of a URL *)
(* ================================================================== *)

Lemma append_assoc (a b c : string) : ((a ++ b) ++ c = a ++ (b ++ c))%string.
Proof. induction a as [|x a IH]; cbn; [reflexivity|now rewrite IH]. Qed.

Lemma length_append (a b : string) :
  String.length (a ++ b) = (String.length a + String.length b)%nat.
Proof. induction a as [|x a IH]; cbn; [reflexivity|now rewrite IH]. Qed.

Lemma prefix_empty s : String.prefix EmptyString s = true.
Proof. now destruct s. Qed.

Lemma includes_slash_cons c s :
  JsString.includes (String c s) "/"
  = Ascii.eqb c "/" || JsString.includes s "/".
Proof.
  cbn [JsString.includes]. f_equal. cbn [String.prefix].
  destruct (ascii_dec "/" c) as [<-|Hn].
  - now rewrite prefix_empty.
  - symmetry. apply Ascii.eqb_neq. congruence.
Qed.

Lemma includes_slash_app a b :
  JsString.includes (a ++ String "/" b) "/" = true.
Proof.
  induction a as [|c a IH]; cbn [String.append];
    rewrite includes_slash_cons; [reflexivity|].
  rewrite IH. apply orb_true_r.
Qed.

(** A string without a slash is one piece, and the piece before the first
    slash is what precedes it. *)
Lemma splitOnFrom_none s :
  forall cur,
    JsString.includes s "/" = false ->
    JsString.splitOnFrom "/" s cur = [(cur ++ s)%string].
Proof.
  induction s as [|c s IH]; intros cur H; cbn [JsString.splitOnFrom].
  - f_equal. clear H. induction cur as [|x cur IHc]; cbn; congruence.
  - rewrite includes_slash_cons in H. apply orb_false_iff in H.
    destruct H as [Hc Hs]. rewrite Hc, (IH _ Hs), append_assoc. reflexivity.
Qed.

Lemma splitOnFrom_first a b :
  forall cur,
    JsString.includes a "/" = false ->
    JsString.splitOnFrom "/" (a ++ String "/" b) cur
    = (cur ++ a)%string :: JsString.splitOnFrom "/" b EmptyString.
Proof.
  induction a as [|c a IH]; intros cur H;
    cbn [String.append JsString.splitOnFrom].
  - cbn. f_equal. induction cur as [|x cur IHc]; cbn; congruence.
  - rewrite includes_slash_cons in H. apply orb_false_iff in H.
    destruct H as [Hc Ha]. rewrite Hc, (IH _ Ha), append_assoc. reflexivity.
Qed.

Lemma dropGitSuffix_cons c s :
  Github.dropGitSuffix (String c s)
  = if String.eqb (String c s) ".git" then EmptyString
    else String c (Github.dropGitSuffix s).
Proof. reflexivity. Qed.

Lemma dropGitSuffix_slash a b :
  Github.dropGitSuffix (a ++ String "/" b)
  = (a ++ String "/" (Github.dropGitSuffix b))%string.
Proof.
  induction a as [|c a IH]; cbn [String.append]; rewrite dropGitSuffix_cons.
  - reflexivity.
  - replace (String.eqb (String c (a ++ String "/" b)) ".git") with false.
    + now rewrite IH.
    + symmetry. apply String.eqb_neq. intros E.
      pose proof (includes_slash_app (String c a) b) as Hi.
      cbn [String.append] in Hi. rewrite E in Hi. discriminate Hi.
Qed.

Lemma dropGitSuffix_no_slash s :
  JsString.includes s "/" = false ->
  JsString.includes (Github.dropGitSuffix s) "/" = false.
Proof.
  induction s as [|c s IH]; intros H; [exact H|].
  rewrite dropGitSuffix_cons.
  destruct (String.eqb (String c s) ".git"); [reflexivity|].
  rewrite includes_slash_cons in *. apply orb_false_iff in H.
  destruct H as [Hc Hs]. now rewrite Hc, (IH Hs).
Qed.

Lemma dropGitSuffix_git s : Github.dropGitSuffix (s ++ ".git") = s.
Proof.
  induction s as [|c s IH]; [reflexivity|].
  cbn [String.append]. rewrite dropGitSuffix_cons.
  replace (String.eqb (String c (s ++ ".git")) ".git") with false.
  - now rewrite IH.
  - symmetry. apply String.eqb_neq. intros E.
    apply (f_equal String.length) in E. cbn in E.
    rewrite length_append in E. cbn in E. lia.
Qed.

(** X8.  [parseGitHubUrl] reads the owner and the repository off the two
    segments of the path of a URL of [github.com], and drops a final [.git]
    from the repository. *)
Theorem parseGitHubUrl_owner_and_repo
    (env : Env) (w : World) (url owner name : string) :
  JsString.includes owner "/" = false ->
  JsString.includes name "/" = false ->
  urlParse env url
  = Some ("github.com", ("/" ++ owner ++ "/" ++ name)%string) ->
  Github.parseGitHubUrl url env w
  = (Ok (owner, Github.dropGitSuffix name), w)
  /\ (forall repo, name = (repo ++ ".git")%string ->
        Github.dropGitSuffix name = repo).
Proof.
  intros Ho Hn Hu. split.
  - unfold Github.parseGitHubUrl, Github.ownerAndRepo. rewrite Hu.
    cbn [String.eqb Ascii.eqb Bool.eqb negb String.append
         Github.dropLeadingSlash].
    rewrite dropGitSuffix_slash. unfold JsString.splitOn.
    rewrite splitOnFrom_first by assumption.
    rewrite splitOnFrom_none by now apply dropGitSuffix_no_slash.
    reflexivity.
  - intros repo ->. apply dropGitSuffix_git.
Qed.

Lemma parseGitHubUrl_owner_and_repo_witness :
  Github.parseGitHubUrl "https://github.com/acme/app" commitsEnv commitsWorld
  = (Ok ("acme", "app"), commitsWorld).
Proof.
  exact (proj1 (@parseGitHubUrl_owner_and_repo
                  commitsEnv commitsWorld "https://github.com/acme/app"
                  "acme" "app" eq_refl eq_refl eq_refl)).
Defined.

(** X9.  [parseGitHubUrl] throws "Invalid GitHub URL" for a URL that does
    not parse, for a host other than [github.com], and for a path of fewer
    than two segments; [getCommitHashes] then throws the same error without
    a request to the hosting service. *)
Theorem parseGitHubUrl_rejects (env : Env) (w : World) (url : string) :
  (urlParse env url = None
   \/ (exists host path,
         urlParse env url = Some (host, path) /\ host <> "github.com")
   \/ (exists path,
         urlParse env url = Some ("github.com", path)
         /\ JsString.includes (Github.dropLeadingSlash path) "/" = false)) ->
  Github.parseGitHubUrl url env w = (Thrown "Invalid GitHub URL", w)
  /\ Github.getCommitHashes url env w = (Thrown "Invalid GitHub URL", w).
Proof.
  intros H.
  assert (E : Github.ownerAndRepo env url = Thrown "Invalid GitHub URL").
  { unfold Github.ownerAndRepo.
    destruct H as [->|[(host & path & -> & Hh)|(path & -> & Hp)]].
    - reflexivity.
    - apply String.eqb_neq in Hh. now rewrite Hh.
    - cbn [String.eqb Ascii.eqb Bool.eqb negb]. unfold JsString.splitOn.
      rewrite splitOnFrom_none by now apply dropGitSuffix_no_slash.
      reflexivity. }
  unfold Github.getCommitHashes, bind, Github.parseGitHubUrl.
  now rewrite E.
Qed.

Lemma parseGitHubUrl_rejects_witness :
  Github.getCommitHashes "https://gitlab.com/acme/app" failingEnv emptyWorld
  = (Thrown "Invalid GitHub URL", emptyWorld).
Proof.
  exact (proj2 (@parseGitHubUrl_rejects
                  failingEnv emptyWorld "https://gitlab.com/acme/app"
                  (or_introl eq_refl))).
Defined.

(* ================================================================== *)
(** ** The commits a pull takes for new *)
(* ================================================================== *)

Lemma processed_hashes projectId hashes rows h :
  In h hashes ->
  existsb (String.eqb h)
          (map commitHash
               (filter (fun c => String.eqb (commit_projectId c) projectId
                                 && existsb (String.eqb (commitHash c)) hashes)
                       rows))
  = Db.ownsHash projectId h rows.
Proof.
  intros Hin. apply eq_true_iff_eq. unfold Db.ownsHash, Db.hasHash.
  rewrite !existsb_exists. split.
  - intros (h' & Hh & E). apply String.eqb_eq in E. subst h'.
    apply in_map_iff in Hh. destruct Hh as (r & Er & Hr).
    apply filter_In in Hr. destruct Hr as [Hr Hp].
    apply andb_true_iff in Hp. destruct Hp as [Hp _].
    exists r. split; [assumption|].
    rewrite Hp, Er. now rewrite String.eqb_refl.
  - intros (r & Hr & Hp). apply andb_true_iff in Hp.
    destruct Hp as [Hp Eh]. apply String.eqb_eq in Eh.
    exists h. split; [|apply String.eqb_refl].
    apply in_map_iff. exists r. split; [assumption|].
    apply filter_In. split; [assumption|].
    rewrite Hp. cbn [andb]. apply existsb_exists.
    exists h. split; [assumption|].
    rewrite Eh. apply String.eqb_refl.
Qed.

(** X10.  [filterOutUnprocessedCommits] returns, in their order, the hashes
    for which the project has no row, and reads the database only: a hash
    that only another project stores is returned as new. *)
Theorem filterOutUnprocessedCommits_new_hashes
    (env : Env) (w : World) (projectId : string) (hashes : list string) :
  Github.filterOutUnprocessedCommits projectId hashes env w
  = (Ok (filter (fun h => negb (Db.ownsHash projectId h (commits w))) hashes),
     w).
Proof.
  unfold Github.filterOutUnprocessedCommits, bind, Db.findCommitsIn, ret.
  do 2 f_equal. apply filter_ext_in. intros h Hh.
  now rewrite processed_hashes.
Qed.

(** X11.  [pullCommit] on a project that has no row, or whose row has no
    repository URL, throws "Could not pull commits: Project or GitHub URL
    not found" before any request is sent and before anything is written. *)
Theorem pullCommit_unknown_project
    (env : Env) (w : World) (projectId : string) :
  (forall p, In p (projects w) -> project_id p = projectId ->
             githuburl p = None \/ githuburl p = Some EmptyString) ->
  Github.pullCommit projectId env w
  = (Thrown "Could not pull commits: Project or GitHub URL not found", w).
Proof.
  intros H.
  unfold Github.pullCommit, tryCatch, bind, Github.fetchProjectGithubUrl,
    bind, Db.findProject.
  destruct (find (fun p => String.eqb (project_id p) projectId) (projects w))
    as [[id url]|] eqn:Ef; [|reflexivity].
  apply find_some in Ef. destruct Ef as [Hin Hid].
  apply String.eqb_eq in Hid.
  destruct (H _ Hin Hid) as [E|E]; cbn in E; subst url; reflexivity.
Qed.

Lemma pullCommit_unknown_project_witness :
  Github.pullCommit "p2" commitsEnv commitsWorld
  = (Thrown "Could not pull commits: Project or GitHub URL not found",
     commitsWorld).
Proof.
  apply pullCommit_unknown_project.
  intros p [<-|[]] E. discriminate E.
Defined.

(* ================================================================== *)
(** ** The summary of a file *)
(* ================================================================== *)

Lemma sliceTo_sliceTo n : forall s,
  JsString.sliceTo n (JsString.sliceTo n s) = JsString.sliceTo n s.
Proof.
  induction n as [|n IH]; intros [|c s]; cbn; try reflexivity.
  now rewrite IH.
Qed.

(** X12.  [summarizeCode] never throws and never answers with the empty
    string of its own [catch]: it asks the model between one and three
    times, each time with the prompt for the explanation of the code put
    inside the prompt for the summary of a git diff, and when the three
    calls fail its answer is the generic sentence that [summarizeCommit]
    gives for a commit.  Only the first 10000 characters of the code reach
    the prompt. *)
Theorem summarizeCode_never_fails (env : Env) (w : World) (code : string) :
  let prompt :=
    Gemini.summarizePrompt (EmbeddingPipeline.summarizeCodePrompt code) in
  exists s t k,
    EmbeddingPipeline.summarizeCode code env w = (Ok s, extend t w)
    /\ (1 <= k <= 3)%nat
    /\ generatePromptsOf t = repeat prompt k
    /\ ((forall j, (j < 3)%nat ->
           exists m, generateContent env (count isGenerate w + j) prompt
                     = Thrown m) ->
        s = Gemini.summaryFallback)
    /\ EmbeddingPipeline.summarizeCodePrompt code
       = EmbeddingPipeline.summarizeCodePrompt
           (JsString.sliceTo (Z.to_nat 10000) code).
Proof.
  intros prompt.
  assert (Hslice : EmbeddingPipeline.summarizeCodePrompt code
                   = EmbeddingPipeline.summarizeCodePrompt
                       (JsString.sliceTo (Z.to_nat 10000) code)).
  { unfold EmbeddingPipeline.summarizeCodePrompt.
    now rewrite sliceTo_sliceTo. }
  unfold EmbeddingPipeline.summarizeCode, tryCatch.
  destruct (summarizeCommit_runs env w
              (EmbeddingPipeline.summarizeCodePrompt code))
    as [(s & E & ->)|[(s & E & ->)|[(s & E & ->)|(_ & ->)]]];
    fold prompt in E || idtac.
  - exists s, [EvGenerate prompt], 1%nat.
    repeat split; auto.
    intros H. destruct (H 0%nat ltac:(lia)) as (m & Hm).
    rewrite Nat.add_0_r in Hm. congruence.
  - exists s, [EvGenerate prompt; EvSleep 2000; EvGenerate prompt], 2%nat.
    repeat split; auto.
    intros H. destruct (H 1%nat ltac:(lia)) as (m & Hm). congruence.
  - exists s, [EvGenerate prompt; EvSleep 2000; EvGenerate prompt;
               EvSleep 4000; EvGenerate prompt], 3%nat.
    repeat split; auto.
    intros H. destruct (H 2%nat ltac:(lia)) as (m & Hm). congruence.
  - exists Gemini.summaryFallback,
      [EvGenerate prompt; EvSleep 2000; EvGenerate prompt;
       EvSleep 4000; EvGenerate prompt], 3%nat.
    repeat split; auto.
Qed.

(* ================================================================== *)
(** ** The fallback vectors *)
(* ================================================================== *)

(** X13.  Every component of the fallback vector of the client is a
    multiple of one hundredth that lies strictly between -3 and 1, and at
    least -1 when the hash is not negative; the range announced in the
    source, from -1 to 1, does not hold in general, since the remainder of
    a negative hash by 200 is negative
    ([fallbackEmbedding_below_minus_one]). *)
Theorem fallbackEmbedding_components (text : string) (x : R) :
  In x (Gemini.fallbackEmbedding text) ->
  (-3 < x < 1)%R
  /\ exists i z,
       (i < 768)%nat
       /\ z = Z.rem (Gemini.fallbackHash text i) 200
       /\ (-200 < z < 200)%Z
       /\ x = (IZR z / 100 - 1)%R
       /\ ((0 <= Gemini.fallbackHash text i)%Z -> (-1 <= x)%R).
Proof.
  unfold Gemini.fallbackEmbedding. rewrite in_map_iff.
  intros (i & <- & Hi). apply in_seq in Hi.
  set (z := Z.rem (Gemini.fallbackHash text i) 200).
  assert (Hz : (-200 < z < 200)%Z).
  { pose proof (Z.rem_bound_abs (Gemini.fallbackHash text i) 200
                  ltac:(lia)). fold z in H. lia. }
  assert (H1 : (IZR (-200) < IZR z)%R) by (apply IZR_lt; lia).
  assert (H2 : (IZR z < IZR 200)%R) by (apply IZR_lt; lia).
  split; [lra|].
  exists i, z. repeat split; try lia; try reflexivity.
  intros Hpos.
  assert (H0 : (0 <= z)%Z) by (apply Z.rem_nonneg; lia).
  apply IZR_le in H0. lra.
Qed.

Lemma fallbackEmbedding_components_witness :
  (-3 < nth 0 (Gemini.fallbackEmbedding "billing") 0 < 1)%R.
Proof.
  apply (@fallbackEmbedding_components "billing").
  unfold Gemini.fallbackEmbedding. cbn [seq map nth]. now left.
Defined.

(** X14.  Every component of the vector of [createFallbackEmbedding] is
    the fractional part of a number: it is at least 0 and less than 1. *)
Theorem createFallbackEmbedding_components (text : string) (x : R) :
  In x (EmbeddingPipeline.createFallbackEmbedding text) ->
  (0 <= x < 1)%R.
Proof.
  unfold EmbeddingPipeline.createFallbackEmbedding. rewrite in_map_iff.
  intros (i & <- & _).
  unfold EmbeddingPipeline.seededRandom, EmbeddingPipeline.floor.
  cbv zeta.
  destruct (base_Int_part (sin (IZR (EmbeddingPipeline.hash text + Z.of_nat i))
                           * 10000)) as [H1 H2].
  lra.
Qed.

Lemma createFallbackEmbedding_components_witness :
  (0 <= nth 0 (EmbeddingPipeline.createFallbackEmbedding "billing") 0 < 1)%R.
Proof.
  apply (@createFallbackEmbedding_components "billing").
  unfold EmbeddingPipeline.createFallbackEmbedding. cbn [seq map nth].
  now left.
Defined.

(** *** The two string hashes *)

Lemma wrap_mod z : (Int32.wrap z mod 2 ^ 32 = z mod 2 ^ 32)%Z.
Proof.
  unfold Int32.wrap.
  rewrite Zminus_mod, Zmod_mod, <- Zminus_mod.
  f_equal. lia.
Qed.

Lemma wrap_congr a b :
  (a mod 2 ^ 32 = b mod 2 ^ 32)%Z -> Int32.wrap a = Int32.wrap b.
Proof.
  intros H. unfold Int32.wrap.
  rewrite (Zplus_mod a), (Zplus_mod b), H. reflexivity.
Qed.

Lemma wrap_wrap z : Int32.wrap (Int32.wrap z) = Int32.wrap z.
Proof. apply wrap_congr, wrap_mod. Qed.

(** One step of the hash of [createFallbackEmbedding]: the shift by five
    bits less the hash is 31 times the hash. *)
Lemma hashStep_polynomial h c :
  EmbeddingPipeline.hashStep h c
  = Int32.wrap (31 * h + JsString.charCode c).
Proof.
  unfold EmbeddingPipeline.hashStep, Int32.and, Int32.shl. cbv zeta.
  rewrite Z.land_diag, wrap_wrap.
  apply wrap_congr.
  rewrite Z.shiftl_mul_pow2 by lia.
  rewrite Zplus_mod, Zminus_mod, wrap_mod.
  rewrite Zmult_mod, wrap_mod, <- Zmult_mod.
  rewrite <- Zminus_mod, <- Zplus_mod.
  f_equal. lia.
Qed.

(** One step of the hash of the fallback of the client. *)
Lemma fallbackHash_step_polynomial h c :
  Int32.or0 (Int32.imul 31 h + JsString.charCode c)
  = Int32.wrap (31 * h + JsString.charCode c).
Proof.
  unfold Int32.or0, Int32.imul.
  apply wrap_congr.
  rewrite Zplus_mod, wrap_mod.
  rewrite Zmult_mod, !wrap_mod, <- Zmult_mod.
  now rewrite <- Zplus_mod.
Qed.

(** X15.  The two fallback vectors are built on the same hash of the text:
    the hash that [createFallbackEmbedding] computes with a shift and a
    subtraction, and the hash that the client computes with [Math.imul],
    both multiply by 31, add the code of the character and wrap to 32 bits;
    the first starts from 0, the second from the position plus one.  The
    hash always lies in the range of the signed 32-bit integers. *)
Theorem fallback_hashes_polynomial (text : string) (i : nat) :
  let step := fun h c => Int32.wrap (31 * h + JsString.charCode c) in
  EmbeddingPipeline.hash text
  = fold_left step (list_ascii_of_string text) 0%Z
  /\ Gemini.fallbackHash text i
     = fold_left step
                 (list_ascii_of_string (JsString.orElse text "fallback"))
                 (Z.of_nat i + 1)%Z
  /\ (- 2 ^ 31 <= EmbeddingPipeline.hash text < 2 ^ 31)%Z.
Proof.
  intros step.
  assert (Hfold : forall (f g : Z -> ascii -> Z) l a,
             (forall h c, f h c = g h c) ->
             fold_left f l a = fold_left g l a).
  { intros f g l. induction l as [|c l IH]; intros a H; cbn; [reflexivity|].
    rewrite H. now apply IH. }
  assert (H1 : EmbeddingPipeline.hash text
               = fold_left step (list_ascii_of_string text) 0%Z).
  { unfold EmbeddingPipeline.hash. apply Hfold.
    intros h c. apply hashStep_polynomial. }
  split; [exact H1|]. split.
  - unfold Gemini.fallbackHash. apply Hfold.
    intros h c. apply fallbackHash_step_polynomial.
  - rewrite H1.
    assert (Hr : forall l a, (- 2 ^ 31 <= a < 2 ^ 31)%Z ->
                 (- 2 ^ 31 <= fold_left step l a < 2 ^ 31)%Z).
    { induction l as [|c l IH]; intros a Ha; cbn; [exact Ha|].
      apply IH. apply wrap_range. }
    apply Hr. lia.
Qed.

(** The first component of the fallback vector of the empty text lies
    below -1. *)
Lemma fallbackEmbedding_below_minus_one :
  (nth 0 (Gemini.fallbackEmbedding EmptyString) 0 < -1)%R.
Proof.
  unfold Gemini.fallbackEmbedding. cbn [seq map nth].
  replace (Z.rem (Gemini.fallbackHash EmptyString 0) 200) with (-101)%Z
    by (vm_compute; reflexivity).
  lra.
Qed.

(* ================================================================== *)
(** ** The answers of [POST /api/qa] *)
(* ================================================================== *)

Lemma embedRequestsOf_app t1 t2 :
  embedRequestsOf (t1 ++ t2) = embedRequestsOf t1 ++ embedRequestsOf t2.
Proof. unfold embedRequestsOf. apply flat_map_app. Qed.

Lemma sleepsOf_app t1 t2 : sleepsOf (t1 ++ t2) = sleepsOf t1 ++ sleepsOf t2.
Proof. unfold sleepsOf. apply flat_map_app. Qed.

Lemma semanticTopFiles_In q files f :
  In f (QaRoute.semanticTopFiles q files) -> In f files.
Proof.
  unfold QaRoute.semanticTopFiles. rewrite in_map_iff.
  intros ([g s] & <- & Hin). apply In_firstn in Hin.
  now apply semanticRanking_In in Hin.
Qed.

Lemma length_top5 {A B} (f : A -> B) (l : list A) :
  (List.length (map f (firstn 5 l)) <= 5)%nat.
Proof. rewrite length_map. apply firstn_le_length. Qed.

(** The selection of the files of the context: it never throws, calls the
    embedding service in semantic mode only, and selects at most five of
    the files it is given. *)
Lemma selectTopFiles_run question semanticMode files env w :
  exists top t,
    QaRoute.selectTopFiles question semanticMode files env w
    = (Ok top, extend t w)
    /\ generatePromptsOf t = []
    /\ (semanticMode = false -> t = [])
    /\ (List.length top <= 5)%nat
    /\ (forall f, In f top -> In f files).
Proof.
  unfold QaRoute.selectTopFiles. destruct semanticMode.
  - unfold tryCatch, bind, ret.
    unfold EmbeddingPipeline.generateEmbedding,
      EmbeddingPipeline.generateEmbeddingVia.
    rewrite tryCatch_total by apply neverThrows_generateEmbeddingFrom.
    destruct (generateEmbedding_runs env w question)
      as [(v & _ & ->)|[(v & _ & ->)|[(v & _ & ->)|(_ & ->)]]];
      eexists _, _; (split; [reflexivity|]);
      (split; [reflexivity|]); (split; [discriminate|]);
      (split; [apply length_top5|apply semanticTopFiles_In]).
  - exists (QaRoute.keywordTopFiles question files), [].
    rewrite extend_nil. unfold ret.
    repeat split; auto.
    + apply length_top5.
    + apply keywordTopFiles_In.
Qed.

Lemma findFiles_rows projectId take env w :
  exists rows,
    Db.findFiles projectId take env w = (Ok rows, w)
    /\ forall f, In f rows -> In f (files w) /\ file_projectId f = projectId.
Proof.
  unfold Db.findFiles. eexists. split; [reflexivity|]. intros g Hg.
  assert (Hin : In g (filter (fun r => String.eqb (file_projectId r) projectId)
                             (files w))).
  { destruct take as [n|]; [now apply In_firstn in Hg|exact Hg]. }
  apply filter_In in Hin. destruct Hin as [H1 H2].
  now apply String.eqb_eq in H2.
Qed.

(** X16.  [POST /api/qa] answers without a call to the model when it has
    nothing to ask about: a request without a question or without a project
    is refused with status 400, and for a project without stored files the
    answer is the fixed sentence that asks to add files, with no referenced
    file.  Nothing is sent to a service and nothing is written. *)
Theorem POST_without_files
    (env : Env) (w : World) (question projectId : string)
    (semanticMode : bool) :
  (question = EmptyString \/ projectId = EmptyString ->
   QaRoute.POST question projectId semanticMode env w
   = (Ok (QaRoute.BadRequest
            "Missing required fields: question and projectId"), w))
  /\ (question <> EmptyString -> projectId <> EmptyString ->
      (forall r, In r (files w) -> file_projectId r <> projectId) ->
      QaRoute.POST question projectId semanticMode env w
      = (Ok (QaRoute.Answered
               "Sorry, no files were found for this project. Please add some files first."
               []), w)).
Proof.
  split.
  - intros [-> | ->]; unfold QaRoute.POST, tryCatch, ret; cbn;
      [reflexivity|now destruct question].
  - intros Hq Hp Hnone.
    unfold QaRoute.POST, tryCatch, bind, ret, QaRoute.fetchFiles, Db.findFiles.
    destruct question as [|c q]; [contradiction|].
    destruct projectId as [|c' p]; [contradiction|].
    cbn [JsString.truthy negb orb].
    rewrite filter_none.
    + now destruct semanticMode.
    + intros r Hr. apply String.eqb_neq. now apply Hnone.
Qed.

(** X17.  [POST /api/qa] always responds: it never throws and never writes
    to the database; it asks the model for the answer at most once, without
    retrying; in keyword mode it neither calls the embedding service nor
    waits.  An answer references at most five files, each of them a stored
    file of the project; when the model rejects every call the answer is
    the fixed apology, with the referenced files still returned. *)
Theorem POST_always_responds
    (env : Env) (w : World) (question projectId : string)
    (semanticMode : bool) :
  exists resp t,
    QaRoute.POST question projectId semanticMode env w
    = (Ok resp, extend t w)
    /\ (List.length (generatePromptsOf t) <= 1)%nat
    /\ (semanticMode = false -> embedRequestsOf t = [] /\ sleepsOf t = [])
    /\ forall answer refs,
         resp = QaRoute.Answered answer refs ->
         (List.length refs <= 5)%nat
         /\ (forall r, In r refs ->
               exists f, In f (files w) /\ file_projectId f = projectId
                         /\ r = QaRoute.reference f)
         /\ ((forall n p, exists m, generateContent env n p = Thrown m) ->
             refs <> [] -> answer = QaRoute.apology).
Proof.
  unfold QaRoute.POST, tryCatch.
  destruct (negb (JsString.truthy question)
            || negb (JsString.truthy projectId)).
  { eexists _, []. rewrite extend_nil. unfold ret.
    split; [reflexivity|]. split; [cbn; lia|]. split; [now split|].
    intros a refs [=]. }
  unfold bind at 1. unfold QaRoute.fetchFiles.
  destruct (findFiles_rows projectId
              (if semanticMode then None else Some 10%nat) env w)
    as (rows & -> & Hrows).
  destruct (List.length rows =? 0)%nat eqn:El.
  { eexists _, []. rewrite extend_nil. unfold ret.
    split; [reflexivity|]. split; [cbn; lia|]. split; [now split|].
    intros a refs [= <- <-]. split; [cbn; lia|]. split.
    - intros r [].
    - intros _ H. now destruct H. }
  unfold bind.
  destruct (selectTopFiles_run question semanticMode rows env w)
    as (top & t & -> & Hg & Hk & Hlen & Hin).
  unfold Gemini.callGenerateContent. rewrite record_extend, extend_extend.
  set (prompt := QaRoute.promptOf _ question).
  destruct (generateContent env (count isGenerate (extend t w)) prompt)
    as [answer|m] eqn:Ea; unfold ret;
    eexists _, _; (split; [reflexivity|]);
    rewrite generatePromptsOf_app, Hg;
    (split; [cbn; lia|]);
    (split; [intros Hm; rewrite (Hk Hm); now split|]);
    intros a refs [= <- <-]; rewrite length_map;
    (split; [exact Hlen|]);
    (split; [intros r Hr; apply in_map_iff in Hr;
             destruct Hr as (f & <- & Hf); exists f;
             destruct (Hrows f (Hin f Hf)); auto|]).
  - intros Hfail _. destruct (Hfail (count isGenerate (extend t w)) prompt).
    congruence.
  - reflexivity.
Qed.

(* ================================================================== *)
(** ** Semantic mode without vectors *)
(* ================================================================== *)

(** Elements that the comparison function never orders are left where they
    are by [sort]. *)
Lemma sort_all_tied {A} (after : A -> A -> bool) (l : list A) :
  (forall x y, In x l -> In y l -> after x y = false) ->
  JsArray.sort after l = l.
Proof.
  induction l as [|x l IH]; intros H; [reflexivity|].
  cbn [JsArray.sort fold_right]. fold (JsArray.sort after l).
  rewrite IH by (intros a b Ha Hb; apply H; now right).
  destruct l as [|y l]; [reflexivity|].
  cbn [JsArray.insert]. rewrite H; [reflexivity|now left|right; now left].
Qed.

(** X18.  When no stored vector can be compared with the vector of the
    question (the file has none, or one of another length), semantic mode
    returns the first five files in the order of the table: every
    similarity is -1 and the sort, being stable, moves nothing. *)
Theorem semantic_mode_without_vectors
    (questionEmbedding : Vector) (files : list FileRecord) :
  (forall f, In f files ->
             QaRoute.hasValidVector questionEmbedding f = false) ->
  QaRoute.semanticTopFiles questionEmbedding files = firstn 5 files.
Proof.
  intros H. unfold QaRoute.semanticTopFiles, QaRoute.semanticRanking.
  rewrite sort_all_tied.
  - rewrite <- firstn_map, map_map. cbn [fst]. now rewrite map_id.
  - intros [f sf] [g sg] Hf Hg.
    apply in_map_iff in Hf. destruct Hf as (f' & [= <- <-] & Hf).
    apply in_map_iff in Hg. destruct Hg as (g' & [= <- <-] & Hg).
    rewrite similarityAfter_ge. cbn [snd].
    rewrite !similarity_invalid by auto. lra.
Qed.

Lemma semantic_mode_without_vectors_witness :
  QaRoute.semanticTopFiles SemanticSamples.questionVector
                           [SemanticSamples.noVectorFile; ElevenFiles.plain 3]
  = [SemanticSamples.noVectorFile; ElevenFiles.plain 3].
Proof.
  apply (@semantic_mode_without_vectors
           SemanticSamples.questionVector
           [SemanticSamples.noVectorFile; ElevenFiles.plain 3]).
  intros f [<-|[<-|[]]]; reflexivity.
Defined.

(* ================================================================== *)
(** ** The rows that [createProject] stores *)
(* ================================================================== *)

(** Steps that leave the table of files as it is. *)
Lemma sameFiles_refl : forall w : World, sameFiles w w.
Proof. reflexivity. Qed.

Lemma sameFiles_trans :
  forall w1 w2 w3 : World,
    sameFiles w1 w2 -> sameFiles w2 w3 -> sameFiles w1 w3.
Proof. unfold sameFiles. intros; congruence. Qed.

Lemma sameFiles_record :
  forall e w, isRandom e = false -> sameFiles w (record e w).
Proof. reflexivity. Qed.

Lemma sameFiles_pullCommit projectId :
  evolves sameFiles (Github.pullCommit projectId).
Proof.
  apply (@evolves_pullCommit sameFiles
           sameFiles_refl sameFiles_trans sameFiles_record).
  intros p c s env0 w0. now destruct (upsertCommit_world p c s env0 w0).
Qed.

Lemma sameFiles_summary code (h : string -> M string) :
  (forall msg, evolves sameFiles (h msg)) ->
  evolves sameFiles (tryCatch (EmbeddingPipeline.summarizeCode code) h).
Proof.
  intros Hh. apply (@evolves_tryCatch sameFiles sameFiles_trans); [|exact Hh].
  apply (@evolves_summarizeCode sameFiles
           sameFiles_refl sameFiles_trans sameFiles_record).
Qed.

Lemma sameFiles_vector text (h : string -> M Vector) :
  evolves sameFiles (tryCatch (EmbeddingPipeline.generateEmbedding text) h).
Proof.
  apply evolves_tryCatch_total.
  - apply neverThrows_pipeline_generateEmbedding.
  - apply (@evolves_pipeline_generateEmbedding sameFiles
             sameFiles_refl sameFiles_trans sameFiles_record).
Qed.

Lemma sameFiles_loadDocsFrom fuel retries docs url token :
  evolves sameFiles (ProjectRouter.loadDocsFrom fuel retries docs url token).
Proof.
  apply (@evolves_loadDocsFrom sameFiles
           sameFiles_refl sameFiles_trans sameFiles_record).
Qed.

(** With a database that accepts every write, the row of a processed file
    is stored under its name with its content, whatever the length of its
    vector. *)
Lemma storeProcessed_stores env p n s c v w :
  (forall k, dbWriteFails env k = false) ->
  exists w',
    ProjectRouter.storeProcessed p n s c v env w = (Ok tt, w')
    /\ processedOf (trace w') = processedOf (trace w)
    /\ map fileName (files w') = map fileName (files w) ++ [n]
    /\ map sourceCode (files w') = map sourceCode (files w) ++ [Some c].
Proof.
  intros Hdb.
  unfold ProjectRouter.storeProcessed, tryCatch, bind, Db.createFile,
    Db.setEmbedding, bind, Db.write, ret.
  rewrite Hdb.
  destruct (List.length v =? 768)%nat.
  - rewrite Hdb. eexists. split; [reflexivity|].
    cbn [trace files record setFiles bumpId].
    split; [now rewrite !processedOf_app, !app_nil_r|].
    rewrite !map_map.
    split.
    + rewrite (map_ext _ fileName), map_app; [reflexivity|].
      intros r. now destruct (file_id r =? _)%nat.
    + rewrite (map_ext _ sourceCode), map_app; [reflexivity|].
      intros r. now destruct (file_id r =? _)%nat.
  - eexists. split; [reflexivity|].
    cbn [trace files record setFiles bumpId].
    split; [now rewrite processedOf_app, app_nil_r|].
    now rewrite !map_app.
Qed.

Lemma processDocument_stores env projectId total i doc w :
  (forall k, dbWriteFails env k = false) ->
  exists w',
    ProjectRouter.processDocument projectId total i doc env w = (Ok tt, w')
    /\ processedOf (trace w')
       = processedOf (trace w) ++ [ProjectRouter.documentName i doc]
    /\ map fileName (files w')
       = map fileName (files w) ++ [ProjectRouter.documentName i doc]
    /\ map sourceCode (files w')
       = map sourceCode (files w) ++ [Some (pageContent doc)].
Proof.
  intros Hdb. unfold ProjectRouter.processDocument.
  set (name := ProjectRouter.documentName i doc).
  unfold bind at 1. unfold EmbeddingPipeline.announce at 1.
  set (w1 := record (EvProcessing (i + 1) total name) w).
  (* the summary *)
  unfold bind at 1.
  pose proof (@neverThrows_tryCatch _
                (EmbeddingPipeline.summarizeCode (pageContent doc))
                (fun _ => ret ("Summary unavailable for " ++ name)%string)
                (fun _ => neverThrows_ret _) env w1) as (summ & w2 & E2).
  pose proof (@quiet_tryCatch _
                (EmbeddingPipeline.summarizeCode (pageContent doc))
                (fun _ => ret ("Summary unavailable for " ++ name)%string)
                (quiet_summarizeCode _) (fun _ => quiet_ret _) env w1) as Q2.
  pose proof (@sameFiles_summary (pageContent doc)
                (fun _ => ret ("Summary unavailable for " ++ name)%string)
                (fun _ => @evolves_ret sameFiles sameFiles_refl _ _)
                env w1) as F2.
  rewrite E2 in Q2, F2 |- *. unfold sameFiles in F2. cbn [snd] in Q2, F2.
  (* the vector *)
  unfold bind at 1.
  pose proof (@neverThrows_tryCatch _
                (EmbeddingPipeline.generateEmbedding summ)
                (fun _ => ProjectRouter.randomVector 768)
                (fun _ => proj1 (calm_randomVector 768)) env w2)
    as (v & w3 & E3).
  pose proof (@quiet_tryCatch _
                (EmbeddingPipeline.generateEmbedding summ)
                (fun _ => ProjectRouter.randomVector 768)
                (quiet_generateEmbedding _)
                (fun _ => proj2 (calm_randomVector 768)) env w2) as Q3.
  pose proof (@sameFiles_vector summ
                (fun _ => ProjectRouter.randomVector 768) env w2) as F3.
  rewrite E3 in Q3, F3 |- *. unfold sameFiles in F3. cbn [snd] in Q3, F3.
  (* the row *)
  destruct (@storeProcessed_stores env projectId name summ (pageContent doc)
              v w3 Hdb) as (w4 & E4 & P4 & N4 & C4).
  exists w4. split; [exact E4|].
  rewrite P4, N4, C4, Q3, Q2, F3, F2.
  subst w1. cbn [trace files record].
  now rewrite processedOf_app.
Qed.

Lemma forEachFrom_stores env projectId total :
  (forall k, dbWriteFails env k = false) ->
  forall docs i w,
  exists w',
    forEachFrom i docs (ProjectRouter.processDocument projectId total) env w
    = (Ok tt, w')
    /\ processedOf (trace w')
       = processedOf (trace w) ++ namesFrom ProjectRouter.documentName i docs
    /\ map fileName (files w')
       = map fileName (files w) ++ namesFrom ProjectRouter.documentName i docs
    /\ map sourceCode (files w')
       = map sourceCode (files w)
         ++ map (fun d => Some (pageContent d)) docs.
Proof.
  intros Hdb. induction docs as [|d docs IH]; intros i w.
  - exists w. cbn. now rewrite !app_nil_r.
  - cbn [forEachFrom namesFrom map]. unfold bind.
    destruct (@processDocument_stores env projectId total i d w Hdb)
      as (w1 & -> & P1 & N1 & C1).
    destruct (IH (S i) w1) as (w2 & -> & P2 & N2 & C2).
    exists w2. split; [reflexivity|].
    rewrite P2, N2, C2, P1, N1, C1, <- !app_assoc. now cbn.
Qed.

(** The rows of a run of the ingestion whose loading loop ended with the
    documents [docs]. *)
Lemma embeddingProcess_stores env w w1 projectId url token docs :
  (forall k, dbWriteFails env k = false) ->
  ProjectRouter.loadDocsFrom ProjectRouter.MAX_RETRIES 0 [] url
    (ProjectRouter.tokenOrUndefined token) env w = (Ok docs, w1) ->
  docs <> [] ->
  let ordered := ProjectRouter.prioritize docs in
  let w' := snd (ProjectRouter.embeddingProcess projectId url token env w) in
  processedOf (trace w')
  = processedOf (trace w) ++ namesFrom ProjectRouter.documentName 0 ordered
  /\ map fileName (files w')
     = map fileName (files w) ++ namesFrom ProjectRouter.documentName 0 ordered
  /\ map sourceCode (files w')
     = map sourceCode (files w) ++ map (fun d => Some (pageContent d)) ordered.
Proof.
  intros Hdb Hload Hdocs ordered.
  assert (Q1 := quiet_loadDocsFrom ProjectRouter.MAX_RETRIES 0 [] url
                  (ProjectRouter.tokenOrUndefined token) env w).
  assert (F1 := @sameFiles_loadDocsFrom ProjectRouter.MAX_RETRIES 0 [] url
                  (ProjectRouter.tokenOrUndefined token) env w).
  rewrite Hload in Q1, F1. unfold sameFiles in F1. cbn [snd] in Q1, F1.
  unfold ProjectRouter.embeddingProcess, tryCatch, bind.
  rewrite Hload.
  destruct docs as [|d docs]; [congruence|]. cbn [List.length Nat.eqb].
  fold ordered.
  destruct (@forEachFrom_stores env projectId (List.length ordered) Hdb
              ordered 0%nat w1)
    as (w2 & -> & P2 & N2 & C2).
  pose proof (quiet_pullCommit projectId env w2) as Q3.
  pose proof (@sameFiles_pullCommit projectId env w2) as F3.
  unfold sameFiles in F3.
  destruct (Github.pullCommit projectId env w2) as [[rows|m] w3];
    cbn [snd] in *; unfold ret; cbn [snd];
    rewrite Q3, F3, P2, N2, C2, Q1, F1; auto.
Qed.

(** The loading loop of [createProject] when the loader rejects every
    call: the generated README is what it ends with, after one attempt on
    each branch, without a retry and without a delay. *)
Lemma loadDocsFrom_placeholder env w url token :
  (forall n cfg, exists m, loaderLoad env n cfg = Thrown m) ->
  ProjectRouter.loadDocsFrom ProjectRouter.MAX_RETRIES 0 [] url token env w
  = (Ok [GithubLoader.sampleReadme url],
     extend [EvLoad (GithubLoader.loaderOptions url "main" token (Some true));
             EvLoad (GithubLoader.loaderOptions url "master" token (Some true))]
            w).
Proof.
  intros Hfail.
  unfold ProjectRouter.MAX_RETRIES. rewrite loadDocsFrom_step.
  cbn [Nat.ltb Nat.leb ProjectRouter.MAX_RETRIES List.length Nat.eqb andb].
  rewrite bind_run.
  unfold tryCatch at 1. rewrite bind_run.
  unfold GithubLoader.loadGitHubRepository, tryCatch, GithubLoader.load, ret.
  destruct (Hfail (count isLoad w)
              (GithubLoader.loaderOptions url "main" token (Some true)))
    as (m1 & ->).
  destruct (Hfail (count isLoad
                     (record (EvLoad (GithubLoader.loaderOptions
                                        url "main" token (Some true))) w))
              (GithubLoader.loaderOptions url "master" token (Some true)))
    as (m2 & ->).
  cbn [List.length Nat.eqb fst snd].
  rewrite loadDocsFrom_loaded. unfold ret.
  now rewrite !record_extend, extend_extend.
Qed.

(** X19.  A repository that cannot be loaded is ingested all the same:
    when the loader rejects every call and the database accepts every
    write, the ingestion that [createProject] starts processes the
    generated README and stores a row named README.md whose content is the
    text of the placeholder. *)
Theorem createProject_ingests_placeholder
    (env : Env) (w : World) (projectId url : string) (token : option string) :
  (forall n cfg, exists m, loaderLoad env n cfg = Thrown m) ->
  (forall k, dbWriteFails env k = false) ->
  let w' := snd (ProjectRouter.embeddingProcess projectId url token env w) in
  processedOf (trace w') = processedOf (trace w) ++ ["README.md"]
  /\ map fileName (files w') = map fileName (files w) ++ ["README.md"]
  /\ map sourceCode (files w')
     = map sourceCode (files w)
       ++ [Some (pageContent (GithubLoader.sampleReadme url))].
Proof.
  intros Hfail Hdb.
  exact (@embeddingProcess_stores env w _ projectId url token
           [GithubLoader.sampleReadme url] Hdb
           (@loadDocsFrom_placeholder env w url _ Hfail) ltac:(discriminate)).
Qed.

Lemma createProject_ingests_placeholder_witness :
  map fileName
      (files (snd (ProjectRouter.embeddingProcess
                     "p1" "https://github.com/acme/app" None
                     failingEnv emptyWorld)))
  = ["README.md"].
Proof.
  apply (@createProject_ingests_placeholder
           failingEnv emptyWorld "p1" "https://github.com/acme/app" None).
  - intros n cfg. now exists "404 Not Found".
  - reflexivity.
Defined.

(** X20.  With a database that accepts every write, the ingestion that
    [createProject] starts stores one row for every document that the
    loader returned, in the priority order, each under the name of the
    document (or [unknown-file-<position>] when it has none) and with the
    content of the document, and announces the same names. *)
Theorem createProject_stores_every_document
    (env : Env) (w : World) (projectId url : string) (token : option string)
    (docs : list Doc) :
  loaderLoad env (count isLoad w)
             (GithubLoader.loaderOptions
                url "main" (ProjectRouter.tokenOrUndefined token) (Some true))
  = Ok docs ->
  docs <> [] ->
  (forall k, dbWriteFails env k = false) ->
  let ordered := ProjectRouter.prioritize docs in
  let names := namesFrom ProjectRouter.documentName 0 ordered in
  let w' := snd (ProjectRouter.embeddingProcess projectId url token env w) in
  processedOf (trace w') = processedOf (trace w) ++ names
  /\ map fileName (files w') = map fileName (files w) ++ names
  /\ map sourceCode (files w')
     = map sourceCode (files w) ++ map (fun d => Some (pageContent d)) ordered.
Proof.
  intros Hload Hdocs Hdb.
  assert (E : ProjectRouter.loadDocsFrom ProjectRouter.MAX_RETRIES 0 [] url
                (ProjectRouter.tokenOrUndefined token) env w
              = (Ok docs,
                 record (EvLoad (GithubLoader.loaderOptions
                                   url "main"
                                   (ProjectRouter.tokenOrUndefined token)
                                   (Some true))) w)).
  { unfold ProjectRouter.MAX_RETRIES. rewrite loadDocsFrom_step.
    cbn [Nat.ltb Nat.leb ProjectRouter.MAX_RETRIES List.length Nat.eqb andb].
    rewrite bind_run.
    unfold tryCatch at 1. rewrite bind_run.
    unfold GithubLoader.loadGitHubRepository, tryCatch, GithubLoader.load, ret.
    rewrite Hload.
    destruct docs as [|d docs]; [congruence|].
    cbn [List.length Nat.eqb fst snd].
    now rewrite loadDocsFrom_loaded. }
  exact (@embeddingProcess_stores env w _ projectId url token docs Hdb E Hdocs).
Qed.

Lemma createProject_stores_every_document_witness :
  map fileName
      (files (snd (ProjectRouter.embeddingProcess
                     "p1" "https://github.com/acme/app" None
                     exampleRepoEnv emptyWorld)))
  = namesFrom ProjectRouter.documentName 0
              (ProjectRouter.prioritize (rev exampleRepo)).
Proof.
  apply (@createProject_stores_every_document
           exampleRepoEnv emptyWorld "p1" "https://github.com/acme/app" None
           (rev exampleRepo)).
  - reflexivity.
  - discriminate.
  - reflexivity.
Defined.

(** X21.  An empty repository makes [createProject] give up after three
    attempts: when the loader answers three times with no document, the
    ingestion waits 3 s, 6 s and 9 s (the last wait after the last
    attempt), then ends without processing a file, without pulling the
    commits and without writing to the database. *)
Theorem createProject_gives_up_on_empty_repository
    (env : Env) (w : World) (projectId url : string) (token : option string) :
  let main := GithubLoader.loaderOptions
                url "main" (ProjectRouter.tokenOrUndefined token)
                (Some true) in
  (forall k, (k < 3)%nat -> loaderLoad env (count isLoad w + k) main = Ok []) ->
  ProjectRouter.embeddingProcess projectId url token env w
  = (Ok tt,
     extend [EvLoad main; EvSleep 3000; EvLoad main; EvSleep 6000;
             EvLoad main; EvSleep 9000] w).
Proof.
  intros main H.
  pose proof (H 0%nat ltac:(lia)) as H0. rewrite Nat.add_0_r in H0.
  pose proof (H 1%nat ltac:(lia)) as H1.
  pose proof (H 2%nat ltac:(lia)) as H2.
  unfold ProjectRouter.embeddingProcess, ProjectRouter.MAX_RETRIES.
  unfold ProjectRouter.loadDocsFrom, tryCatch, bind, sleep, ret,
    GithubLoader.loadGitHubRepository, tryCatch, GithubLoader.load.
  cbn [Nat.ltb Nat.leb ProjectRouter.MAX_RETRIES List.length Nat.eqb andb].
  fold main. trace_norm. rewrite H0.
  cbn [List.length Nat.eqb fst snd andb Nat.ltb Nat.leb]. trace_norm.
  rewrite H1.
  cbn [List.length Nat.eqb fst snd andb Nat.ltb Nat.leb]. trace_norm.
  replace (count isLoad w + 1 + 1)%nat with (count isLoad w + 2)%nat by lia.
  rewrite H2.
  cbn [List.length Nat.eqb fst snd andb Nat.ltb Nat.leb]. trace_norm.
  reflexivity.
Qed.

Lemma createProject_gives_up_on_empty_repository_witness :
  sleepsOf (trace (snd (ProjectRouter.embeddingProcess
                          "p1" "https://github.com/acme/app" None
                          emptyRepoEnv emptyWorld)))
  = [3000; 6000; 9000]%Z.
Proof.
  rewrite (@createProject_gives_up_on_empty_repository
             emptyRepoEnv emptyWorld "p1" "https://github.com/acme/app" None).
  - reflexivity.
  - intros k _. reflexivity.
Defined.

(* ================================================================== *)
(** ** The cost of a repository *)
(* ================================================================== *)

Lemma fold_left_add_from (l : list nat) (a : nat) :
  fold_left (fun sum count => (sum + count)%nat) l a
  = (a + fold_left (fun sum count => (sum + count)%nat) l 0)%nat.
Proof.
  revert a. induction l as [|x l IH]; intros a; cbn; [lia|].
  rewrite (IH (a + x)%nat), (IH x). lia.
Qed.

(** X22.  [getFileCount] adds to its accumulator the number of entries of
    type [file] that it visits: the entries of the listing of the path and
    of the listings of its directories, each of them once.  Entries of
    another type count for nothing, and neither does a directory whose
    listing is rejected. *)
Theorem getFileCount_counts_file_entries
    (data : RepoCredits.Content) (accumulator : nat) :
  RepoCredits.getFileCount data accumulator
  = (accumulator
     + List.length (filter (fun type => String.eqb type "file")
                           (RepoCredits.entries data)))%nat.
Proof.
  revert data accumulator. fix IH 1.
  intros [|type|items] accumulator;
    cbn [RepoCredits.getFileCount RepoCredits.entries].
  - cbn. lia.
  - cbn. destruct (String.eqb type "file"); cbn; lia.
  - f_equal. induction items as [|[type inside] rest IHrest] using list_ind.
    + reflexivity.
    + cbn [filter RepoCredits.item_type].
      rewrite filter_app, length_app, <- IHrest. clear IHrest.
      destruct (String.eqb type "dir") eqn:Ed.
      * apply String.eqb_eq in Ed. subst type.
        cbn [String.eqb Ascii.eqb Bool.eqb].
        cbn [fold_left]. rewrite fold_left_add_from, (IH inside 0%nat).
        match goal with
        | |- context [fold_left ?f ?l 0%nat] =>
            generalize (fold_left f l 0%nat)
        end.
        intros n. clear IH. lia.
      * cbn [filter List.length app].
        match goal with
        | |- context [fold_left ?f ?l 0%nat] =>
            generalize (fold_left f l 0%nat)
        end.
        intros n. destruct (String.eqb type "file"); cbn [List.length]; lia.
Qed.

Lemma truthy_nonempty s : s <> EmptyString -> JsString.truthy s = true.
Proof. destruct s; [congruence|reflexivity]. Qed.

(** The pieces of the address of a repository. *)
Lemma splitOn_repository_url owner repo :
  JsString.includes owner "/" = false ->
  JsString.includes repo "/" = false ->
  JsString.splitOn "/" ("https://github.com/" ++ owner ++ "/" ++ repo)
  = ["https:"; EmptyString; "github.com"; owner; repo].
Proof.
  intros Ho Hr. unfold JsString.splitOn.
  change ("https://github.com/" ++ owner ++ "/" ++ repo)%string
    with ("https:" ++ String "/" (EmptyString ++ String "/"
            ("github.com" ++ String "/" (owner ++ String "/" repo))))%string.
  rewrite splitOnFrom_first by reflexivity.
  rewrite splitOnFrom_first by reflexivity.
  rewrite splitOnFrom_first by reflexivity.
  rewrite splitOnFrom_first by assumption.
  rewrite splitOnFrom_none by assumption.
  reflexivity.
Qed.

Lemma checkCredits_zero_or_ten repository url token :
  RepoCredits.checkCredits repository url token = 0%nat
  \/ (10 <= RepoCredits.checkCredits repository url token)%nat.
Proof.
  unfold RepoCredits.checkCredits.
  destruct (negb _ || negb _); [now left|right; apply Nat.le_max_l].
Qed.

(** X23.  The cost that [checkCredits] gives: for the address of a
    repository, [https://github.com/<owner>/<repo>], it is the number of files
    counted in the repository and at least 10, so 10 for a repository whose
    listing is rejected; an address that stops after the owner costs
    nothing; and whatever the address, the cost is 0 or at least 10. *)
Theorem checkCredits_cost
    (repository : option string -> string -> string -> RepoCredits.Content)
    (token : option string) (owner repo url : string) :
  owner <> EmptyString -> repo <> EmptyString ->
  JsString.includes owner "/" = false ->
  JsString.includes repo "/" = false ->
  let address := ("https://github.com/" ++ owner ++ "/" ++ repo)%string in
  RepoCredits.checkCredits repository address token
  = Nat.max 10 (RepoCredits.getFileCount (repository token owner repo) 0)
  /\ (repository token owner repo = RepoCredits.Rejected ->
      RepoCredits.checkCredits repository address token = 10%nat)
  /\ RepoCredits.checkCredits repository ("https://github.com/" ++ owner) token
     = 0%nat
  /\ (RepoCredits.checkCredits repository url token = 0%nat
      \/ (10 <= RepoCredits.checkCredits repository url token)%nat).
Proof.
  intros Ho Hr Hso Hsr address.
  assert (E : RepoCredits.checkCredits repository address token
              = Nat.max 10 (RepoCredits.getFileCount
                              (repository token owner repo) 0)).
  { unfold RepoCredits.checkCredits, address.
    rewrite splitOn_repository_url by assumption.
    cbn [nth]. now rewrite !truthy_nonempty by assumption. }
  split; [exact E|]. split; [|split].
  - intros Hrej. rewrite E, Hrej. reflexivity.
  - unfold RepoCredits.checkCredits, JsString.splitOn.
    change ("https://github.com/" ++ owner)%string
      with ("https:" ++ String "/" (EmptyString ++ String "/"
              ("github.com" ++ String "/" owner)))%string.
    rewrite !splitOnFrom_first by reflexivity.
    rewrite splitOnFrom_none by assumption.
    cbn [nth JsString.truthy negb orb]. now rewrite orb_true_r.
  - apply checkCredits_zero_or_ten.
Qed.

Lemma checkCredits_cost_witness :
  RepoCredits.checkCredits (fun _ _ _ => smallRepository)
                           "https://github.com/acme/app" None
  = Nat.max 10 (RepoCredits.getFileCount smallRepository 0).
Proof.
  exact (proj1 (@checkCredits_cost
                  (fun _ _ _ => smallRepository) None "acme" "app"
                  EmptyString
                  ltac:(discriminate) ltac:(discriminate)
                  eq_refl eq_refl)).
Defined.

(* ================================================================== *)
(** ** The credits of [createProject] *)
(* ================================================================== *)

Lemma creditsOf_decrement userId amount other us :
  option_map ProjectCredits.credits
    (find (fun u => String.eqb (ProjectCredits.user_id u) other)
          (ProjectCredits.decrementCredits userId amount us))
  = option_map (fun c => if String.eqb other userId then (c - amount)%Z else c)
      (option_map ProjectCredits.credits
         (find (fun u => String.eqb (ProjectCredits.user_id u) other) us)).
Proof.
  induction us as [|u us IH]; [reflexivity|].
  cbn [ProjectCredits.decrementCredits map find].
  destruct (String.eqb (ProjectCredits.user_id u) userId) eqn:Eu;
    cbn [ProjectCredits.user_id].
  - destruct (String.eqb (ProjectCredits.user_id u) other) eqn:Eo.
    + cbn. apply String.eqb_eq in Eu, Eo.
      rewrite <- Eo, Eu, String.eqb_refl. reflexivity.
    + exact IH.
  - destruct (String.eqb (ProjectCredits.user_id u) other) eqn:Eo.
    + cbn. apply String.eqb_eq in Eo. subst other. now rewrite Eu.
    + exact IH.
Qed.

Lemma recorded_added userId other amount txs us ps :
  ProjectCredits.recorded other
    (ProjectCredits.mkAccounts
       us (txs ++ [ProjectCredits.mkStripeTransaction userId amount]) ps)
  = (ProjectCredits.recorded other (ProjectCredits.mkAccounts us txs ps)
     + if String.eqb userId other then amount else 0)%Z.
Proof.
  unfold ProjectCredits.recorded. cbn [ProjectCredits.stripeTransactions].
  rewrite filter_app, map_app. cbn [filter ProjectCredits.tx_userId].
  induction (map ProjectCredits.tx_credits
               (filter (fun t => String.eqb (ProjectCredits.tx_userId t) other)
                       txs)) as [|x l IH].
  - cbn. destruct (String.eqb userId other); cbn; lia.
  - cbn [app fold_right]. rewrite IH. lia.
Qed.

(** X24.  When [createProject] succeeds the user had the credits that the
    repository costs: the cost, which is 0 or at least 10, is taken from
    the credits of the user, which stay at 0 or above, and one transaction
    records its opposite, so that the credits and the recorded transactions
    of the user move by the same amount; the project is the last one
    created, for this user; the other users keep their credits and their
    transactions. *)
Theorem createProject_charges_the_cost
    (repository : option string -> string -> string -> RepoCredits.Content)
    (refused : nat -> bool) (userId name githuburl : string)
    (githubtoken : option string) (a a' : ProjectCredits.Accounts)
    (project : ProjectCredits.NewProject) :
  ProjectCredits.createProject repository refused userId name githuburl
                               githubtoken a
  = (Ok project, a') ->
  let cost :=
    Z.of_nat (RepoCredits.checkCredits repository githuburl githubtoken) in
  exists balance,
    ProjectCredits.creditsOf userId a = Some balance
    /\ (cost = 0 \/ 10 <= cost)%Z
    /\ (cost <= balance)%Z
    /\ ProjectCredits.creditsOf userId a' = Some (balance - cost)%Z
    /\ ProjectCredits.recorded userId a'
       = (ProjectCredits.recorded userId a - cost)%Z
    /\ ProjectCredits.createdProjects a'
       = ProjectCredits.createdProjects a ++ [project]
    /\ project = ProjectCredits.mkNewProject name githuburl userId
    /\ (forall other, other <> userId ->
          ProjectCredits.creditsOf other a' = ProjectCredits.creditsOf other a
          /\ ProjectCredits.recorded other a'
             = ProjectCredits.recorded other a).
Proof.
  intros Hrun cost. unfold ProjectCredits.createProject in Hrun.
  fold cost in Hrun.
  destruct (ProjectCredits.findUser userId a) as [user|] eqn:Eu;
    [|discriminate Hrun].
  destruct (ProjectCredits.credits user <? cost)%Z eqn:Ec;
    [discriminate Hrun|].
  destruct (refused 0%nat); [discriminate Hrun|].
  destruct (refused 1%nat); [discriminate Hrun|].
  destruct (refused 2%nat); [discriminate Hrun|].
  injection Hrun as <- <-. apply Z.ltb_ge in Ec.
  exists (ProjectCredits.credits user).
  unfold ProjectCredits.creditsOf. rewrite Eu.
  cbn [ProjectCredits.users ProjectCredits.stripeTransactions
       ProjectCredits.createdProjects option_map].
  split; [reflexivity|]. split.
  { destruct (@checkCredits_zero_or_ten repository githuburl githubtoken)
      as [H|H]; unfold cost; lia. }
  split; [exact Ec|]. split.
  { unfold ProjectCredits.findUser. cbn [ProjectCredits.users].
    rewrite creditsOf_decrement. unfold ProjectCredits.findUser in Eu.
    rewrite Eu. cbn. now rewrite String.eqb_refl. }
  split.
  { destruct a as [us txs ps]. cbn [ProjectCredits.users
      ProjectCredits.stripeTransactions ProjectCredits.createdProjects].
    rewrite recorded_added, String.eqb_refl.
    unfold ProjectCredits.recorded. cbn. lia. }
  split; [reflexivity|]. split; [reflexivity|].
  intros other Ho. split.
  - unfold ProjectCredits.findUser. cbn [ProjectCredits.users].
    rewrite creditsOf_decrement.
    apply String.eqb_neq in Ho. rewrite Ho.
    now destruct (find _ (ProjectCredits.users a)).
  - destruct a as [us txs ps]. cbn [ProjectCredits.users
      ProjectCredits.stripeTransactions ProjectCredits.createdProjects].
    rewrite recorded_added.
    replace (String.eqb userId other) with false.
    + unfold ProjectCredits.recorded. cbn. lia.
    + symmetry. apply String.eqb_neq. congruence.
Qed.

Lemma createProject_charges_the_cost_witness :
  exists balance,
    ProjectCredits.creditsOf "u1" twentyCredits = Some balance
    /\ ProjectCredits.creditsOf "u1"
         (snd (ProjectCredits.createProject
                 (fun _ _ _ => smallRepository) (fun _ => false)
                 "u1" "app" "https://github.com/acme/app" None twentyCredits))
       = Some (balance - 10)%Z.
Proof.
  destruct (@createProject_charges_the_cost
              (fun _ _ _ => smallRepository) (fun _ => false)
              "u1" "app" "https://github.com/acme/app" None twentyCredits
              _ _ eq_refl)
    as (balance & H1 & _ & _ & H2 & _).
  exists balance. split; [exact H1|exact H2].
Defined.

(** X25.  [createProject] creates nothing and charges nothing for a user
    who is not known or whose credits are below the cost of the
    repository: it throws "User not found" in the first case and
    "Insufficient credits" in the second, and the users, the transactions
    and the projects are as they were. *)
Theorem createProject_refuses_without_credits
    (repository : option string -> string -> string -> RepoCredits.Content)
    (refused : nat -> bool) (userId name githuburl : string)
    (githubtoken : option string) (a : ProjectCredits.Accounts) :
  let cost :=
    Z.of_nat (RepoCredits.checkCredits repository githuburl githubtoken) in
  (forall balance,
     ProjectCredits.creditsOf userId a = Some balance -> (balance < cost)%Z) ->
  exists msg,
    ProjectCredits.createProject repository refused userId name githuburl
                                 githubtoken a
    = (Thrown msg, a)
    /\ (ProjectCredits.creditsOf userId a = None -> msg = "User not found")
    /\ (ProjectCredits.creditsOf userId a <> None ->
        msg = "Insufficient credits").
Proof.
  intros cost H. unfold ProjectCredits.createProject. fold cost.
  unfold ProjectCredits.creditsOf in *.
  destruct (ProjectCredits.findUser userId a) as [user|].
  - specialize (H _ eq_refl). apply Z.ltb_lt in H. rewrite H.
    exists "Insufficient credits". split; [reflexivity|].
    split; [discriminate|reflexivity].
  - exists "User not found". split; [reflexivity|].
    split; [reflexivity|]. intros Hn. now destruct Hn.
Qed.

Lemma createProject_refuses_without_credits_witness :
  exists msg,
    ProjectCredits.createProject
      (fun _ _ _ => RepoCredits.Listing
                      (repeat (RepoCredits.mkItem "file" RepoCredits.Rejected)
                              25))
      (fun _ => false) "u1" "app" "https://github.com/acme/app" None
      twentyCredits
    = (Thrown msg, twentyCredits)
    /\ msg = "Insufficient credits".
Proof.
  destruct (@createProject_refuses_without_credits
              (fun _ _ _ => RepoCredits.Listing
                              (repeat (RepoCredits.mkItem
                                         "file" RepoCredits.Rejected) 25))
              (fun _ => false) "u1" "app" "https://github.com/acme/app" None
              twentyCredits)
    as (msg & E & _ & H).
  - intros balance [= <-]. reflexivity.
  - exists msg. split; [exact E|]. apply H. discriminate.
Defined.

(** X26.  The three writes of [createProject] are not one transaction.
    When the database refuses the deduction, the project stays created and
    the credits of the user are untouched; when it refuses the record of
    the transaction, the project stays created and the credits stay
    deducted, with no transaction recorded.  In both cases the procedure
    throws. *)
Theorem createProject_is_not_atomic
    (repository : option string -> string -> string -> RepoCredits.Content)
    (refused : nat -> bool) (userId name githuburl : string)
    (githubtoken : option string) (a : ProjectCredits.Accounts)
    (balance : Z) :
  let cost :=
    Z.of_nat (RepoCredits.checkCredits repository githuburl githubtoken) in
  ProjectCredits.creditsOf userId a = Some balance ->
  (cost <= balance)%Z ->
  refused 0%nat = false ->
  refused 1%nat = true \/ refused 2%nat = true ->
  exists msg a',
    ProjectCredits.createProject repository refused userId name githuburl
                                 githubtoken a
    = (Thrown msg, a')
    /\ ProjectCredits.createdProjects a'
       = ProjectCredits.createdProjects a
         ++ [ProjectCredits.mkNewProject name githuburl userId]
    /\ ProjectCredits.stripeTransactions a'
       = ProjectCredits.stripeTransactions a
    /\ ProjectCredits.creditsOf userId a'
       = Some (if refused 1%nat then balance else (balance - cost)%Z).
Proof.
  intros cost Hb Hc H0 H12. unfold ProjectCredits.createProject. fold cost.
  unfold ProjectCredits.creditsOf in *.
  destruct (ProjectCredits.findUser userId a) as [user|] eqn:Eu;
    [|discriminate Hb].
  injection Hb as Hb. subst balance.
  apply Z.ltb_ge in Hc. rewrite Hc, H0.
  destruct (refused 1%nat) eqn:H1.
  - eexists _, _. split; [reflexivity|].
    cbn [ProjectCredits.createdProjects ProjectCredits.stripeTransactions].
    split; [reflexivity|]. split; [reflexivity|].
    unfold ProjectCredits.findUser in *. cbn [ProjectCredits.users].
    now rewrite Eu.
  - destruct H12 as [H12|H12]; [discriminate H12|]. rewrite H12.
    eexists _, _. split; [reflexivity|].
    cbn [ProjectCredits.createdProjects ProjectCredits.stripeTransactions
         ProjectCredits.users].
    split; [reflexivity|]. split; [reflexivity|].
    unfold ProjectCredits.findUser in *. cbn [ProjectCredits.users].
    rewrite creditsOf_decrement, Eu. cbn. now rewrite String.eqb_refl.
Qed.

Lemma createProject_is_not_atomic_witness :
  exists msg a',
    ProjectCredits.createProject
      (fun _ _ _ => smallRepository) (fun k => (k =? 1)%nat)
      "u1" "app" "https://github.com/acme/app" None twentyCredits
    = (Thrown msg, a')
    /\ ProjectCredits.createdProjects a'
       = [ProjectCredits.mkNewProject "app" "https://github.com/acme/app" "u1"]
    /\ ProjectCredits.creditsOf "u1" a' = Some 20%Z.
Proof.
  destruct (@createProject_is_not_atomic
              (fun _ _ _ => smallRepository) (fun k => (k =? 1)%nat)
              "u1" "app" "https://github.com/acme/app" None twentyCredits
              20%Z eq_refl ltac:(vm_compute; discriminate) eq_refl
              (or_introl eq_refl))
    as (msg & a' & E & P & _ & C).
  exists msg, a'. split; [exact E|]. split; [exact P|exact C].
Defined.

(* ================================================================== *)
(** ** The files of the keyword route *)
(* ================================================================== *)

Lemma matchesFrom_In kw lines :
  forall index n c,
    In (n, c) (SimpleQaRoute.matchesFrom kw index lines)
    <-> exists k, (k < List.length lines)%nat
                  /\ n = (index + k + 1)%nat
                  /\ SimpleQaRoute.lineMentions kw (nth k lines EmptyString)
                     = true
                  /\ c = SimpleQaRoute.trim (nth k lines EmptyString).
Proof.
  induction lines as [|line rest IH]; intros index n c;
    cbn [SimpleQaRoute.matchesFrom].
  - split; [intros []|]. intros (k & Hk & _). cbn in Hk. lia.
  - assert (Hrest :
      In (n, c) (SimpleQaRoute.matchesFrom kw (S index) rest)
      <-> exists k, (0 < k < List.length (line :: rest))%nat
                    /\ n = (index + k + 1)%nat
                    /\ SimpleQaRoute.lineMentions
                         kw (nth k (line :: rest) EmptyString) = true
                    /\ c = SimpleQaRoute.trim
                             (nth k (line :: rest) EmptyString)).
    { rewrite IH. split.
      - intros (k & Hk & -> & Hm & ->). exists (S k). cbn [List.length nth].
        repeat split; auto; lia.
      - intros ([|k] & Hk & -> & Hm & ->); [lia|]. exists k.
        cbn [List.length nth] in *. repeat split; auto; lia. }
    destruct (SimpleQaRoute.lineMentions kw line) eqn:El.
    + cbn [In]. rewrite Hrest. split.
      * intros [[= <- <-]|(k & Hk & H)].
        -- exists 0%nat. cbn [List.length nth]. repeat split; auto; lia.
        -- exists k. split; [lia|exact H].
      * intros ([|k] & Hk & -> & Hm & ->).
        -- left. cbn [nth]. f_equal. lia.
        -- right. exists (S k). repeat split; auto; lia.
    + rewrite Hrest. split.
      * intros (k & Hk & H). exists k. split; [lia|exact H].
      * intros ([|k] & Hk & -> & Hm & ->).
        -- cbn [nth] in Hm. congruence.
        -- exists (S k). repeat split; auto; lia.
Qed.

Lemma matchesFrom_increasing kw lines :
  forall index,
    StronglySorted lt (map fst (SimpleQaRoute.matchesFrom kw index lines))
    /\ Forall (fun n => (index < n)%nat)
              (map fst (SimpleQaRoute.matchesFrom kw index lines)).
Proof.
  induction lines as [|line rest IH]; intros index;
    cbn [SimpleQaRoute.matchesFrom].
  - split; constructor.
  - destruct (IH (S index)) as [Hs Hf].
    assert (Hf' : Forall (fun n => (index < n)%nat)
                    (map fst (SimpleQaRoute.matchesFrom kw (S index) rest))).
    { eapply Forall_impl; [|exact Hf]. cbn. intros; lia. }
    destruct (SimpleQaRoute.lineMentions kw line); [|now split].
    cbn [map fst]. split.
    + constructor; [exact Hs|].
      eapply Forall_impl; [|exact Hf]. cbn. intros; lia.
    + constructor; [lia|exact Hf'].
Qed.

(** X27.  The lines that the keyword route attaches to the copy of a
    matching file: the [matchingLines] are line numbers counted from 1, in
    increasing order, each line at most once; a line is listed exactly when
    it, lowered, contains one of the keywords, lowered; and the
    [matchingLineContents] are the listed lines, trimmed, in the same
    order. *)
Theorem matching_lines_of_a_file
    (questionKeywords : list string) (fresh : nat)
    (file : SimpleQaRoute.FileObject) :
  let lines :=
    JsString.splitOn (ascii_of_nat 10) (SimpleQaRoute.sourceOrEmpty file) in
  exists found,
    SimpleQaRoute.matchingLines
      (SimpleQaRoute.enhance questionKeywords fresh file)
    = Some (map fst found)
    /\ SimpleQaRoute.matchingLineContents
         (SimpleQaRoute.enhance questionKeywords fresh file)
       = Some (map snd found)
    /\ StronglySorted lt (map fst found)
    /\ (forall n c,
          In (n, c) found
          <-> (1 <= n <= List.length lines)%nat
              /\ SimpleQaRoute.lineMentions
                   questionKeywords (nth (n - 1) lines EmptyString) = true
              /\ c = SimpleQaRoute.trim (nth (n - 1) lines EmptyString))
    /\ SimpleQaRoute.row (SimpleQaRoute.enhance questionKeywords fresh file)
       = SimpleQaRoute.row file.
Proof.
  intros lines.
  exists (SimpleQaRoute.matchesFrom questionKeywords 0 lines).
  split; [reflexivity|]. split; [reflexivity|].
  split; [apply matchesFrom_increasing|]. split; [|reflexivity].
  intros n c. rewrite matchesFrom_In. split.
  - intros (k & Hk & -> & Hm & ->).
    replace (0 + k + 1 - 1)%nat with k by lia.
    repeat split; auto; lia.
  - intros (Hn & Hm & ->). exists (n - 1)%nat.
    repeat split; auto; lia.
Qed.

(** *** The objects of the route and their identities *)

Lemma objects_rows (rows : list FileRecord) : forall first,
  map SimpleQaRoute.row
      (map (fun ir => SimpleQaRoute.mkFileObject (fst ir) (snd ir) None None)
           (combine (seq first (List.length rows)) rows))
  = rows.
Proof.
  induction rows as [|r rows IH]; intros first; cbn; [reflexivity|].
  now rewrite IH.
Qed.

Lemma objects_identities (rows : list FileRecord) : forall first,
  map SimpleQaRoute.identity
      (map (fun ir => SimpleQaRoute.mkFileObject (fst ir) (snd ir) None None)
           (combine (seq first (List.length rows)) rows))
  = seq first (List.length rows).
Proof.
  induction rows as [|r rows IH]; intros first; cbn; [reflexivity|].
  now rewrite IH.
Qed.

Lemma allFilesOf_rows rows :
  map SimpleQaRoute.row (SimpleQaRoute.allFilesOf rows) = rows.
Proof. apply objects_rows. Qed.

Lemma allFilesOf_identities rows :
  map SimpleQaRoute.identity (SimpleQaRoute.allFilesOf rows)
  = seq 0 (List.length rows).
Proof. apply objects_identities. Qed.

Lemma allFilesOf_length rows :
  List.length (SimpleQaRoute.allFilesOf rows) = List.length rows.
Proof.
  rewrite <- (length_map SimpleQaRoute.row), allFilesOf_rows. reflexivity.
Qed.

Lemma allFilesOf_below rows f :
  In f (SimpleQaRoute.allFilesOf rows) ->
  (SimpleQaRoute.identity f < List.length rows)%nat.
Proof.
  intros H. apply (in_map SimpleQaRoute.identity) in H.
  rewrite allFilesOf_identities in H. apply in_seq in H. lia.
Qed.

Lemma allFilesOf_original rows f :
  In f (SimpleQaRoute.allFilesOf rows) ->
  SimpleQaRoute.matchingLines f = None
  /\ SimpleQaRoute.matchingLineContents f = None.
Proof.
  unfold SimpleQaRoute.allFilesOf. rewrite in_map_iff.
  intros (ir & <- & _). now split.
Qed.

Lemma identity_injective rows f g :
  In f (SimpleQaRoute.allFilesOf rows) ->
  In g (SimpleQaRoute.allFilesOf rows) ->
  SimpleQaRoute.identity f = SimpleQaRoute.identity g -> f = g.
Proof.
  intros Hf Hg E.
  assert (Hnd : NoDup (map SimpleQaRoute.identity
                           (SimpleQaRoute.allFilesOf rows))).
  { rewrite allFilesOf_identities. apply seq_NoDup. }
  revert Hf Hg E Hnd.
  induction (SimpleQaRoute.allFilesOf rows) as [|x l IH]; [intros []|].
  cbn [map In]. intros Hf Hg E Hnd. inversion Hnd as [|? ? Hx Hl]; subst.
  destruct Hf as [<-|Hf], Hg as [<-|Hg]; auto.
  - exfalso. apply Hx. rewrite E. now apply in_map.
  - exfalso. apply Hx. rewrite <- E. now apply in_map.
Qed.

(** Among the objects that [findMany] returned, to be included in a
    filtered array is to pass the filter. *)
Lemma includesObject_filter rows (p : SimpleQaRoute.FileObject -> bool) f :
  In f (SimpleQaRoute.allFilesOf rows) ->
  SimpleQaRoute.includesObject (filter p (SimpleQaRoute.allFilesOf rows)) f
  = p f.
Proof.
  intros Hf. apply eq_true_iff_eq. unfold SimpleQaRoute.includesObject.
  rewrite existsb_exists. split.
  - intros (g & Hg & E). apply filter_In in Hg. destruct Hg as [Hg Hp].
    apply Nat.eqb_eq in E.
    now rewrite <- (identity_injective rows g f Hg Hf E).
  - intros Hp. exists f. split; [|apply Nat.eqb_refl].
    apply filter_In. now split.
Qed.

(** An object is not included in an array of objects that all have
    another identity. *)
Lemma includesObject_apart (array : list SimpleQaRoute.FileObject) f :
  (forall g, In g array ->
             SimpleQaRoute.identity g <> SimpleQaRoute.identity f) ->
  SimpleQaRoute.includesObject array f = false.
Proof.
  intros H. unfold SimpleQaRoute.includesObject.
  apply not_true_is_false. rewrite existsb_exists.
  intros (g & Hg & E). apply Nat.eqb_eq in E. exact (H g Hg E).
Qed.

Lemma enhanceFrom_rows kw files : forall fresh,
  map SimpleQaRoute.row (SimpleQaRoute.enhanceFrom kw fresh files)
  = map SimpleQaRoute.row files.
Proof.
  induction files as [|f files IH]; intros fresh; cbn; [reflexivity|].
  now rewrite IH.
Qed.

Lemma enhanceFrom_above kw files : forall fresh e,
  In e (SimpleQaRoute.enhanceFrom kw fresh files) ->
  (fresh <= SimpleQaRoute.identity e)%nat.
Proof.
  induction files as [|f files IH]; intros fresh e; cbn; [intros []|].
  intros [<-|H]; [cbn; lia|]. apply IH in H. lia.
Qed.

Lemma enhanceFrom_In kw files : forall fresh f,
  In f files ->
  exists e, In e (SimpleQaRoute.enhanceFrom kw fresh files)
            /\ exists id, e = SimpleQaRoute.enhance kw id f.
Proof.
  induction files as [|g files IH]; intros fresh f; [intros []|].
  cbn [SimpleQaRoute.enhanceFrom In]. intros [<-|H].
  - eexists. split; [now left|]. now eexists.
  - destruct (IH (S fresh) f H) as (e & He & Hid).
    exists e. split; [now right|exact Hid].
Qed.

Lemma map_filter_compose {A B} (f : A -> B) (p : B -> bool) (l : list A) :
  map f (filter (fun x => p (f x)) l) = filter p (map f l).
Proof.
  induction l as [|x l IH]; cbn; [reflexivity|].
  destruct (p (f x)); cbn; now rewrite IH.
Qed.

Lemma filter_all {A} (p : A -> bool) (l : list A) :
  (forall x, In x l -> p x = true) -> filter p l = l.
Proof.
  induction l as [|x l IH]; intros H; cbn; [reflexivity|].
  rewrite (H x (or_introl eq_refl)), IH; [reflexivity|].
  intros y Hy. apply H. now right.
Qed.

Local Abbreviation fetched rows := (SimpleQaRoute.allFilesOf rows).

Local Abbreviation copies kw rows :=
  (SimpleQaRoute.enhancedMatchingFiles kw (SimpleQaRoute.allFilesOf rows)).

(** The files of the context before the cut, with the tests of inclusion
    resolved: the copies of the matching files, then the files of each
    kind. *)
Lemma prioritizedFiles_resolved kw rows :
  let all := SimpleQaRoute.allFilesOf rows in
  let name := SimpleQaRoute.lowerName in
  let readme f := SimpleQaRoute.namedReadme (name f) in
  let package f := SimpleQaRoute.namedPackage (name f) in
  let source f :=
    SimpleQaRoute.namedSource (name f) && negb (readme f)
    && negb (package f) in
  let config f :=
    SimpleQaRoute.namedConfig (name f) && negb (readme f)
    && negb (package f) && negb (source f) in
  let other f :=
    negb (readme f) && negb (package f) && negb (source f)
    && negb (config f) in
  SimpleQaRoute.prioritizedFiles kw all
  = firstn 15
      (SimpleQaRoute.enhancedMatchingFiles kw all
       ++ filter readme all ++ filter package all ++ filter source all
       ++ filter config all ++ filter other all).
Proof.
  intros all name readme package source config other. subst all.
  assert (Hsrc : SimpleQaRoute.sourceFiles (fetched rows) = filter source (fetched rows)).
  { unfold SimpleQaRoute.sourceFiles. apply filter_ext_in. intros f Hf.
    unfold SimpleQaRoute.readmeFiles, SimpleQaRoute.packageFiles.
    now rewrite !includesObject_filter by exact Hf. }
  assert (Hcfg : SimpleQaRoute.configFiles (fetched rows) = filter config (fetched rows)).
  { unfold SimpleQaRoute.configFiles. rewrite Hsrc.
    apply filter_ext_in. intros f Hf.
    unfold SimpleQaRoute.readmeFiles, SimpleQaRoute.packageFiles.
    now rewrite !includesObject_filter by exact Hf. }
  assert (Hcopy : forall e f,
             In e (copies kw rows) ->
             In f (fetched rows) ->
             SimpleQaRoute.identity f <> SimpleQaRoute.identity e).
  { intros e f He Hf. apply enhanceFrom_above in He.
    apply allFilesOf_below in Hf. rewrite allFilesOf_length in He. lia. }
  assert (Hnew : forall (p : SimpleQaRoute.FileObject -> bool) e,
             In e (copies kw rows) ->
             SimpleQaRoute.includesObject (filter p (fetched rows)) e = false).
  { intros p e He. apply includesObject_apart. intros g Hg.
    apply filter_In in Hg. now apply Hcopy. }
  assert (Hold : forall f,
             In f (fetched rows) ->
             SimpleQaRoute.includesObject
               (copies kw rows) f = false).
  { intros f Hf. apply includesObject_apart. intros e He E.
    symmetry in E. revert E. now apply Hcopy. }
  unfold SimpleQaRoute.prioritizedFiles. rewrite Hsrc, Hcfg.
  unfold SimpleQaRoute.readmeFiles, SimpleQaRoute.packageFiles.
  f_equal.
  rewrite (filter_all (fun file => negb _)
             (copies kw rows))
    by (intros e He; now rewrite Hnew).
  rewrite (filter_none (fun file => SimpleQaRoute.includesObject _ file)
             (copies kw rows))
    by (intros e He; now apply Hnew).
  cbn [app].
  rewrite !(filter_all (fun file => negb (SimpleQaRoute.includesObject
              (copies kw rows) file)))
    by (intros f Hf; apply filter_In in Hf; destruct Hf as [Hf _];
        now rewrite Hold).
  do 5 f_equal.
  apply filter_ext_in. intros f Hf.
  rewrite !includesObject_filter by exact Hf.
  rewrite (Hold f Hf). cbn [negb]. now rewrite andb_true_r.
Qed.

Lemma mentions_row kw f :
  SimpleQaRoute.mentions kw f
  = SimpleQaRoute.rowMentions kw (SimpleQaRoute.row f).
Proof. reflexivity. Qed.

Lemma enhanced_rows kw rows :
  map SimpleQaRoute.row
      (SimpleQaRoute.enhancedMatchingFiles kw (SimpleQaRoute.allFilesOf rows))
  = filter (SimpleQaRoute.rowMentions kw) rows.
Proof.
  unfold SimpleQaRoute.enhancedMatchingFiles, SimpleQaRoute.matchingFiles.
  rewrite enhanceFrom_rows.
  rewrite (filter_ext (SimpleQaRoute.mentions kw)
             (fun f => SimpleQaRoute.rowMentions kw (SimpleQaRoute.row f)))
    by (intros f; apply mentions_row).
  now rewrite map_filter_compose, allFilesOf_rows.
Qed.

Lemma named_rows (p : string -> bool) rows :
  map SimpleQaRoute.row
      (filter (fun f => p (SimpleQaRoute.lowerName f))
              (SimpleQaRoute.allFilesOf rows))
  = SimpleQaRoute.rowsNamed p rows.
Proof.
  unfold SimpleQaRoute.rowsNamed, SimpleQaRoute.lowerName.
  rewrite (map_filter_compose SimpleQaRoute.row
             (fun r => p (JsString.toLowerCase (fileName r)))).
  now rewrite allFilesOf_rows.
Qed.

(** X28.  The files that the keyword route puts into the context of its
    prompt: first the rows that mention a keyword of the question in their
    name or their source, then the rows named like a README, those named
    like package.json, the source files, the configuration files and the
    remaining rows, each group in the order of the table, and of the whole
    the first 15.  The copies made of the matching rows are new objects, so
    none of the tests that should keep a file from being listed twice ever
    succeeds: a matching row is listed again in its group, and a README
    named like package.json is listed in both groups. *)
Theorem context_files_of_the_keyword_route
    (question : string) (rows : list FileRecord) :
  let keywords := SimpleQa.questionKeywords question in
  let source n :=
    SimpleQaRoute.namedSource n && negb (SimpleQaRoute.namedReadme n)
    && negb (SimpleQaRoute.namedPackage n) in
  let config n :=
    SimpleQaRoute.namedConfig n && negb (SimpleQaRoute.namedReadme n)
    && negb (SimpleQaRoute.namedPackage n) && negb (source n) in
  let other n :=
    negb (SimpleQaRoute.namedReadme n) && negb (SimpleQaRoute.namedPackage n)
    && negb (source n) && negb (config n) in
  map SimpleQaRoute.row (SimpleQaRoute.contextFiles question rows)
  = firstn 15
      (filter (SimpleQaRoute.rowMentions keywords) rows
       ++ SimpleQaRoute.rowsNamed SimpleQaRoute.namedReadme rows
       ++ SimpleQaRoute.rowsNamed SimpleQaRoute.namedPackage rows
       ++ SimpleQaRoute.rowsNamed source rows
       ++ SimpleQaRoute.rowsNamed config rows
       ++ SimpleQaRoute.rowsNamed other rows)
  /\ (List.length (SimpleQaRoute.contextFiles question rows) <= 15)%nat.
Proof.
  intros keywords source config other. split.
  - unfold SimpleQaRoute.contextFiles. fold keywords.
    rewrite prioritizedFiles_resolved.
    rewrite <- firstn_map, !map_app, enhanced_rows.
    rewrite (named_rows SimpleQaRoute.namedReadme),
            (named_rows SimpleQaRoute.namedPackage),
            (named_rows source), (named_rows config), (named_rows other).
    reflexivity.
  - unfold SimpleQaRoute.contextFiles, SimpleQaRoute.prioritizedFiles.
    apply firstn_le_length.
Qed.

(** Five tests of which an element passes at most two select, together,
    at most twice the elements. *)
Lemma five_filters {A} (p1 p2 p3 p4 p5 : A -> bool) (l : list A) :
  (forall x, p3 x = true -> p1 x = false /\ p2 x = false) ->
  (forall x, p4 x = true -> p1 x = false /\ p2 x = false /\ p3 x = false) ->
  (forall x, p5 x = true ->
             p1 x = false /\ p2 x = false /\ p3 x = false /\ p4 x = false) ->
  (List.length (filter p1 l ++ filter p2 l ++ filter p3 l ++ filter p4 l
                ++ filter p5 l) <= 2 * List.length l)%nat.
Proof.
  intros H3 H4 H5. rewrite !length_app.
  induction l as [|x l IH]; [cbn; lia|].
  cbn [filter List.length].
  specialize (H3 x). specialize (H4 x). specialize (H5 x).
  destruct (p1 x), (p2 x), (p3 x), (p4 x), (p5 x); cbn [List.length];
    try lia;
    (destruct H3 as [? ?]; [reflexivity|congruence])
    || (destruct H4 as (? & ? & ?); [reflexivity|congruence])
    || (destruct H5 as (? & ? & ? & ?); [reflexivity|congruence]).
Qed.

Lemma relevant_mentions kw f :
  SimpleQaRoute.mentions kw f = true -> SimpleQaRoute.relevant kw f = true.
Proof.
  unfold SimpleQaRoute.relevant, SimpleQaRoute.mentions. intros ->.
  now destruct (_ || _).
Qed.

(** X29.  In a project of at most three files the keyword route references
    twice every file that mentions a keyword of the question: the response
    lists the copy of the file, with its matching lines, among the first
    entries, and lists the file again further down, without matching
    lines. *)
Theorem matching_file_is_referenced_twice
    (question : string) (rows : list FileRecord) (r : FileRecord) :
  (List.length rows <= 3)%nat ->
  In r rows ->
  SimpleQaRoute.rowMentions (SimpleQa.questionKeywords question) r = true ->
  exists copies others x y,
    SimpleQaRoute.responseFiles question rows = copies ++ others
    /\ In x copies /\ In y others
    /\ SimpleQaRoute.ref_id x = file_id r
    /\ SimpleQaRoute.ref_id y = file_id r
    /\ SimpleQaRoute.ref_fileName x = fileName r
    /\ SimpleQaRoute.ref_fileName y = fileName r
    /\ SimpleQaRoute.ref_matchingLines y = []
    /\ SimpleQaRoute.ref_matchingLines x
       = map fst (SimpleQaRoute.matchesFrom
                    (SimpleQa.questionKeywords question) 0
                    (JsString.splitOn
                       (ascii_of_nat 10)
                       (match sourceCode r with
                        | Some c => c | None => EmptyString end))).
Proof.
  intros Hlen Hr Hm.
  set (kw := SimpleQa.questionKeywords question) in *.
  set (all := SimpleQaRoute.allFilesOf rows).
  set (name := SimpleQaRoute.lowerName).
  set (readme := fun f => SimpleQaRoute.namedReadme (name f)).
  set (package := fun f => SimpleQaRoute.namedPackage (name f)).
  set (source := fun f => SimpleQaRoute.namedSource (name f)
                          && negb (readme f) && negb (package f)).
  set (config := fun f => SimpleQaRoute.namedConfig (name f)
                          && negb (readme f) && negb (package f)
                          && negb (source f)).
  set (other := fun f => negb (readme f) && negb (package f)
                         && negb (source f) && negb (config f)).
  set (E := SimpleQaRoute.enhancedMatchingFiles kw all).
  set (rest := filter readme all ++ filter package all ++ filter source all
               ++ filter config all ++ filter other all).
  (* the original object of the row, and its copy *)
  assert (Ho : exists o, In o all /\ SimpleQaRoute.row o = r).
  { rewrite <- (allFilesOf_rows rows) in Hr. apply in_map_iff in Hr.
    destruct Hr as (o & Eo & Ho). now exists o. }
  destruct Ho as (o & Ho & Eo).
  assert (Hmo : SimpleQaRoute.mentions kw o = true)
    by (now rewrite mentions_row, Eo).
  assert (He : exists e id, In e E /\ e = SimpleQaRoute.enhance kw id o).
  { destruct (enhanceFrom_In kw (SimpleQaRoute.matchingFiles kw all)
                (List.length all) o) as (e & He & id & Eid).
    - apply filter_In. now split.
    - now exists e, id. }
  destruct He as (e & id & He & Ee).
  (* the lengths *)
  assert (LE : (List.length E <= List.length rows)%nat).
  { rewrite <- (length_map SimpleQaRoute.row E). unfold E, all.
    rewrite enhanced_rows. apply filter_length_le. }
  assert (Lrest : (List.length rest <= 2 * List.length rows)%nat).
  { unfold rest. rewrite <- (allFilesOf_length rows). fold all.
    apply five_filters; intros f; unfold source, config, other;
      rewrite ?andb_true_iff, ?negb_true_iff; tauto. }
  (* nothing is cut *)
  assert (Hctx : SimpleQaRoute.contextFiles question rows = E ++ rest).
  { unfold SimpleQaRoute.contextFiles. fold kw.
    rewrite prioritizedFiles_resolved.
    change (firstn 15 (E ++ rest) = E ++ rest).
    apply firstn_all2. rewrite length_app. lia. }
  unfold SimpleQaRoute.responseFiles, SimpleQaRoute.referencedFiles.
  fold kw. rewrite Hctx, filter_app.
  rewrite firstn_all2.
  2:{ rewrite length_app.
      pose proof (filter_length_le (SimpleQaRoute.relevant kw) E).
      pose proof (filter_length_le (SimpleQaRoute.relevant kw) rest). lia. }
  rewrite map_app.
  exists (map SimpleQaRoute.referenced (filter (SimpleQaRoute.relevant kw) E)),
    (map SimpleQaRoute.referenced (filter (SimpleQaRoute.relevant kw) rest)),
    (SimpleQaRoute.referenced e), (SimpleQaRoute.referenced o).
  split; [reflexivity|].
  split.
  { apply in_map, filter_In. split; [exact He|].
    apply relevant_mentions. subst e. exact Hmo. }
  split.
  { apply in_map, filter_In. split; [|now apply relevant_mentions].
    unfold rest. rewrite !in_app_iff, !filter_In.
    destruct (readme o) eqn:E1; [now left|].
    destruct (package o) eqn:E2; [right; now left|].
    destruct (source o) eqn:E3; [right; right; now left|].
    destruct (config o) eqn:E4; [right; right; right; now left|].
    right; right; right; right. split; [exact Ho|].
    unfold other. now rewrite E1, E2, E3, E4. }
  destruct (allFilesOf_original rows o Ho) as [Hl _].
  subst e. cbn. rewrite Eo, Hl.
  unfold SimpleQaRoute.sourceOrEmpty. rewrite Eo.
  repeat split; reflexivity.
Qed.

Lemma matching_file_is_referenced_twice_witness :
  exists copies others x y,
    SimpleQaRoute.responseFiles "nothing" [KeywordSpec.notesFile]
    = copies ++ others
    /\ In x copies /\ In y others
    /\ SimpleQaRoute.ref_fileName x = "notes.md"
    /\ SimpleQaRoute.ref_fileName y = "notes.md".
Proof.
  destruct (@matching_file_is_referenced_twice
              "nothing" [KeywordSpec.notesFile] KeywordSpec.notesFile
              ltac:(cbn; lia) (or_introl eq_refl) eq_refl)
    as (copies & others & x & y & E & Hx & Hy & _ & _ & Nx & Ny & _).
  exists copies, others, x, y. repeat split; assumption.
Defined.

(* ================================================================== *)
(** ** The answer of the keyword route *)
(* ================================================================== *)

Lemma generateFallbackAnswer_throws question files :
  (exists msg,
      SimpleQaRoute.generateFallbackAnswer question files = Thrown msg)
  <-> exists readmeFile,
        find (fun file => JsString.includes (SimpleQaRoute.lowerName file)
                                            "readme") files
        = Some readmeFile
        /\ sourceCode (SimpleQaRoute.row readmeFile) = None.
Proof.
  unfold SimpleQaRoute.generateFallbackAnswer. cbv zeta.
  destruct (find _ files) as [readmeFile|].
  - destruct (sourceCode (SimpleQaRoute.row readmeFile)) as [source|] eqn:Es.
    + split; [intros (msg & [=])|]. intros (f & [= <-] & E). congruence.
    + split; [|eauto]. intros _. exists readmeFile. now split.
  - split; [intros (msg & [=])|]. intros (f & [=] & _).
Qed.

(** X30.  The answer of the keyword route is asked of the model at most
    three times.  The answer of the first call that succeeds is taken; the
    route waits for 2 s after a first failure and 4 s after a second one,
    and five times as long after a failure that carries status 429; after a
    third failure it waits no more and takes the answer that
    [generateFallbackAnswer] builds from the files of the context, which
    throws exactly when the first of these files named like a README has no
    source code. *)
Theorem keyword_route_answer
    (statusOf : string -> option Z) (env : Env) (w : World)
    (prompt question : string) (files : list SimpleQaRoute.FileObject) :
  let n := count isGenerate w in
  let g := EvGenerate prompt in
  let wait retries msg :=
    EvSleep (SimpleQaRoute.delay
               retries (SimpleQaRoute.isRateLimited statusOf msg)) in
  let run :=
    SimpleQaRoute.generateAnswer statusOf prompt question files env w in
  (forall s, generateContent env n prompt = Ok s ->
             run = (Ok s, extend [g] w))
  /\ (forall m1 s,
        generateContent env n prompt = Thrown m1 ->
        generateContent env (n + 1) prompt = Ok s ->
        run = (Ok s, extend [g; wait 1%nat m1; g] w))
  /\ (forall m1 m2 s,
        generateContent env n prompt = Thrown m1 ->
        generateContent env (n + 1) prompt = Thrown m2 ->
        generateContent env (n + 2) prompt = Ok s ->
        run = (Ok s, extend [g; wait 1%nat m1; g; wait 2%nat m2; g] w))
  /\ (forall m1 m2 m3,
        generateContent env n prompt = Thrown m1 ->
        generateContent env (n + 1) prompt = Thrown m2 ->
        generateContent env (n + 2) prompt = Thrown m3 ->
        run = (SimpleQaRoute.generateFallbackAnswer question files,
               extend [g; wait 1%nat m1; g; wait 2%nat m2; g] w))
  /\ (forall retries rateLimited,
        SimpleQaRoute.delay retries rateLimited
        = (2 ^ Z.of_nat retries * (if rateLimited then 5000 else 1000))%Z)
  /\ ((exists msg,
          SimpleQaRoute.generateFallbackAnswer question files = Thrown msg)
      <-> exists readmeFile,
            find (fun file =>
                    JsString.includes (SimpleQaRoute.lowerName file) "readme")
                 files
            = Some readmeFile
            /\ sourceCode (SimpleQaRoute.row readmeFile) = None).
Proof.
  intros n g wait run.
  assert (Hrun : run
    = match generateContent env n prompt with
      | Ok s => (Ok s, extend [g] w)
      | Thrown m1 =>
          match generateContent env (n + 1) prompt with
          | Ok s => (Ok s, extend [g; wait 1%nat m1; g] w)
          | Thrown m2 =>
              match generateContent env (n + 2) prompt with
              | Ok s =>
                  (Ok s, extend [g; wait 1%nat m1; g; wait 2%nat m2; g] w)
              | Thrown m3 =>
                  (SimpleQaRoute.generateFallbackAnswer question files,
                   extend [g; wait 1%nat m1; g; wait 2%nat m2; g] w)
              end
          end
      end).
  { subst run.
    unfold SimpleQaRoute.generateAnswer, SimpleQaRoute.generateAnswerFrom,
      tryCatch, bind, sleep, ret, throw, Gemini.callGenerateContent.
    cbn [Nat.ltb Nat.leb SimpleQaRoute.MAX_RETRIES].
    subst g wait. trace_norm. fold n.
    destruct (generateContent env n prompt) as [s|m1]; [reflexivity|].
    trace_norm. fold n.
    destruct (generateContent env (n + 1) prompt) as [s|m2]; [reflexivity|].
    trace_norm. fold n.
    replace (n + 1 + 1)%nat with (n + 2)%nat by lia.
    destruct (generateContent env (n + 2) prompt) as [s|m3]; [reflexivity|].
    now destruct (SimpleQaRoute.generateFallbackAnswer question files). }
  split; [intros s E; now rewrite Hrun, E|].
  split; [intros m1 s E1 E2; now rewrite Hrun, E1, E2|].
  split; [intros m1 m2 s E1 E2 E3; now rewrite Hrun, E1, E2, E3|].
  split; [intros m1 m2 m3 E1 E2 E3; now rewrite Hrun, E1, E2, E3|].
  split; [reflexivity|apply generateFallbackAnswer_throws].
Qed.
